(** * Document management service: text normaliser, chunker, metadata date
    validation, ingestion retry policy and semantic search.

    Shallow embedding of
      - backend/app/services/text_service.py   (TextService)
      - backend/app/services/ai_service.py     (AIService: validation of the
        metadata, text of the prompt, retry loop)
      - backend/app/services/audit_service.py  (AuditService)
      - backend/app/services/ocr_service.py    (OCRService)
      - backend/app/workers/tasks.py           (process_document, retry policy)
      - backend/app/api/v1/endpoints/documentos.py (upload, search, update,
        deletion and audit history of documents)
      - backend/app/models/schemas.py          (validators)

    A Python [str] is a sequence of Unicode code points: [list N].
    Python [int]s are [Z]; an argument defaulting to [None] is an [option]. *)

From Stdlib Require Import ZArith NArith QArith Qcanon List Lia Bool String Ascii.
From stdpp Require Import base numbers option list strings gmap sorting.

Local Open Scope Z_scope.

(** ** Python strings *)

Definition pystr := list N.

(** A string literal of the development, one code point per byte. *)
Fixpoint lit (s : string) : pystr :=
  match s with
  | EmptyString => []
  | String c r => N_of_ascii c :: lit r
  end.

Definition LF : N := 10%N.
Definition CR : N := 13%N.
Definition TAB : N := 9%N.
Definition SP : N := 32%N.

(** [s[a:b]] for arbitrary integers: negative indices count from the end,
    and both are clamped to [0, len(s)]. *)
Definition py_index (n i : Z) : Z :=
  if i <? 0 then Z.max (i + n) 0 else Z.min i n.

Definition py_slice {A} (s : list A) (a b : Z) : list A :=
  let n := Z.of_nat (length s) in
  let a' := py_index n a in
  let b' := py_index n b in
  take (Z.to_nat (b' - a')) (drop (Z.to_nat a') s).

(** [x or d] for an optional integer: [None] and [0] are both falsy. *)
Definition py_or (x : option Z) (d : Z) : Z :=
  match x with
  | Some v => if v =? 0 then d else v
  | None => d
  end.

(** ** TextService *)

Module TextService.

Record t := { chunk_size : Z; overlap : Z }.

(** [__init__] *)
Definition init : t := {| chunk_size := 800; overlap := 100 |}.

(** Outcome of a call: a value, a raised [ValueError], or the loop bound of
    the model exhausted (which never happens: [chunk_text_total]). *)
Inductive outcome (A : Type) :=
  | Returns (a : A)
  | RaisesValueError
  | OutOfFuel.
Arguments Returns {A} a.
Arguments RaisesValueError {A}.
Arguments OutOfFuel {A}.

(** The [while start < text_length] loop of [chunk_text]; [chunks] is the
    list being appended to. *)
Fixpoint chunk_loop (fuel : nat) (text : pystr) (size ov : Z)
    (start : Z) (chunks : list pystr) : option (list pystr) :=
  let text_length := Z.of_nat (length text) in
  if start <? text_length then
    match fuel with
    | O => None
    | S fuel' =>
        let end_ := Z.min (start + size) text_length in
        let chunks' := chunks ++ [py_slice text start end_] in
        if text_length <=? end_ then Some chunks'
        else chunk_loop fuel' text size ov (end_ - ov) chunks'
    end
  else Some chunks.

Definition chunk_text (self : t) (text : pystr)
    (chunk_size_arg overlap_arg : option Z) : outcome (list pystr) :=
  match text with
  | [] => Returns []
  | _ =>
      let size := py_or chunk_size_arg (chunk_size self) in
      let ov := py_or overlap_arg (overlap self) in
      if size <=? ov then RaisesValueError
      else
        match chunk_loop (length text) text size ov 0 [] with
        | Some chunks => Returns chunks
        | None => OutOfFuel
        end
  end.


(** *** [clean_text] *)

(** The characters that the first [re.sub] keeps: U+0020..U+007E,
    U+00A0..U+024F, U+1E00..U+1EFF, line feed, carriage return and tab. *)
Definition allowed (c : N) : bool :=
  (((32 <=? c) && (c <=? 126)) || ((160 <=? c) && (c <=? 591))
   || ((7680 <=? c) && (c <=? 7935))
   || (c =? LF) || (c =? CR) || (c =? TAB))%N.

(** [re.sub(r'[^...]', ' ', text)] *)
Definition sub_disallowed (text : pystr) : pystr :=
  map (fun c => if allowed c then c else SP) text.

(** The class [[ \t]]. *)
Definition is_blank (c : N) : bool := ((c =? SP) || (c =? TAB))%N.

(** [re.sub(r'[ \t]+', ' ', text)]: [inrun] tells that the previous
    character belonged to the run being replaced. *)
Fixpoint collapse_go (inrun : bool) (s : pystr) : pystr :=
  match s with
  | [] => []
  | c :: r =>
      if is_blank c then
        if inrun then collapse_go true r else SP :: collapse_go true r
      else c :: collapse_go false r
  end.

Definition collapse_blanks (s : pystr) : pystr := collapse_go false s.

(** Unicode whitespace, as tested by the regex class [\s] on [str] patterns
    and by [str.strip()]. *)
Definition py_isspace (c : N) : bool :=
  (((9 <=? c) && (c <=? 13)) || ((28 <=? c) && (c <=? 32))
   || (c =? 133) || (c =? 160) || (c =? 5760)
   || ((8192 <=? c) && (c <=? 8202))
   || (c =? 8232) || (c =? 8233) || (c =? 8239) || (c =? 8287)
   || (c =? 12288))%N.

(** For the text [s] that follows a line feed: the number of characters
    that [\s*\n+] matches there, if it matches. The greedy [\s*] runs over
    the whole whitespace run and backtracks to its last line feed. *)
Fixpoint nl_extent (s : pystr) : option nat :=
  match s with
  | [] => None
  | c :: r =>
      if py_isspace c then
        match nl_extent r with
        | Some m => Some (S m)
        | None => if (c =? LF)%N then Some 1%nat else None
        end
      else None
  end.

(** [re.sub(r'\n\s*\n+', '\n\n', text)], scanning left to right; [skip]
    counts the characters of the current match still to be passed over. *)
Fixpoint squeeze_go (skip : nat) (s : pystr) : pystr :=
  match s with
  | [] => []
  | c :: r =>
      match skip with
      | S k => squeeze_go k r
      | O =>
          if (c =? LF)%N then
            match nl_extent r with
            | Some m => LF :: LF :: squeeze_go m r
            | None => LF :: squeeze_go 0 r
            end
          else c :: squeeze_go 0 r
      end
  end.

Definition squeeze_newlines (s : pystr) : pystr := squeeze_go 0 s.

(** [text.split('\n')] *)
Fixpoint split_lines (s : pystr) : list pystr :=
  match s with
  | [] => [[]]
  | c :: r =>
      if (c =? LF)%N then [] :: split_lines r
      else
        match split_lines r with
        | l :: ls => (c :: l) :: ls
        | [] => [[c]]
        end
  end.

(** ['\n'.join(lines)] *)
Fixpoint join_lines (lines : list pystr) : pystr :=
  match lines with
  | [] => []
  | [l] => l
  | l :: ls => l ++ LF :: join_lines ls
  end.

Fixpoint lstrip (s : pystr) : pystr :=
  match s with
  | [] => []
  | c :: r => if py_isspace c then lstrip r else s
  end.

Definition rstrip (s : pystr) : pystr := reverse (lstrip (reverse s)).

(** [str.strip()] *)
Definition strip (s : pystr) : pystr := rstrip (lstrip s).

(** Truth value of [line.strip()]. *)
Definition nonblank (line : pystr) : bool :=
  match strip line with [] => false | _ => true end.

Definition clean_text (text : pystr) : pystr :=
  match text with
  | [] => []
  | _ =>
      let text := sub_disallowed text in
      let text := collapse_blanks text in
      let text := squeeze_newlines text in
      let lines := split_lines text in
      let lines := map strip (List.filter nonblank lines) in
      let text := join_lines lines in
      strip text
  end.

End TextService.

(** ** AIService: validation of the extracted date *)

Module AIService.

(** A value found under a key of the parsed JSON metadata. *)
Inductive pyval :=
  | PyNone
  | PyStr (s : pystr)
  | PyOther.

Section DateValidation.

(** [\d] on a [str] pattern matches every Unicode decimal digit, and [int]
    reads them all. [nd_value] is the table of the decimal digits beyond
    ASCII with their values; it is only consulted above U+007F. *)
Variable nd_value : N -> option Z.

Definition digit_value (c : N) : option Z :=
  if ((48 <=? c) && (c <=? 57))%N then Some (Z.of_N c - 48)
  else if (c <? 128)%N then None
  else nd_value c.

Definition is_digit (c : N) : bool :=
  match digit_value c with Some _ => true | None => false end.

Definition HYPHEN : N := 45%N.

(** [(\d{1,2})-] at the head of [s]: the digits and what follows the
    hyphen. *)
Definition month_then_hyphen (s : pystr) : option (pystr * pystr) :=
  match s with
  | a :: b :: r =>
      if is_digit a && is_digit b then
        match r with
        | c :: r' => if (c =? HYPHEN)%N then Some ([a; b], r') else None
        | [] => None
        end
      else if is_digit a && (b =? HYPHEN)%N then Some ([a], r)
      else None
  | _ => None
  end.

(** A greedy [(\d{1,2})] at the head of [s]. *)
Definition day_digits (s : pystr) : option pystr :=
  match s with
  | a :: r =>
      if is_digit a then
        match r with
        | b :: _ => if is_digit b then Some [a; b] else Some [a]
        | [] => Some [a]
        end
      else None
  | [] => None
  end.

(** The pattern [(\d{4})-(\d{1,2})-(\d{1,2})] anchored at the head of [s]:
    the three groups. *)
Definition date_match_at (s : pystr) : option (pystr * pystr * pystr) :=
  match s with
  | y1 :: y2 :: y3 :: y4 :: h :: r =>
      if is_digit y1 && is_digit y2 && is_digit y3 && is_digit y4
         && (h =? HYPHEN)%N then
        match month_then_hyphen r with
        | Some (m, r') =>
            match day_digits r' with
            | Some d => Some ([y1; y2; y3; y4], m, d)
            | None => None
            end
        | None => None
        end
      else None
  | _ => None
  end.

(** [re.search(date_pattern, date_str)]: the leftmost match. *)
Fixpoint date_search (s : pystr) : option (pystr * pystr * pystr) :=
  match date_match_at s with
  | Some g => Some g
  | None =>
      match s with
      | [] => None
      | _ :: r => date_search r
      end
  end.

(** [int(group)] on a string of decimal digits. *)
Definition int_of_digits (ds : pystr) : Z :=
  fold_left (fun acc c => 10 * acc + default 0 (digit_value c)) ds 0.

Definition is_leap (y : Z) : bool :=
  ((y mod 4 =? 0) && negb (y mod 100 =? 0)) || (y mod 400 =? 0).

Definition days_in_month (y m : Z) : Z :=
  if m =? 2 then (if is_leap y then 29 else 28)
  else if (m =? 4) || (m =? 6) || (m =? 9) || (m =? 11) then 30
  else 31.

(** [datetime(year, month, day)] succeeds exactly on real calendar dates
    of the years 1 to 9999; otherwise it raises [ValueError]. *)
Definition real_date (y m d : Z) : bool :=
  (1 <=? y) && (y <=? 9999) && (1 <=? m) && (m <=? 12)
  && (1 <=? d) && (d <=? days_in_month y m).

Definition digit_char (v : Z) : N := Z.to_N (48 + v mod 10).

(** [%Y] of [strftime] for a year from 1 to 9999: Python hands the format
    to the C library, and that of Linux writes the year without padding,
    so a year below 1000 comes out with fewer than four digits
    ([datetime(999, 1, 1).strftime('%Y')] is ['999']). *)
Definition year_digits (y : Z) : pystr :=
  if y <? 10 then [digit_char y]
  else if y <? 100 then [digit_char (y / 10); digit_char y]
  else if y <? 1000 then
    [digit_char (y / 100); digit_char (y / 10); digit_char y]
  else
    [digit_char (y / 1000); digit_char (y / 100); digit_char (y / 10);
     digit_char y].

(** [strftime('%Y-%m-%d')]: [%m] and [%d] are padded to two digits, [%Y] is
    not padded. *)
Definition strftime_ymd (y m d : Z) : pystr :=
  year_digits y
  ++ [HYPHEN; digit_char (m / 10); digit_char m; HYPHEN;
      digit_char (d / 10); digit_char d].

Definition _validate_date_format (date_str : pyval) : option pystr :=
  match date_str with
  | PyStr ((_ :: _) as s) =>
      match date_search s with
      | Some (year, month, day) =>
          let y := int_of_digits year in
          let m := int_of_digits month in
          let d := int_of_digits day in
          if real_date y m d then Some (strftime_ymd y m d) else None
      | None => None
      end
  | _ => None
  end.

End DateValidation.

End AIService.

(** ** Ingestion worker: handling of a failed attempt *)

Module Tasks.

(** [@celery_app.task(bind=True, max_retries=3, default_retry_delay=60)] *)
Definition max_retries : Z := 3.
Definition default_retry_delay : Z := 60.

Inductive doc_status := processing | completed | error.

(** The columns of a [Documento] row that the handler writes. *)
Record doc_row := { status : doc_status; error_message : option pystr }.

(** [retry_delay = 60 * (5 ** self.request.retries)] *)
Definition retry_delay (retries : Z) : Z := 60 * 5 ^ retries.

Inductive retry_result :=
  | Rescheduled (countdown : Z)
  | GivenUp.

(** [self.retry(exc=exc, countdown=retry_delay)] of the task queue library:
    the task is sent again with [request.retries + 1] unless that exceeds
    [max_retries], in which case the exception is raised for good. *)
Definition task_retry (retries countdown : Z) : retry_result :=
  if max_retries <? retries + 1 then GivenUp else Rescheduled countdown.

(** The [except Exception as exc] block of [process_document]: [row] is the
    document row when [documento_id] was already assigned, [msg] the text
    ["{type(exc).__name__}: {str(exc)}"]. *)
Definition on_failure (row : option doc_row) (msg : pystr) (retries : Z)
    : option doc_row * retry_result :=
  let row' :=
    match row with
    | Some _ => Some {| status := error; error_message := Some msg |}
    | None => None
    end in
  (row', task_retry retries (retry_delay retries)).

(** A job every execution of which fails after its row was created: for
    each execution, the row the handler leaves and what [retry] decided.
    [fuel] bounds the number of executions followed. *)
Fixpoint failing_job (fuel : nat) (retries : Z) (msg : pystr)
    : list (option doc_row * retry_result) :=
  match fuel with
  | O => []
  | S fuel' =>
      let r := on_failure
                 (Some {| status := processing; error_message := None |})
                 msg retries in
      r :: match snd r with
           | Rescheduled _ => failing_job fuel' (retries + 1) msg
           | GivenUp => []
           end
  end.

(** The countdowns of the retries that a trace scheduled. *)
Definition countdowns (trace : list (option doc_row * retry_result)) : list Z :=
  omap (fun r => match snd r with
                 | Rescheduled c => Some c
                 | GivenUp => None
                 end) trace.

End Tasks.

(** ** Semantic search endpoint *)

Module Search.

Record date := { year : Z; month : Z; day : Z }.

Definition date_leb (a b : date) : bool :=
  (year a <? year b)
  || ((year a =? year b)
      && ((month a <? month b)
          || ((month a =? month b) && (day a <=? day b)))).

Inductive doc_status := processing | completed | error.

Definition is_completed (s : doc_status) : bool :=
  match s with completed => true | _ => false end.

Record Documento := {
  id : Z;
  status : doc_status;
  tipo_documento : option string;
  fecha_documento : option date
}.

Record SearchFilters := {
  filter_tipo_documento : option string;
  fecha_desde : option date;
  fecha_hasta : option date
}.

Record SearchRequest := {
  filters : option SearchFilters;
  page : Z;
  page_size : Z
}.

Record SearchResult := { documento : Documento; relevance_score : Qc }.

Record SearchResponse := {
  results : list SearchResult;
  total : Z;
  response_page : Z;
  total_pages : Z
}.

(** What the endpoint answers: a response, or the [HTTPException] 500 that
    its last handler makes of any other exception. *)
Inductive http (A : Type) :=
  | Ok200 (a : A)
  | Error500.
Arguments Ok200 {A} a.
Arguments Error500 {A}.

(** A row of the vector query: [documento_id] and [similitud]. *)
Definition row : Type := Z * Qc.

Definition SIMILARITY_THRESHOLD : Qc := 1%Qc.

(** The fallback of [similitud_map.get(doc_id, 999)]. *)
Definition NO_SIMILARITY : Qc := Q2Qc 999.

(** [{row.documento_id: row.similitud for row in results}]: a later row of
    the same document replaces the earlier entry. *)
Definition build_similitud_map (rows : list row) : gmap Z Qc :=
  foldl (fun m r => <[r.1 := r.2]> m) ∅ rows.

Definition similitud_of (m : gmap Z Qc) (doc_id : Z) : Qc :=
  default NO_SIMILARITY (m !! doc_id).

(** [sorted(documentos, key=...)]: a stable sort, ascending by key. *)
Fixpoint insert_by_key {A} (key : A -> Qc) (x : A) (l : list A) : list A :=
  match l with
  | [] => [x]
  | y :: l' =>
      if bool_decide (key x ≤ key y)%Qc then x :: l
      else y :: insert_by_key key x l'
  end.

Definition sorted_by_key {A} (key : A -> Qc) (l : list A) : list A :=
  foldr (insert_by_key key) [] l.

Definition eqb_opt_string (a : option string) (b : string) : bool :=
  match a with Some x => bool_decide (x = b) | None => false end.

(** The three optional [filter] calls of step 5; a comparison with a NULL
    column is not true. *)
Definition passes_filters (f : option SearchFilters) (d : Documento) : bool :=
  match f with
  | None => true
  | Some f =>
      match filter_tipo_documento f with
      | None | Some EmptyString => true
      | Some t => eqb_opt_string (tipo_documento d) t
      end
      && match fecha_desde f with
         | None => true
         | Some lo =>
             match fecha_documento d with
             | Some x => date_leb lo x
             | None => false
             end
         end
      && match fecha_hasta f with
         | None => true
         | Some hi =>
             match fecha_documento d with
             | Some x => date_leb x hi
             | None => false
             end
         end
  end.

(** [relevance_score: float = Field(..., ge=0.0, le=2.0)]: building a
    [SearchResult] with another score raises a validation error. *)
Definition valid_score (x : Qc) : bool :=
  bool_decide (0 ≤ x)%Qc && bool_decide (x ≤ Q2Qc 2)%Qc.

(** [math.ceil(total / page_size)] *)
Definition ceil_div (a b : Z) : Z := - ((- a) / b).

Definition empty_response (request : SearchRequest) : SearchResponse :=
  {| results := []; total := 0; response_page := page request;
     total_pages := 0 |}.

(** [search_documentos] from step 3 on: [rows] is what the vector query
    fetched, [documentos] the table [db.query(Documento)] reads, [request] a
    body that passed the [SearchRequest] schema ([page >= 1],
    [1 <= page_size <= 50]). An exception in the body (the division by a zero
    page size, a score that [SearchResult] rejects) ends in the handler that
    answers 500. *)
Definition search_from_rows (documentos : list Documento)
    (request : SearchRequest) (rows : list row) : http SearchResponse :=
  let documento_ids := map fst rows in
  match documento_ids with
  | [] => Ok200 (empty_response request)
  | _ =>
      let similitud_map := build_similitud_map rows in
      let documento_ids_filtrados :=
        List.filter
          (fun doc_id =>
             bool_decide (similitud_of similitud_map doc_id
                          ≤ SIMILARITY_THRESHOLD)%Qc)
          documento_ids in
      match documento_ids_filtrados with
      | [] => Ok200 (empty_response request)
      | _ =>
          let docs :=
            List.filter
              (fun d =>
                 bool_decide (id d ∈ documento_ids_filtrados)
                 && is_completed (status d)
                 && passes_filters (filters request) d)
              documentos in
          let documentos_ordenados :=
            sorted_by_key (fun d => similitud_of similitud_map (id d)) docs in
          let total := Z.of_nat (length documentos_ordenados) in
          if page_size request =? 0 then Error500
          else
            let total_pages := ceil_div total (page_size request) in
            let start_idx := (page request - 1) * page_size request in
            let end_idx := start_idx + page_size request in
            let documentos_pagina :=
              py_slice documentos_ordenados start_idx end_idx in
            let search_results :=
              map (fun d =>
                     {| documento := d;
                        relevance_score :=
                          similitud_of similitud_map (id d) |})
                  documentos_pagina in
            if forallb (fun r => valid_score (relevance_score r))
                 search_results
            then
              Ok200
                {| results := search_results;
                   total := total;
                   response_page := page request;
                   total_pages := total_pages |}
            else Error500
      end
  end.

Section VectorQuery.

(** The embedding vectors and the cosine distance [<=>] of the vector
    store are those of the database extension. *)
Variable vector : Type.
Variable cosine_distance : vector -> vector -> Qc.

Record Fragmento := { documento_id : Z; embedding : vector }.

(** [ORDER BY similitud ASC]; rows at the same distance keep the order in
    which they were read. *)
Definition order_by_similitud (rows : list row) : list row :=
  sorted_by_key snd rows.

(** [SELECT DISTINCT f.documento_id, f.embedding <=> q AS similitud
     FROM fragmentos f INNER JOIN documentos d ON f.documento_id = d.id
     WHERE d.status = 'completed' ORDER BY similitud ASC LIMIT 50] *)
Definition vector_query (fragmentos : list Fragmento)
    (documentos : list Documento) (query_vector : vector) : list row :=
  let joined :=
    flat_map
      (fun f =>
         map (fun _ => (documento_id f,
                        cosine_distance (embedding f) query_vector))
             (List.filter
                (fun d => bool_decide (id d = documento_id f)
                          && is_completed (status d))
                documentos))
      fragmentos in
  take 50 (order_by_similitud (remove_dups joined)).

(** The endpoint, once the query embedding [query_vector] was obtained. *)
Definition search_documentos (fragmentos : list Fragmento)
    (documentos : list Documento) (query_vector : vector)
    (request : SearchRequest) : http SearchResponse :=
  search_from_rows documentos request
    (vector_query fragmentos documentos query_vector).

End VectorQuery.

End Search.

(** ** Reference definitions, written from the specification *)

Module Spec.

(** Number of windows over a text of [n] characters: one window when the
    text fits in [size], otherwise one more per started step of the rest. *)
Definition window_count (n size step : nat) : nat :=
  if (n =? 0)%nat then 0%nat
  else if (n <=? size)%nat then 1%nat
  else S ((n - size + step - 1) / step)%nat.

(** Sliding windows: window [i] holds [size] characters from offset
    [i * (size - overlap)]; the last one may be shorter. *)
Definition sliding_windows (text : pystr) (size ov : nat) : list pystr :=
  let step := (size - ov)%nat in
  map (fun i => take size (drop (i * step) text))
      (seq 0 (window_count (length text) size step)).

(** The concatenation of the chunks with the overlap removed from every
    chunk but the first. *)
Definition remove_overlaps (ov : nat) (chunks : list pystr) : pystr :=
  match chunks with
  | [] => []
  | c :: cs => c ++ concat (map (drop ov) cs)
  end.

Definition first_chars (ov : Z) (c : pystr) : pystr := py_slice c 0 ov.

(** A date written [YYYY-MM-DD]: the year on four digits, the month and the
    day on two. *)
Definition yyyy_mm_dd (y m d : Z) : pystr :=
  [AIService.digit_char (y / 1000); AIService.digit_char (y / 100);
   AIService.digit_char (y / 10); AIService.digit_char y; AIService.HYPHEN;
   AIService.digit_char (m / 10); AIService.digit_char m; AIService.HYPHEN;
   AIService.digit_char (d / 10); AIService.digit_char d].

(** A string of the form [YYYY-MM-DD]: ten characters, digits but for the
    two hyphens ([nd_value] as in [AIService.digit_value]). *)
Definition is_yyyy_mm_dd (nd_value : N -> option Z) (s : pystr) : bool :=
  match s with
  | [y1; y2; y3; y4; h1; m1; m2; h2; d1; d2] =>
      forallb (AIService.is_digit nd_value) [y1; y2; y3; y4; m1; m2; d1; d2]
      && (h1 =? AIService.HYPHEN)%N && (h2 =? AIService.HYPHEN)%N
  | _ => false
  end.

(** The least distance among the rows of document [doc_id]. *)
Fixpoint min_distance (rows : list Search.row) (doc_id : Z) : option Qc :=
  match rows with
  | [] => None
  | (i, d) :: rest =>
      if bool_decide (i = doc_id) then
        match min_distance rest doc_id with
        | Some m => Some (if bool_decide (d ≤ m)%Qc then d else m)
        | None => Some d
        end
      else min_distance rest doc_id
  end.

End Spec.

(** ** Invariants used by the proofs *)

Module Invariants.

Import TextService.

(** A string without tabs and without two blanks in a row: what
    [collapse_blanks] leaves. *)
Definition starts_blank (s : pystr) : bool :=
  match s with c :: _ => is_blank c | [] => false end.

Fixpoint tidy (s : pystr) : bool :=
  match s with
  | [] => true
  | c :: r => negb (c =? TAB)%N && negb (is_blank c && starts_blank r) && tidy r
  end.

(** A string that starts with a character that is not whitespace. *)
Definition head_ok (s : pystr) : bool :=
  match s with c :: _ => negb (py_isspace c) | [] => false end.

Definition all_allowed (s : pystr) : Prop := Forall (fun c => allowed c = true) s.
Definition no_lf (s : pystr) : Prop := Forall (fun c => c <> LF) s.

(** A line as [clean_text] returns them. *)
Record good_line (l : pystr) : Prop := {
  gl_head : head_ok l = true;
  gl_last : head_ok (reverse l) = true;
  gl_no_lf : no_lf l;
  gl_tidy : tidy l = true;
  gl_allowed : all_allowed l
}.

(** The [documento_ids_filtrados] of [search_from_rows]. *)
Definition ids_within_threshold (rows : list Search.row) : list Z :=
  List.filter
    (fun doc_id =>
       bool_decide
         (Search.similitud_of (Search.build_similitud_map rows) doc_id
          ≤ Search.SIMILARITY_THRESHOLD)%Qc)
    (map fst rows).

End Invariants.

(** ** Sample data *)

Module Examples.

Import Search.

Definition doc (i : Z) : Documento :=
  {| id := i; status := completed; tipo_documento := None;
     fecha_documento := None |}.

(** A store whose vectors are listed by their distance to the query. *)
Definition frag (i : Z) (a : Z) (b : positive) : Fragmento Qc :=
  {| documento_id := i; embedding := Q2Qc (Qmake a b) |}.
Definition distance_to_query (e q : Qc) : Qc := e.

Definition first_page : SearchRequest :=
  {| filters := None; page := 1; page_size := 10 |}.

Definition hit (i : Z) (a : Z) (b : positive) : SearchResult :=
  {| documento := doc i; relevance_score := Q2Qc (Qmake a b) |}.

(** Distances 0.2, 0.9 and 1.5 to three documents. *)
Definition three_fragments : list (Fragmento Qc) :=
  [frag 3 3 2; frag 1 1 5; frag 2 9 10].

(** Document 1 with fragments at 0.2 and 1.5, document 2 with one at 0.5. *)
Definition near_and_far_fragments : list (Fragmento Qc) :=
  [frag 1 1 5; frag 1 3 2; frag 2 1 2].

(** Document 1 with fragments at 0.1 and 0.9, document 2 with one at 0.5. *)
Definition nearest_and_later_fragments : list (Fragmento Qc) :=
  [frag 1 1 10; frag 1 9 10; frag 2 1 2].

(** Two fragments of one document, at distances 0.2 and 0.9. *)
Definition two_fragments_one_document : list (Fragmento Qc) :=
  [frag 1 1 5; frag 1 9 10].

End Examples.

(** ** The rest of the text pipeline *)

Module Pipeline.

Import TextService.

(** [TextService.process_text] *)
Definition process_text (self : t) (text : pystr) : outcome (list pystr) :=
  let cleaned_text := clean_text text in
  if Z.of_nat (length cleaned_text) <=? chunk_size self then
    Returns (match cleaned_text with [] => [] | _ => [cleaned_text] end)
  else chunk_text self cleaned_text None None.

(** Steps 2 to 4 of [process_document], from the text that the extraction
    returned: the check of the minimum length, [clean_text], and
    [chunk_text(cleaned_text, chunk_size=800, overlap=100)]; the result is
    [cleaned_text] with [chunks]. *)
Definition clean_and_chunk (raw_text : pystr)
    : outcome (pystr * list pystr) :=
  match raw_text with
  | [] => RaisesValueError
  | _ =>
      if Z.of_nat (length (strip raw_text)) <? 10 then RaisesValueError
      else
        let cleaned_text := clean_text raw_text in
        match chunk_text init cleaned_text (Some 800) (Some 100) with
        | Returns chunks => Returns (cleaned_text, chunks)
        | RaisesValueError => RaisesValueError
        | OutOfFuel => OutOfFuel
        end
  end.

(** A character that [clean_text] keeps and that is not whitespace. *)
Definition visible (c : N) : bool := allowed c && negb (py_isspace c).

Definition not_space (c : N) : bool := negb (py_isspace c).

End Pipeline.

(** ** AIService: validation of the other metadata fields *)

Module Metadata.

Import TextService.

(** A value of the parsed JSON answer, as far as the validation tells
    values apart: [null], a string, a list, or anything else. *)
#[local] Unset Elimination Schemes.
Inductive jval :=
  | JNull
  | JStr (s : pystr)
  | JList (l : list jval)
  | JOther.
#[local] Set Elimination Schemes.

Definition VARIOS : pystr := lit "Varios".

(** [ALLOWED_CATEGORIES]; the accented letters are U+00FA, U+00F3 and
    U+00E1. *)
Definition ALLOWED_CATEGORIES : list pystr :=
  [lit "Oficio";
   lit "Oficio M" ++ [250%N] ++ lit "ltiple";
   lit "Resoluci" ++ [243%N] ++ lit "n Directorial";
   lit "Informe";
   lit "Solicitud";
   lit "Memor" ++ [225%N] ++ lit "ndum";
   lit "Acta";
   lit "Varios"].

(** [validate_category] *)
Definition validate_category (category : jval) : pystr :=
  match category with
  | JStr ((_ :: _) as c) =>
      if bool_decide (c ∈ ALLOWED_CATEGORIES) then c else VARIOS
  | _ => VARIOS
  end.

(** [value.strip()[:n]] when [value] is a non-empty string, else [None]:
    the treatment of [tema_principal] (200) and [resumen_corto] (500). *)
Definition sanitize_text_field (n : nat) (value : jval) : option pystr :=
  match value with
  | JStr ((_ :: _) as v) => Some (take n (strip v))
  | _ => None
  end.

(** The body of the loop of [_validate_entities_list] for one entity. *)
Definition clean_entity (entity : jval) : option pystr :=
  match entity with
  | JStr e =>
      match strip e with
      | [] => None
      | _ =>
          let clean := take 100 (strip e) in
          if (2 <=? length clean)%nat then Some clean else None
      end
  | _ => None
  end.

(** [_validate_entities_list] *)
Definition _validate_entities_list (entities : jval) : option (list pystr) :=
  match entities with
  | JList ((_ :: _) as l) =>
      match omap clean_entity l with
      | [] => None
      | validated_entities => Some (take 10 validated_entities)
      end
  | _ => None
  end.

Definition to_pyval (v : jval) : AIService.pyval :=
  match v with
  | JNull => AIService.PyNone
  | JStr s => AIService.PyStr s
  | _ => AIService.PyOther
  end.

Record validated := {
  tipo_documento : pystr;
  tema_principal : option pystr;
  fecha_documento : option pystr;
  entidades_clave : option (list pystr);
  resumen_corto : option pystr
}.

(** [metadata.get(key)] *)
Definition get (metadata : gmap string jval) (key : string) : jval :=
  default JNull (metadata !! key).

(** [_validate_and_sanitize_metadata] *)
Definition _validate_and_sanitize_metadata (nd_value : N -> option Z)
    (metadata : gmap string jval) : validated :=
  {| tipo_documento := validate_category (get metadata "tipo_documento");
     tema_principal := sanitize_text_field 200 (get metadata "tema_principal");
     fecha_documento :=
       AIService._validate_date_format nd_value
         (to_pyval (get metadata "fecha_documento"));
     entidades_clave := _validate_entities_list (get metadata "entidades_clave");
     resumen_corto := sanitize_text_field 500 (get metadata "resumen_corto") |}.

(** [DocumentoMetadata.validate_tipo_documento] of the schemas: [None] when
    the value is refused with [ValueError]. *)
Definition validate_tipo_documento (v : option pystr) : option (option pystr) :=
  match v with
  | None => Some None
  | Some c => if bool_decide (c ∈ ALLOWED_CATEGORIES) then Some (Some c) else None
  end.

End Metadata.

(** ** AIService: the retry loop around a call to the provider *)

Module Retry.

(** What one call to the provider does. *)
Inductive attempt (A : Type) :=
  | Answer (a : A)
  | ResourceExhausted
  | OtherError.
Arguments Answer {A} a.
Arguments ResourceExhausted {A}.
Arguments OtherError {A}.

(** How the loop ends: with a value, or by raising the exception of the
    last attempt. *)
Inductive ending (A : Type) :=
  | Returned (a : A)
  | RaisedResourceExhausted
  | RaisedOther
  | RaisedAllRetriesFailed.
Arguments Returned {A} a.
Arguments RaisedResourceExhausted {A}.
Arguments RaisedOther {A}.
Arguments RaisedAllRetriesFailed {A}.

(** [self.max_retries = 3], [self.retry_delay = 2] *)
Definition max_retries : nat := 3.
Definition retry_delay : Z := 2.

(** [for attempt in range(self.max_retries)] from [attempt] on, with
    [remaining] iterations left: [call i] is what the provider does at
    attempt [i]. The result is the list of the [time.sleep] arguments, the
    number of calls made, and the ending. *)
Fixpoint loop {A} (call : nat -> attempt A) (attempt_no remaining : nat)
    : list Z * nat * ending A :=
  match remaining with
  | O => ([], 0%nat, RaisedAllRetriesFailed)
  | S remaining' =>
      match call attempt_no with
      | Answer a => ([], 1%nat, Returned a)
      | ResourceExhausted =>
          if (attempt_no <? max_retries - 1)%nat then
            let '(sleeps, calls, e) := loop call (S attempt_no) remaining' in
            (retry_delay * 2 ^ Z.of_nat attempt_no :: sleeps, S calls, e)
          else ([], 1%nat, RaisedResourceExhausted)
      | OtherError =>
          if (attempt_no <? max_retries - 1)%nat then
            let '(sleeps, calls, e) := loop call (S attempt_no) remaining' in
            (retry_delay :: sleeps, S calls, e)
          else ([], 1%nat, RaisedOther)
      end
  end.

(** The loop of [extract_metadata], [generate_embedding] and
    [generate_query_embedding]. *)
Definition with_retries {A} (call : nat -> attempt A) : list Z * nat * ending A :=
  loop call 0 max_retries.

End Retry.

(** ** Search: the list that the endpoint pages *)

Module SearchViews.

Import Search.

(** [documentos_ordenados] of [search_from_rows]: the documents of the
    table that the query of step 4 and the filters of step 5 keep, sorted
    by the distance of the map. *)
Definition documentos_ordenados (documentos : list Documento)
    (request : SearchRequest) (rows : list row) : list Documento :=
  sorted_by_key (fun d => similitud_of (build_similitud_map rows) (id d))
    (List.filter
       (fun d =>
          bool_decide (id d ∈ Invariants.ids_within_threshold rows)
          && is_completed (status d)
          && passes_filters (filters request) d)
       documentos).

(** The [SearchResult] built for a document. *)
Definition to_result (rows : list row) (d : Documento) : SearchResult :=
  {| documento := d;
     relevance_score := similitud_of (build_similitud_map rows) (id d) |}.

(** Sample data with a category and a date: "Oficio" documents, and a
    request for the "Oficio" documents of 2024. *)
Definition oficio (i : Z) (y m d : Z) : Documento :=
  {| id := i; status := completed; tipo_documento := Some "Oficio"%string;
     fecha_documento := Some {| year := y; month := m; day := d |} |}.

Definition oficios_2024 : SearchRequest :=
  {| filters :=
       Some {| filter_tipo_documento := Some "Oficio"%string;
               fecha_desde := Some {| year := 2024; month := 1; day := 1 |};
               fecha_hasta := Some {| year := 2024; month := 12; day := 31 |} |};
     page := 1; page_size := 10 |}.

Definition sample_documentos : list Documento :=
  [oficio 1 2024 3 15; oficio 2 2023 5 1; Examples.doc 3].

Definition sample_fragmentos : list (Fragmento Qc) :=
  [Examples.frag 1 1 5; Examples.frag 1 9 10; Examples.frag 2 1 10;
   Examples.frag 3 1 2].

End SearchViews.

(** ** Audit log: the entries and the history service *)

Module Audit.

Inductive action_kind := CREATE | UPDATE | DELETE.

(** A JSON value of [old_values] and [new_values]. [VUuid i] is the string
    [str(id)] of an identifier and [VIsoTime t] the string [t.isoformat()]
    of a timestamp. *)
Inductive val :=
  | VNull
  | VStr (s : pystr)
  | VInt (z : Z)
  | VStrs (l : list pystr)
  | VUuid (i : Z)
  | VIsoTime (t : Z).

(** A row of [audit_log], without its own identifier. *)
Record AuditLog := {
  documento_id : Z;
  action : action_kind;
  old_values : option (gmap string val);
  new_values : option (gmap string val);
  user_id : option pystr;
  timestamp : Z
}.

Definition SYSTEM : pystr := lit "system".

(** [user_id or 'system'] *)
Definition user_or_system (user : option pystr) : pystr :=
  match user with
  | Some ((_ :: _) as u) => u
  | _ => SYSTEM
  end.

(** [log_create], [log_update] and [log_delete]: the entry that is added to
    the session; [now] is the time that the server default gives it. *)
Definition log_create (doc_id : Z) (new : gmap string val)
    (user : option pystr) (now : Z) : AuditLog :=
  {| documento_id := doc_id; action := CREATE; old_values := None;
     new_values := Some new; user_id := Some (user_or_system user);
     timestamp := now |}.

Definition log_update (doc_id : Z) (old new : gmap string val)
    (user : option pystr) (now : Z) : AuditLog :=
  {| documento_id := doc_id; action := UPDATE; old_values := Some old;
     new_values := Some new; user_id := Some (user_or_system user);
     timestamp := now |}.

Definition log_delete (doc_id : Z) (old : gmap string val)
    (user : option pystr) (now : Z) : AuditLog :=
  {| documento_id := doc_id; action := DELETE; old_values := Some old;
     new_values := None; user_id := Some (user_or_system user);
     timestamp := now |}.

Record AuditLogResponse := {
  entries : list AuditLog;
  total : Z;
  page : Z;
  total_pages : Z
}.

(** [order_by(desc(AuditLog.timestamp))]; entries of the same time keep the
    order of the table. *)
Fixpoint insert_desc (e : AuditLog) (l : list AuditLog) : list AuditLog :=
  match l with
  | [] => [e]
  | x :: l' =>
      if timestamp x <=? timestamp e then e :: l else x :: insert_desc e l'
  end.

Definition order_by_timestamp_desc (l : list AuditLog) : list AuditLog :=
  foldr insert_desc [] l.

(** [query.offset(offset).limit(page_size).all()] *)
Definition offset_limit {A} (offset limit : Z) (query : list A) : list A :=
  take (Z.to_nat limit) (drop (Z.to_nat offset) query).

(** The end of both history functions, from the ordered query on. *)
Definition paginate (query : list AuditLog) (page page_size : Z)
    : AuditLogResponse :=
  let total := Z.of_nat (length query) in
  let offset := (page - 1) * page_size in
  let entries := offset_limit offset page_size query in
  let total_pages := (total + page_size - 1) / page_size in
  {| entries := entries; total := total; page := page;
     total_pages := total_pages |}.

(** [get_document_history] *)
Definition get_document_history (audit_log : list AuditLog)
    (doc_id page page_size : Z) : AuditLogResponse :=
  let page := Z.max 1 page in
  let page_size := Z.min 100 (Z.max 1 page_size) in
  let query :=
    order_by_timestamp_desc
      (List.filter (fun e => documento_id e =? doc_id) audit_log) in
  paginate query page page_size.

Definition action_eqb (a b : action_kind) : bool :=
  match a, b with
  | CREATE, CREATE | UPDATE, UPDATE | DELETE, DELETE => true
  | _, _ => false
  end.

(** The action that a string of [valid_actions] names. *)
Definition action_of_string (a : pystr) : option action_kind :=
  if bool_decide (a = lit "CREATE") then Some CREATE
  else if bool_decide (a = lit "UPDATE") then Some UPDATE
  else if bool_decide (a = lit "DELETE") then Some DELETE
  else None.

Section AllHistory.

(** [str.upper] *)
Variable upper : pystr -> pystr.

(** The filters of [get_all_audit_history]: each is applied only when its
    argument is truthy, and the one on the action only when the upper-cased
    name is a valid action. *)
Definition keeps (action_filter user_filter : option pystr)
    (date_from date_to : option Z) (e : AuditLog) : bool :=
  match action_filter with
  | Some ((_ :: _) as a) =>
      match action_of_string (upper a) with
      | Some k => action_eqb (action e) k
      | None => true
      end
  | _ => true
  end
  && match user_filter with
     | Some ((_ :: _) as u) => bool_decide (user_id e = Some u)
     | _ => true
     end
  && match date_from with
     | Some t => t <=? timestamp e
     | None => true
     end
  && match date_to with
     | Some t => timestamp e <=? t
     | None => true
     end.

(** [get_all_audit_history] *)
Definition get_all_audit_history (audit_log : list AuditLog)
    (page page_size : Z) (action_filter user_filter : option pystr)
    (date_from date_to : option Z) : AuditLogResponse :=
  let page := Z.max 1 page in
  let page_size := Z.min 100 (Z.max 1 page_size) in
  let query :=
    order_by_timestamp_desc
      (List.filter (keeps action_filter user_filter date_from date_to)
         audit_log) in
  paginate query page page_size.

End AllHistory.

End Audit.

(** ** The database as the endpoints and the worker change it *)

(** Identifiers (UUIDs) and times are integers. An operation is followed up
    to its commit; a failure of the database itself, which the endpoints
    answer with 500 after a rollback, is not part of the model, and the only
    exception followed in the worker is that of a call to the provider. *)

Module Store.

(** A row of [documentos]: the columns that the operations below read or
    write ([minio_url], [created_at] and [created_by] are left out). *)
Record Documento := {
  id : Z;
  filename : pystr;
  minio_object_name : pystr;
  tipo_documento : option pystr;
  tema_principal : option pystr;
  fecha_documento : option Search.date;
  entidades_clave : option (list pystr);
  resumen_corto : option pystr;
  file_size_bytes : Z;
  content_type : pystr;
  num_pages : option Z;
  upload_timestamp : Z;
  updated_at : Z;
  processed_at : option Z;
  status : Search.doc_status;
  error_message : option pystr
}.

(** A row of [fragmentos], without its embedding. *)
Record Fragmento := {
  documento_id : Z;
  texto : pystr;
  posicion : Z
}.

(** The three tables. Deleting a row of [documentos] deletes the rows of
    the other two that refer to it ([ondelete='CASCADE']). *)
Record db := {
  documentos : list Documento;
  fragmentos : list Fragmento;
  audit_log : list Audit.AuditLog
}.

Definition empty : db :=
  {| documentos := []; fragmentos := []; audit_log := [] |}.

Inductive answer (A : Type) :=
  | Ok200 (a : A)
  | Error (status_code : Z).
Arguments Ok200 {A} a.
Arguments Error {A} status_code.

(** *** The dictionaries written to the audit log *)

Definition opt_str (v : option pystr) : Audit.val :=
  match v with Some s => Audit.VStr s | None => Audit.VNull end.

(** [date.isoformat()]: the year on four digits, the month and the day on
    two. *)
Definition isoformat (d : Search.date) : pystr :=
  [AIService.digit_char (Search.year d / 1000);
   AIService.digit_char (Search.year d / 100);
   AIService.digit_char (Search.year d / 10);
   AIService.digit_char (Search.year d); AIService.HYPHEN;
   AIService.digit_char (Search.month d / 10);
   AIService.digit_char (Search.month d); AIService.HYPHEN;
   AIService.digit_char (Search.day d / 10);
   AIService.digit_char (Search.day d)].

Definition status_name (s : Search.doc_status) : pystr :=
  match s with
  | Search.processing => lit "processing"
  | Search.completed => lit "completed"
  | Search.error => lit "error"
  end.

(** The five metadata entries that all three dictionaries share. *)
Definition metadata_items (d : Documento) : list (string * Audit.val) :=
  [("tipo_documento"%string, opt_str (tipo_documento d));
   ("tema_principal"%string, opt_str (tema_principal d));
   ("fecha_documento"%string,
    match fecha_documento d with
    | Some x => Audit.VStr (isoformat x)
    | None => Audit.VNull
    end);
   ("entidades_clave"%string,
    match entidades_clave d with
    | Some l => Audit.VStrs l
    | None => Audit.VNull
    end);
   ("resumen_corto"%string, opt_str (resumen_corto d))].

(** [old_values] and [new_values] of [update_documento] *)
Definition metadata_values (d : Documento) : gmap string Audit.val :=
  list_to_map (metadata_items d).

(** [documento_info] of [delete_documento] *)
Definition delete_info (d : Documento) : gmap string Audit.val :=
  list_to_map
    ([("id"%string, Audit.VUuid (id d));
      ("filename"%string, Audit.VStr (filename d))]
     ++ metadata_items d
     ++ [("minio_object_name"%string, Audit.VStr (minio_object_name d));
         ("file_size_bytes"%string, Audit.VInt (file_size_bytes d));
         ("upload_timestamp"%string, Audit.VIsoTime (upload_timestamp d));
         ("status"%string, Audit.VStr (status_name (status d)))]).

(** [documento_info] of [process_document] *)
Definition create_info (d : Documento) : gmap string Audit.val :=
  list_to_map
    ([("id"%string, Audit.VUuid (id d));
      ("filename"%string, Audit.VStr (filename d))]
     ++ metadata_items d
     ++ [("file_size_bytes"%string, Audit.VInt (file_size_bytes d));
         ("content_type"%string, Audit.VStr (content_type d));
         ("num_pages"%string,
          match num_pages d with
          | Some n => Audit.VInt n
          | None => Audit.VNull
          end);
         ("upload_timestamp"%string, Audit.VIsoTime (upload_timestamp d));
         ("status"%string, Audit.VStr (status_name (status d)))]).

(** *** [update_documento] *)

(** The body of the request, field by field: [None] for a field that the
    body does not set, [Some v] for one that it sets to [v] ([v = None] for
    [null]). For [fecha_documento] the value is the date once parsed. *)
Record DocumentoUpdate := {
  set_tipo_documento : option (option pystr);
  set_tema_principal : option (option pystr);
  set_fecha_documento : option (option Search.date);
  set_entidades_clave : option (option (list pystr));
  set_resumen_corto : option (option pystr)
}.

(** [DocumentoUpdate.validate_tipo_documento]: [None] when the value is
    refused with [ValueError]. *)
Definition validate_tipo_documento (v : option pystr)
    : option (option pystr) :=
  match v with
  | None | Some [] => Some None
  | Some c =>
      if bool_decide (c ∈ Metadata.ALLOWED_CATEGORIES) then Some (Some c)
      else None
  end.

(** [validate_tema_principal] and [validate_resumen_corto] *)
Definition empty_to_none (v : option pystr) : option pystr :=
  match v with
  | Some [] => None
  | _ => v
  end.

(** The validation of the body: the validator of a field runs when the
    body sets the field. [None] is the answer 422. *)
Definition validate_update (body : DocumentoUpdate) : option DocumentoUpdate :=
  match set_tipo_documento body with
  | Some v =>
      match validate_tipo_documento v with
      | Some v' => Some (Some v')
      | None => None
      end
  | None => Some None
  end ≫= fun tipo =>
  Some {| set_tipo_documento := tipo;
          set_tema_principal := empty_to_none <$> set_tema_principal body;
          set_fecha_documento := set_fecha_documento body;
          set_entidades_clave := set_entidades_clave body;
          set_resumen_corto := empty_to_none <$> set_resumen_corto body |}.

(** [setattr(documento, field, value)] for a field of [update_dict] *)
Definition set_field {A} (update : option A) (current : A) : A :=
  match update with
  | Some v => v
  | None => current
  end.

(** The row after the loop over [update_dict] and the new [updated_at]. *)
Definition apply_update (update_data : DocumentoUpdate) (d : Documento)
    (now : Z) : Documento :=
  {| id := id d;
     filename := filename d;
     minio_object_name := minio_object_name d;
     tipo_documento :=
       set_field (set_tipo_documento update_data) (tipo_documento d);
     tema_principal :=
       set_field (set_tema_principal update_data) (tema_principal d);
     fecha_documento :=
       set_field (set_fecha_documento update_data) (fecha_documento d);
     entidades_clave :=
       set_field (set_entidades_clave update_data) (entidades_clave d);
     resumen_corto :=
       set_field (set_resumen_corto update_data) (resumen_corto d);
     file_size_bytes := file_size_bytes d;
     content_type := content_type d;
     num_pages := num_pages d;
     upload_timestamp := upload_timestamp d;
     updated_at := now;
     processed_at := processed_at d;
     status := status d;
     error_message := error_message d |}.

(** [update_documento]: the answer and the database after it. [now] is the
    time of the transaction. *)
Definition update_documento (s : db) (doc_id : Z) (body : DocumentoUpdate)
    (now : Z) : answer Documento * db :=
  match validate_update body with
  | None => (Error 422, s)
  | Some update_data =>
      match list_find
              (fun d => id d = doc_id /\ Search.is_completed (status d) = true)
              (documentos s) with
      | None => (Error 404, s)
      | Some (i, documento) =>
          let old_values := metadata_values documento in
          let documento' := apply_update update_data documento now in
          let new_values := metadata_values documento' in
          let entry :=
            Audit.log_update (id documento) old_values new_values
              (Some Audit.SYSTEM) now in
          (Ok200 documento',
           {| documentos := <[i := documento']> (documentos s);
              fragmentos := fragmentos s;
              audit_log := audit_log s ++ [entry] |})
      end
  end.

(** *** [delete_documento] *)

(** [db.delete(documento)] and [db.commit()]: the row goes, and with it the
    fragments and the audit entries that refer to it. *)
Definition delete_cascade (s : db) (doc_id : Z) : db :=
  {| documentos := List.filter (fun d => negb (id d =? doc_id)) (documentos s);
     fragmentos :=
       List.filter (fun f => negb (documento_id f =? doc_id)) (fragmentos s);
     audit_log :=
       List.filter (fun e => negb (Audit.documento_id e =? doc_id))
         (audit_log s) |}.

(** [delete_documento]; the removal of the stored file, whose failure the
    code ignores, does not touch the database. *)
Definition delete_documento (s : db) (doc_id : Z) (confirm : bool) (now : Z)
    : answer Z * db :=
  if negb confirm then (Error 400, s)
  else
    match list_find (fun d => id d = doc_id) (documentos s) with
    | None => (Error 404, s)
    | Some (_, documento) =>
        let entry :=
          Audit.log_delete (id documento) (delete_info documento)
            (Some Audit.SYSTEM) now in
        let logged :=
          {| documentos := documentos s;
             fragmentos := fragmentos s;
             audit_log := audit_log s ++ [entry] |} in
        (Ok200 doc_id, delete_cascade logged (id documento))
    end.

(** *** [get_documento] and [get_document_audit_history] *)


Definition get_document_audit_history (s : db) (doc_id page page_size : Z)
    : answer Audit.AuditLogResponse :=
  match list_find (fun d => id d = doc_id) (documentos s) with
  | None => Error 404
  | Some (_, documento) =>
      if page <? 1 then Error 400
      else if (page_size <? 1) || (100 <? page_size) then Error 400
      else
        Ok200 (Audit.get_document_history (audit_log s) (id documento)
                 page page_size)
  end.

(** *** [process_document], steps 5 to 8 *)

(** What the task knows of the file when it reaches step 6. *)
Record stored_file := {
  file_filename : pystr;
  file_object_name : pystr;
  file_size : Z;
  file_content_type : pystr;
  file_num_pages : option Z
}.

(** [metadata_dict], the answer of [extract_metadata], with its date
    parsed. *)
Record metadata_dict := {
  dict_tipo_documento : option pystr;
  dict_tema_principal : option pystr;
  dict_fecha_documento : option Search.date;
  dict_entidades_clave : option (list pystr);
  dict_resumen_corto : option pystr
}.

(** The loop of step 7 from index [idx] on: [generated i] tells whether
    [generate_embedding] returned for chunk [i]. The result is the fragments
    added to the session, and whether the loop ended without exception. *)
Fixpoint add_fragments (generated : nat -> bool) (doc_id : Z) (idx : nat)
    (chunks : list pystr) : list Fragmento * bool :=
  match chunks with
  | [] => ([], true)
  | chunk :: rest =>
      if generated idx then
        let '(added, ok) := add_fragments generated doc_id (S idx) rest in
        ({| documento_id := doc_id; texto := chunk;
            posicion := Z.of_nat idx |} :: added, ok)
      else ([], false)
  end.

(** From the validation of [metadata_dict] by [DocumentoMetadata] to the commit, with the
    handler of the exception: [new_id] is the identifier that the row gets,
    [now] the time of the transaction, [utcnow] the time of the worker,
    [msg] the text of the exception if there is one. The answer is the
    identifier of the completed document, or [None] when the attempt
    failed. *)
Definition store_document (s : db) (new_id now utcnow : Z)
    (file : stored_file) (metadata : metadata_dict) (chunks : list pystr)
    (generated : nat -> bool) (msg : pystr) : option Z * db :=
  match Metadata.validate_tipo_documento (dict_tipo_documento metadata) with
  | None => (None, s)
  | Some tipo =>
      let documento (st : Search.doc_status) (processed : option Z)
          (err : option pystr) :=
        {| id := new_id;
           filename := file_filename file;
           minio_object_name := file_object_name file;
           tipo_documento := tipo;
           tema_principal := dict_tema_principal metadata;
           fecha_documento := dict_fecha_documento metadata;
           entidades_clave := dict_entidades_clave metadata;
           resumen_corto := dict_resumen_corto metadata;
           file_size_bytes := file_size file;
           content_type := file_content_type file;
           num_pages := file_num_pages file;
           upload_timestamp := now;
           updated_at := now;
           processed_at := processed;
           status := st;
           error_message := err |} in
      let '(added, ok) := add_fragments generated new_id 0 chunks in
      if ok then
        let completed := documento Search.completed (Some utcnow) None in
        (Some new_id,
         {| documentos := documentos s ++ [completed];
            fragmentos := fragmentos s ++ added;
            audit_log :=
              audit_log s
              ++ [Audit.log_create new_id (create_info completed)
                    (Some Audit.SYSTEM) now] |})
      else
        (None,
         {| documentos :=
              documentos s
              ++ [documento Search.error (Some utcnow) (Some msg)];
            fragmentos := fragmentos s ++ added;
            audit_log := audit_log s |})
  end.

(** *** The states that the operations reach *)

Inductive step : db -> db -> Prop :=
  | step_store s new_id now utcnow file metadata chunks generated msg :
      new_id ∉ map id (documentos s) ->
      step s (store_document s new_id now utcnow file metadata chunks
                generated msg).2
  | step_update s doc_id body now :
      step s (update_documento s doc_id body now).2
  | step_delete s doc_id confirm now :
      step s (delete_documento s doc_id confirm now).2.

Definition reachable (s : db) : Prop := rtc step empty s.

(** What every reachable state satisfies. *)
Record consistent (s : db) : Prop := {
  unique_ids : NoDup (map id (documentos s));
  fragment_refs :
    forall f, f ∈ fragmentos s -> documento_id f ∈ map id (documentos s);
  audit_refs :
    forall e, e ∈ audit_log s ->
      Audit.action e <> Audit.DELETE
      /\ exists d, d ∈ documentos s /\ id d = Audit.documento_id e
                   /\ status d = Search.completed;
  valid_tipo_documento :
    forall d, d ∈ documentos s ->
      tipo_documento d = None
      \/ exists c, tipo_documento d = Some c
                   /\ c ∈ Metadata.ALLOWED_CATEGORIES;
  created_once :
    map Audit.documento_id
      (List.filter (fun e => Audit.action_eqb (Audit.action e) Audit.CREATE)
         (audit_log s))
    = map id
        (List.filter (fun d => Search.is_completed (status d)) (documentos s));
  by_system :
    forall e, e ∈ audit_log s -> Audit.user_id e = Some Audit.SYSTEM
}.

(** Sample data: a file stored with two chunks; a second file whose second
    embedding fails; a third file, stored and later deleted; an update of
    the first document. *)
Definition sample_file : stored_file :=
  {| file_filename := lit "oficio.pdf";
     file_object_name := lit "2024/oficio.pdf";
     file_size := 1024;
     file_content_type := lit "application/pdf";
     file_num_pages := Some 2 |}.

Definition sample_metadata : metadata_dict :=
  {| dict_tipo_documento := Some (lit "Oficio");
     dict_tema_principal := Some (lit "Plazas");
     dict_fecha_documento :=
       Some {| Search.year := 2024; Search.month := 3; Search.day := 15 |};
     dict_entidades_clave := None;
     dict_resumen_corto := None |}.

Definition sample_chunks : list pystr := [lit "uno"; lit "dos"].

Definition after_store : db :=
  (store_document empty 1 100 101 sample_file sample_metadata sample_chunks
     (fun _ => true) []).2.

Definition after_failure : db :=
  (store_document after_store 2 110 111 sample_file sample_metadata
     sample_chunks (fun i => bool_decide (i = 0%nat)) (lit "timeout")).2.

Definition after_second_store : db :=
  (store_document after_failure 3 120 121 sample_file sample_metadata
     sample_chunks (fun _ => true) []).2.

Definition sample_update : DocumentoUpdate :=
  {| set_tipo_documento := Some (Some (lit "Informe"));
     set_tema_principal := Some (Some (lit "Contratos"));
     set_fecha_documento := None;
     set_entidades_clave := None;
     set_resumen_corto := None |}.

Definition after_update : db :=
  (update_documento after_second_store 1 sample_update 130).2.

Definition after_delete : db := (delete_documento after_update 3 true 200).2.

End Store.

(** ** AIService: the text that goes into the prompt *)

Module Prompt.

Import TextService.

(** The class [[\x00-\x08\x0B\x0C\x0E-\x1F\x7F]]. *)
Definition control (c : N) : bool :=
  ((c <=? 8) || (c =? 11) || (c =? 12) || ((14 <=? c) && (c <=? 31))
   || (c =? 127))%N.

(** [re.sub(r'[\x00-\x08\x0B\x0C\x0E-\x1F\x7F]', ' ', text)] *)
Definition sub_control (text : pystr) : pystr :=
  map (fun c => if control c then SP else c) text.

(** The test of the comprehension: [line.strip() and len(line) < 500]. *)
Definition kept_line (line : pystr) : bool :=
  nonblank line && (length line <? 500)%nat.

(** [_sanitize_text_for_llm]; its second and third substitution are those
    of [clean_text]. *)
Definition _sanitize_text_for_llm (text : pystr) : pystr :=
  match text with
  | [] => []
  | _ =>
      let sanitized := sub_control text in
      let sanitized := collapse_blanks sanitized in
      let sanitized := squeeze_newlines sanitized in
      let lines := split_lines sanitized in
      let filtered_lines := map strip (List.filter kept_line lines) in
      strip (join_lines filtered_lines)
  end.

(** [text_truncated] of [extract_metadata]:
    [self._sanitize_text_for_llm(text[:4000])]. *)
Definition text_truncated (text : pystr) : pystr :=
  _sanitize_text_for_llm (py_slice text 0 4000).

(** [text_for_metadata] of [process_document]: [cleaned_text[:4000]]. *)
Definition text_for_metadata (cleaned_text : pystr) : pystr :=
  py_slice cleaned_text 0 4000.

(** A line as [_sanitize_text_for_llm] returns them. *)
Definition trimmed (l : pystr) : Prop :=
  Invariants.head_ok l = true /\ Invariants.head_ok (reverse l) = true
  /\ Invariants.no_lf l.

End Prompt.

(** ** The upload endpoint and the extraction of the text *)

Module Ingest.

Import TextService.

Definition PDF : pystr := lit "application/pdf".
Definition JPEG : pystr := lit "image/jpeg".
Definition JPG : pystr := lit "image/jpg".

(** [allowed_types] of [upload_document] *)
Definition allowed_types : list pystr := [PDF; JPEG; JPG].

(** [settings.MAX_UPLOAD_SIZE_MB], with the value that [config.py] gives
    it by default. *)
Definition MAX_UPLOAD_SIZE_MB : Z := 50.

Inductive upload_answer :=
  | Accepted (file_extension : pystr)
  | Refused (status_code : Z).

(** [upload_document] up to the temporary file, whose suffix is what is
    kept of an accepted upload here; [content_type] is [None] when the part
    of the request has none. *)
Definition upload_document (content_type : option pystr)
    (file_size_bytes : Z) : upload_answer :=
  match content_type with
  | Some c =>
      if bool_decide (c ∈ allowed_types) then
        let max_size_bytes := MAX_UPLOAD_SIZE_MB * 1024 * 1024 in
        if max_size_bytes <? file_size_bytes then Refused 413
        else Accepted (if bool_decide (c = PDF) then lit ".pdf" else lit ".jpg")
      else Refused 400
  | None => Refused 400
  end.

(** A page as the libraries read it: the text of the page
    ([page.get_text()]) and the text recognised on its image
    ([image_to_string]). *)
Record page := { get_text : pystr; image_to_string : pystr }.

(** A file as the libraries read it: its pages when it opens as a PDF, the
    text recognised when it opens as an image. *)
Record file := { pdf_pages : option (list page); image_text : option pystr }.

Inductive extracted :=
  | Text (text : pystr)
  | UnsupportedType
  | CannotOpen
  | UnboundPageNum.

(** [self.min_text_threshold] *)
Definition min_text_threshold : Z := 50.

(** [_ocr_pdf_pages]: the log after the loop reads [page_num], which is
    not bound when the document has no page. *)
Definition _ocr_pdf_pages (pages : list page) : extracted :=
  let text := concat (map (fun p => image_to_string p ++ [LF]) pages) in
  match pages with
  | [] => UnboundPageNum
  | _ => Text text
  end.

(** [_extract_from_pdf] *)
Definition _extract_from_pdf (f : file) : extracted :=
  match pdf_pages f with
  | None => CannotOpen
  | Some pages =>
      let text := concat (map get_text pages) in
      if min_text_threshold <=? Z.of_nat (length (strip text)) then Text text
      else _ocr_pdf_pages pages
  end.

(** [_extract_from_image] *)
Definition _extract_from_image (f : file) : extracted :=
  match image_text f with
  | Some text => Text text
  | None => CannotOpen
  end.

(** [extract_text] *)
Definition extract_text (f : file) (content_type : pystr) : extracted :=
  if bool_decide (content_type = PDF) then _extract_from_pdf f
  else if bool_decide (content_type ∈ [JPEG; JPG]) then _extract_from_image f
  else UnsupportedType.

(** Sample data: a scanned page with a short text layer. *)
Definition stamped_page : page :=
  {| get_text := lit "UGEL Ilo - Mesa de partes"; image_to_string := lit " " |}.

Definition stamped_pdf : file :=
  {| pdf_pages := Some [stamped_page]; image_text := None |}.

End Ingest.

(** ** The download endpoint *)

Module Download.

Import Store.


Section Lower.

(** [str.lower] *)
Variable lower : pystr -> pystr.



End Lower.

End Download.

(** * Proofs *)

(** ** Python slices *)

Lemma py_slice_window {A} (s : list A) (a size : nat) :
  (a <= length s)%nat ->
  py_slice s (Z.of_nat a)
    (Z.min (Z.of_nat a + Z.of_nat size) (Z.of_nat (length s)))
  = take size (drop a s).
Proof.
  intros Ha. unfold py_slice, py_index.
  destruct (Z.ltb_spec (Z.of_nat a) 0) as [?|_]; [lia|].
  destruct (Z.ltb_spec (Z.min (Z.of_nat a + Z.of_nat size) (Z.of_nat (length s))) 0)
    as [?|_]; [lia|].
  rewrite (Z.min_l (Z.of_nat a)) by lia.
  rewrite Nat2Z.id.
  destruct (Nat.le_gt_cases (a + size) (length s)) as [Hle|Hgt].
  - f_equal. lia.
  - rewrite (take_ge _ size) by (rewrite length_drop; lia).
    apply take_ge. rewrite length_drop. lia.
Qed.


Lemma first_chars_take (c : pystr) (ov : nat) :
  Spec.first_chars (Z.of_nat ov) c = take ov c.
Proof.
  unfold Spec.first_chars, py_slice, py_index.
  destruct (Z.ltb_spec (Z.of_nat ov) 0) as [?|_]; [lia|].
  change (0 <? 0) with false.
  rewrite (Z.min_l 0), Z.sub_0_r by lia. cbn [Z.to_nat drop].
  destruct (Nat.le_gt_cases ov (length c)).
  - f_equal. lia.
  - rewrite (take_ge c ov) by lia. apply take_ge. lia.
Qed.

(** ** The chunker *)

Lemma chunk_text_nonempty (self : TextService.t) (text : pystr)
    (a b : option Z) :
  text <> [] ->
  TextService.chunk_text self text a b
  = let size := py_or a (TextService.chunk_size self) in
    let ov := py_or b (TextService.overlap self) in
    if size <=? ov then TextService.RaisesValueError
    else
      match TextService.chunk_loop (length text) text size ov 0 [] with
      | Some chunks => TextService.Returns chunks
      | None => TextService.OutOfFuel
      end.
Proof. destruct text; [congruence|reflexivity]. Qed.

Lemma chunk_loop_total (fuel : nat) (text : pystr) (size ov start : Z)
    (acc : list pystr) :
  ov < size ->
  (Z.to_nat (Z.of_nat (length text) - start) <= fuel)%nat ->
  is_Some (TextService.chunk_loop fuel text size ov start acc).
Proof.
  intros Hov. revert start acc.
  induction fuel as [|fuel IH]; intros start acc Hfuel; cbn [TextService.chunk_loop].
  - destruct (Z.ltb_spec start (Z.of_nat (length text))); [lia|done].
  - destruct (Z.ltb_spec start (Z.of_nat (length text))); [|done].
    destruct (Z.leb_spec (Z.of_nat (length text))
                (Z.min (start + size) (Z.of_nat (length text)))); [done|].
    apply IH. lia.
Qed.

Lemma chunk_text_total (self : TextService.t) (text : pystr) (a b : option Z) :
  TextService.chunk_text self text a b <> TextService.OutOfFuel.
Proof.
  destruct text as [|c r]; [discriminate|].
  unfold TextService.chunk_text.
  destruct (Z.leb_spec (py_or a (TextService.chunk_size self))
              (py_or b (TextService.overlap self))) as [|Hlt]; [discriminate|].
  destruct (chunk_loop_total (length (c :: r)) (c :: r) _ _ 0 [] Hlt ltac:(lia))
    as [chunks ->].
  discriminate.
Qed.

Section Chunker.

Import TextService.

Variable text : pystr.
Variables size ov : nat.
Hypothesis ov_pos : (0 < ov)%nat.
Hypothesis ov_lt_size : (ov < size)%nat.

Let step := (size - ov)%nat.
Let n := length text.
Let count := Spec.window_count n size step.
Let window (i : nat) : pystr := take size (drop (i * step) text).

Lemma window_count_bounds :
  (0 < n)%nat ->
  (1 <= count)%nat
  /\ (n <= (count - 1) * step + size)%nat
  /\ (forall i, (i + 1 < count)%nat -> (i * step + size < n)%nat).
Proof.
  intros Hn. subst count. unfold Spec.window_count.
  destruct (Nat.eqb_spec n 0) as [?|_]; [lia|].
  destruct (Nat.leb_spec n size) as [Hle|Hgt].
  - repeat split; try lia.
  - assert (Hstep : (0 < step)%nat) by (subst step; lia).
    set (m := (n - size + step - 1)%nat).
    pose proof (Nat.div_mod_eq m step) as Hdm.
    pose proof (Nat.mod_upper_bound m step ltac:(lia)) as Hmod.
    set (k := (m / step)%nat) in *.
    replace (S k - 1)%nat with k by lia.
    split; [lia|]. split.
    + assert (m < step * k + step)%nat by lia. subst m. nia.
    + intros i Hi. assert (i + 1 <= k)%nat by lia.
      assert (step * (i + 1) <= step * k)%nat by nia.
      subst m. nia.
Qed.

Lemma chunk_loop_windows (fuel i : nat) (acc : list pystr) :
  (i * step < n)%nat ->
  (n - i * step <= fuel)%nat ->
  (i = 0 \/ (i - 1) * step + size < n)%nat ->
  chunk_loop fuel text (Z.of_nat size) (Z.of_nat ov) (Z.of_nat (i * step)) acc
  = Some (acc ++ map window (seq i (count - i))).
Proof.
  revert i acc. induction fuel as [|fuel IH]; intros i acc Hlt Hfuel Hmin.
  { lia. }
  assert (Hn : (0 < n)%nat) by lia.
  destruct (window_count_bounds Hn) as (Hc1 & Hlast & Hbefore).
  cbn [chunk_loop].
  rewrite !py_slice_window by (fold n; lia). fold n. fold (window i).
  destruct (Z.ltb_spec (Z.of_nat (i * step)) (Z.of_nat n)) as [_|?]; [|lia].
  destruct (Z.leb_spec (Z.of_nat n)
              (Z.min (Z.of_nat (i * step) + Z.of_nat size) (Z.of_nat n)))
    as [Hend|Hend].
  - (* the window reaches the end of the text: it is the last one *)
    assert (Hi : (n <= i * step + size)%nat) by lia.
    assert (count = S i) as ->.
    { destruct (Nat.lt_trichotomy count (S i)) as [Hc|[Hc|Hc]]; [|done|].
      - exfalso. destruct Hmin as [->|Hmin]; [lia|].
        assert ((count - 1) * step <= (i - 1) * step)%nat by nia. lia.
      - exfalso. specialize (Hbefore i ltac:(lia)). lia. }
    replace (S i - i)%nat with 1%nat by lia. done.
  - assert (Hi : (i * step + size < n)%nat) by lia.
    rewrite Z.min_l by lia.
    replace (Z.of_nat (i * step) + Z.of_nat size - Z.of_nat ov)
      with (Z.of_nat (S i * step)) by (subst step; nia).
    assert (Hci : (S i < count)%nat).
    { destruct (Nat.le_gt_cases count (S i)) as [Hc|Hc]; [|done].
      exfalso. assert ((count - 1) * step <= i * step)%nat by nia. lia. }
    rewrite IH.
    + replace (count - i)%nat with (S (count - S i)) by lia.
      cbn [seq map]. rewrite <- app_assoc. done.
    + subst step. nia.
    + subst step. nia.
    + right. replace (S i - 1)%nat with i by lia. done.
Qed.

Lemma chunk_text_windows :
  chunk_text init text (Some (Z.of_nat size)) (Some (Z.of_nat ov))
  = Returns (Spec.sliding_windows text size ov).
Proof.
  destruct (decide (text = [])) as [Hnil|Hne].
  - unfold Spec.sliding_windows. rewrite Hnil. reflexivity.
  - assert (Hn : (0 < n)%nat).
    { subst n. destruct text; [done|cbn; lia]. }
    rewrite chunk_text_nonempty by done. cbn zeta. unfold py_or.
    destruct (Z.eqb_spec (Z.of_nat size) 0) as [?|_]; [lia|].
    destruct (Z.eqb_spec (Z.of_nat ov) 0) as [?|_]; [lia|].
    destruct (Z.leb_spec (Z.of_nat size) (Z.of_nat ov)) as [?|_]; [lia|].
    pose proof (chunk_loop_windows n 0 []) as Hloop.
    rewrite Nat.mul_0_l in Hloop. change (Z.of_nat 0) with 0 in Hloop. fold n.
    rewrite Hloop by lia. rewrite Nat.sub_0_r. reflexivity.
Qed.

Lemma windows_prefix (k : nat) :
  window 0 ++ concat (map (fun i => drop ov (window i)) (seq 1 k))
  = take (k * step + size) text.
Proof.
  induction k as [|k IH].
  - cbn [seq map concat]. rewrite app_nil_r. reflexivity.
  - rewrite seq_S, map_app, concat_app, app_assoc, IH.
    cbn [map concat]. rewrite app_nil_r. unfold window.
    rewrite take_drop_commute, drop_drop.
    replace ((1 + k) * step + ov)%nat with (k * step + size)%nat
      by (subst step; lia).
    replace (take (k * step + size) text)
      with (take (k * step + size) (take ((1 + k) * step + size) text)).
    + apply take_drop.
    + rewrite take_take. f_equal. lia.
Qed.

Lemma windows_reconstruct :
  Spec.remove_overlaps ov (Spec.sliding_windows text size ov) = text.
Proof.
  unfold Spec.sliding_windows. fold step n count.
  destruct (decide (text = [])) as [Hnil|Hne].
  - subst count n. rewrite Hnil. reflexivity.
  - assert (Hn : (0 < n)%nat).
    { subst n. destruct text; [done|cbn; lia]. }
    destruct (window_count_bounds Hn) as (Hc1 & Hlast & _).
    replace count with (S (count - 1)) by lia.
    cbn [seq map Spec.remove_overlaps].
    rewrite map_map. fold (window 0).
    change (fun x => drop ov (take size (drop (x * step) text)))
      with (fun i => drop ov (window i)).
    rewrite windows_prefix. apply take_ge. fold n. lia.
Qed.

Lemma window_lookup (i : nat) :
  (i < count)%nat ->
  Spec.sliding_windows text size ov !! i = Some (window i).
Proof.
  intros Hi. unfold Spec.sliding_windows. fold step n count.
  rewrite list_lookup_fmap, lookup_seq_lt by done. reflexivity.
Qed.



Lemma windows_short :
  text <> [] -> (n <= size)%nat -> Spec.sliding_windows text size ov = [text].
Proof.
  intros Hne Hle. unfold Spec.sliding_windows, Spec.window_count. fold n.
  destruct (Nat.eqb_spec n 0) as [Hz|_].
  { subst n. destruct text; [done|discriminate]. }
  destruct (Nat.leb_spec n size) as [_|?]; [|lia].
  cbn [seq map]. rewrite Nat.mul_0_l, drop_0, take_ge by (fold n; lia).
  reflexivity.
Qed.

End Chunker.







(** C10: a zero [chunk_size] or [overlap] is replaced by the default of the
    instance (800, 100), like an omitted one: for every text,
    [chunk_text(text, 800, 0)] is [chunk_text(text, 800, 100)], namely the
    sliding windows of overlap 100, so that the parameters cannot ask for
    chunks without overlap (1500 characters give two chunks of 800, not
    800 and 700). *)
Theorem chunk_text_zero_means_default (text : pystr) (a b : option Z) :
  TextService.chunk_text TextService.init text (Some 0) b
    = TextService.chunk_text TextService.init text (Some 800) b
  /\ TextService.chunk_text TextService.init text a (Some 0)
     = TextService.chunk_text TextService.init text a (Some 100)
  /\ TextService.chunk_text TextService.init text (Some 0) b
     = TextService.chunk_text TextService.init text None b
  /\ TextService.chunk_text TextService.init text a (Some 0)
     = TextService.chunk_text TextService.init text a None
  /\ TextService.chunk_text TextService.init text (Some 800) (Some 0)
     = TextService.chunk_text TextService.init text (Some 800) (Some 100)
  /\ TextService.chunk_text TextService.init text (Some 800) (Some 0)
     = TextService.Returns (Spec.sliding_windows text 800 100)
  /\ TextService.chunk_text TextService.init (replicate 1500 97%N)
       (Some 800) (Some 0)
     = TextService.Returns [replicate 800 97%N; replicate 800 97%N].
Proof.
  assert (H100 : TextService.chunk_text TextService.init text (Some 800) (Some 0)
                 = TextService.chunk_text TextService.init text (Some 800)
                     (Some 100)) by (destruct text; reflexivity).
  split; [destruct text; reflexivity|].
  split; [destruct text; reflexivity|].
  split; [destruct text; reflexivity|].
  split; [destruct text; reflexivity|].
  split; [exact H100|].
  split.
  - rewrite H100.
    apply (chunk_text_windows text 800 100); lia.
  - vm_compute. reflexivity.
Qed.

(** ** The normaliser *)

Module CleanFacts.

Import TextService Invariants.

Lemma blank_is_space c : is_blank c = true -> py_isspace c = true.
Proof.
  unfold is_blank, SP, TAB. intros H.
  apply orb_true_iff in H as [H|H]; apply N.eqb_eq in H; subst; reflexivity.
Qed.

Lemma blank_not_tab c : is_blank c = true -> (c =? TAB)%N = false -> c = SP.
Proof.
  unfold is_blank. intros H Ht. rewrite Ht, orb_false_r in H.
  by apply N.eqb_eq.
Qed.

(** *** Step 1 *)

Lemma sub_disallowed_allowed s : all_allowed (sub_disallowed s).
Proof.
  unfold all_allowed, sub_disallowed. apply Forall_fmap, Forall_true.
  intros c. cbn. destruct (allowed c) eqn:E; [exact E|reflexivity].
Qed.

Lemma sub_disallowed_id s : all_allowed s -> sub_disallowed s = s.
Proof.
  unfold sub_disallowed. induction 1 as [|c r Hc _ IH]; [done|].
  cbn. rewrite Hc. f_equal. exact IH.
Qed.

(** *** Step 2 *)

Lemma collapse_go_allowed b s : all_allowed s -> all_allowed (collapse_go b s).
Proof.
  intros H. revert b. induction H as [|c r Hc _ IH]; intros b; [constructor|].
  cbn. destruct (is_blank c).
  - destruct b; [apply IH|]. constructor; [reflexivity|apply IH].
  - constructor; [exact Hc|apply IH].
Qed.

Lemma collapse_go_true_head s : starts_blank (collapse_go true s) = false.
Proof.
  induction s as [|c r IH]; [done|]. cbn.
  destruct (is_blank c) eqn:E; [exact IH|]. cbn. exact E.
Qed.

Lemma collapse_go_tidy b s : tidy (collapse_go b s) = true.
Proof.
  revert b. induction s as [|c r IH]; intros b; [done|]. cbn.
  destruct (is_blank c) eqn:E.
  - destruct b; [apply IH|]. cbn.
    rewrite collapse_go_true_head, IH. reflexivity.
  - cbn. rewrite E, IH. cbn.
    destruct (N.eqb_spec c TAB) as [->|_]; [discriminate E|reflexivity].
Qed.

Lemma collapse_go_id b s :
  tidy s = true -> (b = true -> starts_blank s = false) ->
  collapse_go b s = s.
Proof.
  revert b. induction s as [|c r IH]; intros b Ht Hb; [done|].
  cbn in Ht. apply andb_true_iff in Ht as [Ht Hr].
  apply andb_true_iff in Ht as [Htab Hdbl].
  apply negb_true_iff in Htab. apply negb_true_iff in Hdbl.
  cbn. destruct (is_blank c) eqn:E.
  - cbn in Hdbl. destruct b; [specialize (Hb eq_refl); cbn in Hb; congruence|].
    rewrite (blank_not_tab c E Htab). f_equal. apply IH; [exact Hr|done].
  - f_equal. apply IH; [exact Hr|discriminate].
Qed.

(** *** Step 3 *)

Lemma squeeze_go_allowed k s : all_allowed s -> all_allowed (squeeze_go k s).
Proof.
  intros H. revert k. induction H as [|c r Hc _ IH]; intros k; [constructor|].
  cbn. destruct k as [|k]; [|apply IH].
  destruct (c =? LF)%N.
  - destruct (nl_extent r); repeat (constructor; [reflexivity|]); apply IH.
  - constructor; [exact Hc|apply IH].
Qed.

Lemma squeeze_go_head s : starts_blank (squeeze_go 0 s) = starts_blank s.
Proof.
  destruct s as [|c r]; [done|]. cbn.
  destruct (N.eqb_spec c LF) as [->|_]; [|done].
  destruct (nl_extent r); reflexivity.
Qed.

Lemma squeeze_go_tidy k s : tidy s = true -> tidy (squeeze_go k s) = true.
Proof.
  revert k. induction s as [|c r IH]; intros k Ht; [done|].
  cbn in Ht. apply andb_true_iff in Ht as [Ht Hr].
  cbn. destruct k as [|k]; [|by apply IH].
  destruct (N.eqb_spec c LF) as [->|_].
  - destruct (nl_extent r); cbn; by apply IH.
  - cbn. rewrite squeeze_go_head, Ht. by apply IH.
Qed.

Lemma nl_extent_head_ok s : head_ok s = true -> nl_extent s = None.
Proof.
  destruct s as [|c r]; [done|]. cbn. intros H.
  apply negb_true_iff in H. rewrite H. reflexivity.
Qed.

Lemma squeeze_go_no_lf l r :
  no_lf l -> squeeze_go 0 (l ++ r) = l ++ squeeze_go 0 r.
Proof.
  induction 1 as [|c l Hc _ IH]; [done|]. cbn.
  destruct (N.eqb_spec c LF) as [?|_]; [done|]. f_equal. exact IH.
Qed.

(** *** Step 4: lines *)

Lemma split_lines_cons s : exists l ls, split_lines s = l :: ls.
Proof.
  induction s as [|c r (l & ls & IH)]; [by eexists _, _|]. cbn.
  destruct (c =? LF)%N; [by eexists _, _|]. rewrite IH. by eexists _, _.
Qed.

Lemma split_lines_first_blank s l ls :
  split_lines s = l :: ls -> starts_blank l = true -> starts_blank s = true.
Proof.
  destruct s as [|c r]; cbn.
  - intros [= <- <-]. done.
  - destruct (c =? LF)%N; [intros [= <- <-]; done|].
    destruct (split_lines_cons r) as (l' & ls' & ->). intros [= <- <-]. done.
Qed.

Lemma split_lines_props s :
  tidy s = true -> all_allowed s ->
  Forall (fun l => tidy l = true /\ all_allowed l /\ no_lf l) (split_lines s).
Proof.
  induction s as [|c r IH]; intros Ht Ha.
  { repeat constructor. }
  cbn in Ht. apply andb_true_iff in Ht as [Ht Hr].
  apply Forall_cons in Ha as [Hc Ha]. specialize (IH Hr Ha).
  cbn. destruct (N.eqb_spec c LF) as [->|Hne].
  { constructor; [|exact IH]. repeat constructor. }
  destruct (split_lines_cons r) as (l & ls & Hsplit).
  rewrite Hsplit in IH |- *.
  apply Forall_cons in IH as [(Hl1 & Hl2 & Hl3) IH].
  constructor; [|exact IH].
  split; [|split; by constructor].
  cbn. rewrite Hl1, andb_true_r.
  apply andb_true_iff in Ht as [Htab Hdbl]. rewrite Htab. cbn.
  destruct (is_blank c); [|done]. cbn in *.
  destruct (starts_blank l) eqn:E; [|done].
  by rewrite (split_lines_first_blank r l ls Hsplit E) in Hdbl.
Qed.

Lemma split_join_lines ls :
  ls <> [] -> Forall no_lf ls -> split_lines (join_lines ls) = ls.
Proof.
  intros Hne H. induction H as [|l ls Hl Hls IH]; [done|clear Hne].
  assert (Hone : forall rest,
            split_lines (l ++ rest)
            = match split_lines rest with
              | l' :: ls' => (l ++ l') :: ls'
              | [] => [l]
              end).
  { intros rest. induction Hl as [|c l Hc _ IHl].
    - cbn. by destruct (split_lines_cons rest) as (? & ? & ->).
    - cbn. destruct (N.eqb_spec c LF) as [?|_]; [done|].
      rewrite IHl. by destruct (split_lines_cons rest) as (? & ? & ->). }
  destruct ls as [|l2 ls].
  - cbn. rewrite <- (app_nil_r l) at 1. rewrite Hone. cbn. by rewrite app_nil_r.
  - change (join_lines (l :: l2 :: ls)) with (l ++ LF :: join_lines (l2 :: ls)).
    rewrite Hone. cbn [split_lines]. rewrite N.eqb_refl, app_nil_r.
    f_equal. by apply IH.
Qed.

(** *** [strip] *)

Lemma lstrip_suffix s : exists a, s = a ++ lstrip s.
Proof.
  induction s as [|c r [a IH]]; [by exists []|]. cbn.
  destruct (py_isspace c); [|by exists []].
  exists (c :: a). cbn. by f_equal.
Qed.

Lemma rstrip_prefix s : exists b, s = rstrip s ++ b.
Proof.
  unfold rstrip. destruct (lstrip_suffix (reverse s)) as [a Ha].
  exists (reverse a).
  rewrite <- reverse_app, <- Ha. by rewrite reverse_involutive.
Qed.

Lemma strip_infix s : exists a b, s = a ++ strip s ++ b.
Proof.
  unfold strip. destruct (lstrip_suffix s) as [a Ha].
  destruct (rstrip_prefix (lstrip s)) as [b Hb].
  exists a, b. by rewrite <- Hb.
Qed.

Lemma lstrip_head_ok s : lstrip s <> [] -> head_ok (lstrip s) = true.
Proof.
  induction s as [|c r IH]; [done|]. cbn.
  destruct (py_isspace c) eqn:E; [exact IH|]. intros _. cbn. by rewrite E.
Qed.

Lemma lstrip_id s : head_ok s = true -> lstrip s = s.
Proof.
  destruct s as [|c r]; [done|]. cbn. intros H.
  apply negb_true_iff in H. by rewrite H.
Qed.

Lemma strip_id s :
  head_ok s = true -> head_ok (reverse s) = true -> strip s = s.
Proof.
  intros H1 H2. unfold strip, rstrip.
  rewrite (lstrip_id s H1), (lstrip_id _ H2). apply reverse_involutive.
Qed.

Lemma head_ok_app a b : head_ok a = true -> head_ok (a ++ b) = true.
Proof. by destruct a. Qed.

Lemma reverse_nil_inv {A} (l : list A) : reverse l = [] -> l = [].
Proof.
  intros H. apply (f_equal reverse) in H.
  by rewrite reverse_involutive in H.
Qed.

Lemma strip_ends s :
  strip s <> [] ->
  head_ok (strip s) = true /\ head_ok (reverse (strip s)) = true.
Proof.
  intros Hne. split.
  - destruct (rstrip_prefix (lstrip s)) as [b Hb]. fold (strip s) in Hb.
    assert (Hl : lstrip s <> []).
    { intros E. apply Hne. unfold strip. by rewrite E. }
    apply lstrip_head_ok in Hl. rewrite Hb in Hl.
    destruct (strip s); [done|exact Hl].
  - unfold strip, rstrip in *. rewrite reverse_involutive.
    apply lstrip_head_ok. intros E. apply Hne. by rewrite E.
Qed.

Lemma nonblank_strip l : nonblank l = true -> strip l <> [].
Proof. unfold nonblank. by destruct (strip l). Qed.

Lemma nonblank_of_good l : good_line l -> nonblank l = true.
Proof.
  intros [H1 H2 _ _ _]. unfold nonblank. rewrite (strip_id l H1 H2).
  by destruct l.
Qed.

(** *** Closure of the invariants under taking a part of a string *)

Lemma tidy_app_r a b : tidy (a ++ b) = true -> tidy b = true.
Proof.
  induction a as [|c a IH]; [done|]. cbn. intros H.
  apply andb_true_iff in H as [_ H]. by apply IH.
Qed.

Lemma starts_blank_app a b :
  a <> [] -> starts_blank (a ++ b) = starts_blank a.
Proof. by destruct a. Qed.

Lemma tidy_app_l a b : tidy (a ++ b) = true -> tidy a = true.
Proof.
  induction a as [|c a IH]; [done|]. cbn. intros H.
  apply andb_true_iff in H as [H Hr]. rewrite (IH Hr), andb_true_r.
  apply andb_true_iff in H as [-> H]. cbn.
  destruct a as [|c' a]; [by rewrite andb_false_r|exact H].
Qed.

Lemma strip_props l :
  tidy l = true /\ all_allowed l /\ no_lf l ->
  tidy (strip l) = true /\ all_allowed (strip l) /\ no_lf (strip l).
Proof.
  destruct (strip_infix l) as (a & b & Hl). revert Hl.
  generalize (strip l). intros m -> (Ht & Ha & Hn).
  split; [|split].
  - by apply tidy_app_r in Ht; apply tidy_app_l in Ht.
  - by apply Forall_app in Ha as [_ Ha]; apply Forall_app in Ha as [Ha _].
  - by apply Forall_app in Hn as [_ Hn]; apply Forall_app in Hn as [Hn _].
Qed.

(** *** Joined lines *)

Lemma tidy_app_lf a b :
  tidy a = true -> tidy b = true -> tidy (a ++ LF :: b) = true.
Proof.
  intros Ha Hb. induction a as [|c a IH]; [cbn; by rewrite Hb|].
  cbn in Ha |- *. apply andb_true_iff in Ha as [Ha Hr].
  rewrite (IH Hr), andb_true_r.
  destruct a as [|c' a]; [|exact Ha].
  apply andb_true_iff in Ha as [-> _]. cbn. by rewrite andb_false_r.
Qed.

Lemma join_lines_cons2 l l2 ls :
  join_lines (l :: l2 :: ls) = l ++ LF :: join_lines (l2 :: ls).
Proof. reflexivity. Qed.

Lemma join_lines_tidy ls :
  Forall good_line ls -> tidy (join_lines ls) = true.
Proof.
  induction 1 as [|l ls Hl Hls IH]; [done|].
  destruct ls as [|l2 ls]; [apply Hl|].
  rewrite join_lines_cons2. apply tidy_app_lf; [apply Hl|exact IH].
Qed.

Lemma join_lines_allowed ls :
  Forall good_line ls -> all_allowed (join_lines ls).
Proof.
  induction 1 as [|l ls Hl Hls IH]; [constructor|].
  destruct ls as [|l2 ls]; [apply Hl|].
  rewrite join_lines_cons2. apply Forall_app. split; [apply Hl|].
  constructor; [reflexivity|exact IH].
Qed.

Lemma join_lines_ends ls :
  ls <> [] -> Forall good_line ls ->
  head_ok (join_lines ls) = true /\ head_ok (reverse (join_lines ls)) = true.
Proof.
  intros Hne H. induction H as [|l ls Hl Hls IH]; [done|clear Hne].
  destruct ls as [|l2 ls]; [split; apply Hl|].
  rewrite join_lines_cons2. split.
  - apply head_ok_app, Hl.
  - rewrite reverse_app, reverse_cons, <- app_assoc.
    apply head_ok_app, IH. done.
Qed.

Lemma squeeze_join_lines ls :
  Forall good_line ls -> squeeze_newlines (join_lines ls) = join_lines ls.
Proof.
  unfold squeeze_newlines.
  induction 1 as [|l ls Hl Hls IH]; [done|].
  destruct ls as [|l2 ls].
  - cbn. rewrite <- (app_nil_r l) at 1.
    rewrite squeeze_go_no_lf by apply Hl. cbn. by rewrite app_nil_r.
  - rewrite join_lines_cons2, squeeze_go_no_lf by apply Hl.
    f_equal. cbn [squeeze_go]. rewrite N.eqb_refl.
    rewrite nl_extent_head_ok by (by apply join_lines_ends).
    f_equal. exact IH.
Qed.

Lemma filter_strip_good ls :
  Forall good_line ls -> map strip (List.filter nonblank ls) = ls.
Proof.
  induction 1 as [|l ls Hl Hls IH]; [done|].
  cbn. rewrite (nonblank_of_good l Hl). cbn.
  rewrite IH, strip_id by apply Hl. done.
Qed.

(** *** The two halves of idempotence *)

Lemma clean_text_good ls :
  Forall good_line ls -> clean_text (join_lines ls) = join_lines ls.
Proof.
  intros H. unfold clean_text.
  destruct (join_lines ls) as [|c r] eqn:E; [done|]. rewrite <- E.
  assert (Hne : ls <> []) by (intros ->; discriminate E).
  rewrite sub_disallowed_id by (by apply join_lines_allowed).
  unfold collapse_blanks.
  rewrite collapse_go_id; [|by apply join_lines_tidy|done].
  rewrite squeeze_join_lines by done.
  rewrite split_join_lines; [|done|].
  - rewrite filter_strip_good by done.
    destruct (join_lines_ends ls Hne H). by apply strip_id.
  - eapply Forall_impl; [exact H|]. intros l Hl. apply Hl.
Qed.

Lemma clean_lines_good s :
  tidy s = true -> all_allowed s ->
  Forall good_line (map strip (List.filter nonblank (split_lines s))).
Proof.
  intros Ht Ha. pose proof (split_lines_props s Ht Ha) as H.
  induction H as [|l ls Hl _ IH]; [constructor|].
  cbn. destruct (nonblank l) eqn:E; [|exact IH].
  cbn. constructor; [|exact IH].
  apply nonblank_strip, strip_ends in E as [E1 E2].
  apply strip_props in Hl as (H1 & H2 & H3).
  by constructor.
Qed.

Lemma clean_text_is_join text :
  exists ls, Forall good_line ls /\ clean_text text = join_lines ls.
Proof.
  destruct text as [|c r]; [by exists []|].
  unfold clean_text.
  set (s := squeeze_newlines (collapse_blanks (sub_disallowed (c :: r)))).
  assert (Ht : tidy s = true) by apply squeeze_go_tidy, collapse_go_tidy.
  assert (Ha : all_allowed s)
    by apply squeeze_go_allowed, collapse_go_allowed, sub_disallowed_allowed.
  pose proof (clean_lines_good s Ht Ha) as Hgood.
  exists (map strip (List.filter nonblank (split_lines s))).
  split; [exact Hgood|].
  destruct (map strip (List.filter nonblank (split_lines s))) as [|l ls] eqn:E;
    [done|].
  destruct (join_lines_ends (l :: ls) ltac:(done) Hgood). by apply strip_id.
Qed.

(** *** No empty line survives *)

Lemma split_lines_double_lf a b :
  exists l ls, split_lines (a ++ LF :: LF :: b) = l :: ls /\ [] ∈ ls.
Proof.
  induction a as [|c a (l & ls & IH & Hin)].
  - cbn. eexists _, _. split; [reflexivity|]. apply list_elem_of_here.
  - cbn. destruct (c =? LF)%N.
    + eexists _, _. split; [reflexivity|]. rewrite IH.
      by apply list_elem_of_further.
    + rewrite IH. by eexists _, _.
Qed.

Lemma clean_text_no_empty_line x a b :
  clean_text x <> a ++ LF :: LF :: b.
Proof.
  destruct (clean_text_is_join x) as (ls & Hls & ->). intros E.
  assert (Hne : ls <> []) by (intros ->; by destruct a).
  assert (Hsplit : split_lines (join_lines ls) = ls).
  { apply split_join_lines; [done|].
    eapply Forall_impl; [exact Hls|]. intros l Hl. apply Hl. }
  destruct (split_lines_double_lf a b) as (l & ls' & Hl & Hin).
  rewrite <- E, Hsplit in Hl. subst ls.
  apply Forall_cons in Hls as [_ Hls].
  rewrite Forall_forall in Hls. by destruct (Hls [] Hin).
Qed.

End CleanFacts.

(** C9: [clean_text] is idempotent. *)
Theorem clean_text_idempotent (x : pystr) :
  TextService.clean_text (TextService.clean_text x) = TextService.clean_text x.
Proof.
  destruct (CleanFacts.clean_text_is_join x) as (ls & Hls & ->).
  by apply CleanFacts.clean_text_good.
Qed.

(** C2: on ["Hola\x00\x01mundo"] the normaliser answers ["Hola mundo"]: each
    control character is replaced by a space (and the run of spaces is then
    collapsed to one), not removed, so the result is not ["Holamundo"]. *)
Theorem clean_text_control_chars_become_space :
  TextService.clean_text (lit "Hola" ++ [0; 1]%N ++ lit "mundo")
    = lit "Hola mundo"
  /\ TextService.clean_text (lit "Hola" ++ [0; 1]%N ++ lit "mundo")
     <> lit "Holamundo".
Proof. split; [reflexivity|discriminate]. Qed.

(** C7: on ["a\n\n\nb"] the normaliser answers ["a\nb"]: the blank line that
    the regular expression left is dropped with the other empty lines, and
    no output of [clean_text] ever holds two line feeds in a row. *)
Theorem clean_text_drops_blank_lines :
  TextService.clean_text (lit "a" ++ [LF; LF; LF] ++ lit "b")
    = lit "a" ++ [LF] ++ lit "b"
  /\ TextService.squeeze_newlines (lit "a" ++ [LF; LF; LF] ++ lit "b")
     = lit "a" ++ [LF; LF] ++ lit "b"
  /\ forall x a b : pystr, TextService.clean_text x <> a ++ LF :: LF :: b.
Proof.
  split; [reflexivity|]. split; [reflexivity|].
  apply CleanFacts.clean_text_no_empty_line.
Qed.

(** ** Date validation *)

Section DateFacts.

Import AIService.

Variable nd_value : N -> option Z.

Local Abbreviation digit := (fun c => is_digit nd_value c = true).

Lemma month_then_hyphen_shape s m r :
  month_then_hyphen nd_value s = Some (m, r) ->
  s = m ++ HYPHEN :: r /\ (1 <= length m <= 2)%nat /\ Forall digit m.
Proof.
  unfold month_then_hyphen.
  destruct s as [|a [|b s]]; try discriminate.
  destruct (is_digit nd_value a) eqn:Ea; [|discriminate].
  destruct (is_digit nd_value b) eqn:Eb; cbn [andb].
  - destruct s as [|c s]; [discriminate|].
    destruct (N.eqb_spec c HYPHEN) as [->|_]; [|discriminate].
    intros [= <- <-]. split; [done|]. split; [cbn; lia|]. by repeat constructor.
  - destruct (N.eqb_spec b HYPHEN) as [->|_]; [|discriminate].
    intros [= <- <-]. split; [done|]. split; [cbn; lia|]. by repeat constructor.
Qed.

Lemma day_digits_shape s d :
  day_digits nd_value s = Some d ->
  (exists post, s = d ++ post) /\ (1 <= length d <= 2)%nat /\ Forall digit d.
Proof.
  unfold day_digits. destruct s as [|a s]; [discriminate|].
  destruct (is_digit nd_value a) eqn:Ea; [|discriminate].
  destruct s as [|b s].
  - intros [= <-]. split; [by exists []|]. split; [cbn; lia|].
    by repeat constructor.
  - destruct (is_digit nd_value b) eqn:Eb; intros [= <-].
    + split; [by exists s|]. split; [cbn; lia|]. by repeat constructor.
    + split; [by exists (b :: s)|]. split; [cbn; lia|]. by repeat constructor.
Qed.

Lemma date_match_at_shape s y m d :
  date_match_at nd_value s = Some (y, m, d) ->
  (exists post, s = y ++ HYPHEN :: m ++ HYPHEN :: d ++ post)
  /\ length y = 4%nat /\ (1 <= length m <= 2)%nat /\ (1 <= length d <= 2)%nat
  /\ Forall digit (y ++ m ++ d).
Proof.
  unfold date_match_at.
  destruct s as [|y1 [|y2 [|y3 [|y4 [|h s]]]]]; try discriminate.
  destruct (is_digit nd_value y1) eqn:E1; [|discriminate].
  destruct (is_digit nd_value y2) eqn:E2; [|discriminate].
  destruct (is_digit nd_value y3) eqn:E3; [|discriminate].
  destruct (is_digit nd_value y4) eqn:E4; [|discriminate].
  destruct (N.eqb_spec h HYPHEN) as [->|_]; [|discriminate]. cbn [andb].
  destruct (month_then_hyphen nd_value s) as [[m' r]|] eqn:Em; [|discriminate].
  destruct (day_digits nd_value r) as [d'|] eqn:Ed; [|discriminate].
  intros [= <- <- <-].
  apply month_then_hyphen_shape in Em as (-> & Hm & Hmd).
  apply day_digits_shape in Ed as ([post ->] & Hd & Hdd).
  split; [by exists post|]. split; [done|]. split; [done|]. split; [done|].
  repeat (constructor; [done|]). by apply Forall_app.
Qed.

Lemma date_search_shape s y m d :
  date_search nd_value s = Some (y, m, d) ->
  (exists pre post, s = pre ++ y ++ HYPHEN :: m ++ HYPHEN :: d ++ post)
  /\ length y = 4%nat /\ (1 <= length m <= 2)%nat /\ (1 <= length d <= 2)%nat
  /\ Forall digit (y ++ m ++ d).
Proof.
  induction s as [|c s IH]; cbn [date_search].
  - by destruct (date_match_at nd_value []) eqn:E.
  - destruct (date_match_at nd_value (c :: s)) as [g|] eqn:E.
    + intros [= ->]. apply date_match_at_shape in E as ([post E] & H).
      split; [|exact H]. by exists [], post.
    + intros H. apply IH in H as ([pre [post ->]] & H).
      split; [|exact H]. by exists (c :: pre), post.
Qed.

End DateFacts.

(** ** What [strftime] writes, read by the pattern *)

Section DateRoundTrip.

Import AIService.

Variable nd_value : N -> option Z.

Lemma digit_value_digit_char v :
  digit_value nd_value (digit_char v) = Some (v mod 10).
Proof.
  unfold digit_value, digit_char.
  pose proof (Z.mod_pos_bound v 10 ltac:(lia)) as Hk.
  set (k := v mod 10) in *.
  destruct (N.leb_spec 48 (Z.to_N (48 + k))); [|lia].
  destruct (N.leb_spec (Z.to_N (48 + k)) 57); [|lia].
  cbn [andb]. f_equal. lia.
Qed.

Lemma is_digit_digit_char v : is_digit nd_value (digit_char v) = true.
Proof. unfold is_digit. by rewrite digit_value_digit_char. Qed.

Lemma is_digit_hyphen : is_digit nd_value HYPHEN = false.
Proof. reflexivity. Qed.

Lemma digit_char_not_hyphen v : (digit_char v =? HYPHEN)%N = false.
Proof.
  unfold digit_char, HYPHEN.
  pose proof (Z.mod_pos_bound v 10 ltac:(lia)).
  apply N.eqb_neq. lia.
Qed.

Lemma int_of_two_digits v :
  0 <= v < 100 ->
  int_of_digits nd_value [digit_char (v / 10); digit_char v] = v.
Proof.
  intros Hv. unfold int_of_digits. cbn [fold_left].
  rewrite !digit_value_digit_char. cbn [default]. unfold id.
  Z.div_mod_to_equations. lia.
Qed.

Lemma int_of_four_digits v :
  0 <= v < 10000 ->
  int_of_digits nd_value
    [digit_char (v / 1000); digit_char (v / 100); digit_char (v / 10);
     digit_char v] = v.
Proof.
  intros Hv. unfold int_of_digits. cbn [fold_left].
  rewrite !digit_value_digit_char. cbn [default]. unfold id.
  Z.div_mod_to_equations. lia.
Qed.

(** From the year 1000 on, [strftime('%Y-%m-%d')] writes [YYYY-MM-DD]. *)
Lemma strftime_ymd_padded y m d :
  1000 <= y -> strftime_ymd y m d = Spec.yyyy_mm_dd y m d.
Proof.
  intros Hy. unfold strftime_ymd, year_digits, Spec.yyyy_mm_dd.
  destruct (Z.ltb_spec y 10); [lia|].
  destruct (Z.ltb_spec y 100); [lia|].
  destruct (Z.ltb_spec y 1000); [lia|]. reflexivity.
Qed.

Lemma date_search_yyyy_mm_dd y m d :
  date_search nd_value (Spec.yyyy_mm_dd y m d)
  = Some ([digit_char (y / 1000); digit_char (y / 100); digit_char (y / 10);
           digit_char y],
          [digit_char (m / 10); digit_char m],
          [digit_char (d / 10); digit_char d]).
Proof.
  unfold Spec.yyyy_mm_dd. cbn [date_search date_match_at].
  rewrite !is_digit_digit_char, N.eqb_refl. cbn [andb].
  cbn [month_then_hyphen]. rewrite !is_digit_digit_char, N.eqb_refl.
  cbn [andb day_digits]. by rewrite !is_digit_digit_char.
Qed.

Lemma real_date_bounds y m d :
  real_date y m d = true -> 0 <= y < 10000 /\ 0 <= m < 100 /\ 0 <= d < 100.
Proof.
  unfold real_date, days_in_month. intros H.
  repeat (apply andb_true_iff in H as [H ?]).
  destruct (m =? 2); [destruct (is_leap y)|];
    [| |destruct (_ || _)]; lia.
Qed.

Lemma validate_yyyy_mm_dd y m d :
  real_date y m d = true ->
  1000 <= y ->
  _validate_date_format nd_value (PyStr (Spec.yyyy_mm_dd y m d))
  = Some (Spec.yyyy_mm_dd y m d).
Proof.
  intros Hreal Hyear.
  destruct (real_date_bounds y m d Hreal) as (Hy & Hm & Hd).
  unfold _validate_date_format.
  change (Spec.yyyy_mm_dd y m d) with
    (digit_char (y / 1000) :: tl (Spec.yyyy_mm_dd y m d)) at 1.
  cbv beta iota.
  change (digit_char (y / 1000) :: tl (Spec.yyyy_mm_dd y m d))
    with (Spec.yyyy_mm_dd y m d).
  rewrite date_search_yyyy_mm_dd.
  rewrite int_of_four_digits, !int_of_two_digits by done.
  by rewrite Hreal, strftime_ymd_padded.
Qed.

Lemma yyyy_mm_dd_is_yyyy_mm_dd y m d :
  Spec.is_yyyy_mm_dd nd_value (Spec.yyyy_mm_dd y m d) = true.
Proof.
  unfold Spec.is_yyyy_mm_dd, Spec.yyyy_mm_dd. cbn [forallb].
  by rewrite !is_digit_digit_char, N.eqb_refl.
Qed.

(** Below the year 1000 the year has fewer than four digits: the pattern,
    which asks for four digits before the first hyphen, occurs nowhere in
    what [strftime('%Y-%m-%d')] writes. *)
Lemma date_search_short_year y m d :
  y < 1000 -> date_search nd_value (strftime_ymd y m d) = None.
Proof.
  intros Hy. unfold strftime_ymd, year_digits.
  destruct (Z.ltb_spec y 10); [|destruct (Z.ltb_spec y 100);
    [|destruct (Z.ltb_spec y 1000); [|lia]]];
    cbn [app];
    repeat (progress (cbn [date_search date_match_at andb];
                      rewrite ?is_digit_digit_char, ?is_digit_hyphen));
    reflexivity.
Qed.

Lemma validate_short_year y m d :
  y < 1000 ->
  _validate_date_format nd_value (PyStr (strftime_ymd y m d)) = None.
Proof.
  intros Hy. unfold _validate_date_format.
  rewrite (date_search_short_year y m d Hy).
  by destruct (strftime_ymd y m d).
Qed.

Lemma short_year_not_yyyy_mm_dd y m d :
  y < 1000 -> Spec.is_yyyy_mm_dd nd_value (strftime_ymd y m d) = false.
Proof.
  intros Hy. unfold strftime_ymd, year_digits.
  destruct (Z.ltb_spec y 10); [|destruct (Z.ltb_spec y 100);
    [|destruct (Z.ltb_spec y 1000); [|lia]]]; reflexivity.
Qed.

End DateRoundTrip.

(** What [_validate_date_format] returns, and on which values. *)
Lemma validate_date_format_inv (nd_value : N -> option Z)
    (v : AIService.pyval) (out : pystr) :
  AIService._validate_date_format nd_value v = Some out ->
  exists s pre y m d post,
    v = AIService.PyStr s
    /\ s = pre ++ y ++ AIService.HYPHEN :: m ++ AIService.HYPHEN :: d ++ post
    /\ length y = 4%nat
    /\ (1 <= length m <= 2)%nat
    /\ (1 <= length d <= 2)%nat
    /\ Forall (fun c => AIService.is_digit nd_value c = true) (y ++ m ++ d)
    /\ AIService.real_date (AIService.int_of_digits nd_value y)
         (AIService.int_of_digits nd_value m)
         (AIService.int_of_digits nd_value d) = true
    /\ out = AIService.strftime_ymd (AIService.int_of_digits nd_value y)
               (AIService.int_of_digits nd_value m)
               (AIService.int_of_digits nd_value d).
Proof.
  unfold AIService._validate_date_format.
  destruct v as [|s|]; try discriminate.
  destruct s as [|c s]; [discriminate|].
  destruct (AIService.date_search nd_value (c :: s)) as [[[y m] d]|] eqn:E;
    [|discriminate].
  destruct (AIService.real_date _ _ _) eqn:Er; [|discriminate].
  intros [= <-].
  apply date_search_shape in E as ([pre [post E]] & Hy & Hm & Hd & Hdig).
  by exists (c :: s), pre, y, m, d, post.
Qed.

(** C8 (as amended): the extracted date is kept only when the value is a
    string in which the pattern of four digits, a hyphen, one or two digits, a
    hyphen and one or two digits occurs with numbers that form a real calendar
    date; every other value becomes absent. For a year from 1000 on, the
    value kept is that date written [YYYY-MM-DD]. ["2024-13-40"] becomes
    absent and ["2024-03-15"] is kept as ["2024-03-15"]. *)
Theorem validate_date_format_shape (nd_value : N -> option Z) :
  AIService._validate_date_format nd_value (AIService.PyStr (lit "2024-13-40"))
    = None
  /\ AIService._validate_date_format nd_value
       (AIService.PyStr (lit "2024-03-15"))
     = Some (lit "2024-03-15")
  /\ forall (v : AIService.pyval) (out : pystr),
       AIService._validate_date_format nd_value v = Some out ->
       exists s pre y m d post,
         v = AIService.PyStr s
         /\ s = pre ++ y ++ AIService.HYPHEN :: m ++ AIService.HYPHEN :: d ++ post
         /\ length y = 4%nat
         /\ (1 <= length m <= 2)%nat
         /\ (1 <= length d <= 2)%nat
         /\ Forall (fun c => AIService.is_digit nd_value c = true) (y ++ m ++ d)
         /\ AIService.real_date (AIService.int_of_digits nd_value y)
              (AIService.int_of_digits nd_value m)
              (AIService.int_of_digits nd_value d) = true
         /\ (1000 <= AIService.int_of_digits nd_value y ->
             out = Spec.yyyy_mm_dd (AIService.int_of_digits nd_value y)
                     (AIService.int_of_digits nd_value m)
                     (AIService.int_of_digits nd_value d)).
Proof.
  split; [reflexivity|]. split; [reflexivity|].
  intros v out H.
  destruct (validate_date_format_inv nd_value v out H)
    as (s & pre & y & m & d & post & Hv & Hs & Hy & Hm & Hd & Hdig & Hreal
        & Hout).
  exists s, pre, y, m, d, post. repeat (split; [assumption|]).
  intros Hyear. by rewrite <- strftime_ymd_padded.
Qed.

Lemma validate_date_format_shape_witness :
  AIService._validate_date_format (fun _ => None)
    (AIService.PyStr (lit "Lima, 2024-3-5.")) = Some (lit "2024-03-05")
  /\ exists s pre y m d post,
       AIService.PyStr (lit "Lima, 2024-3-5.") = AIService.PyStr s
       /\ s = pre ++ y ++ AIService.HYPHEN :: m ++ AIService.HYPHEN :: d ++ post
       /\ length y = 4%nat
       /\ (1 <= length m <= 2)%nat
       /\ (1 <= length d <= 2)%nat
       /\ Forall (fun c => AIService.is_digit (fun _ => None) c = true)
            (y ++ m ++ d)
       /\ AIService.real_date (AIService.int_of_digits (fun _ => None) y)
            (AIService.int_of_digits (fun _ => None) m)
            (AIService.int_of_digits (fun _ => None) d) = true
       /\ (1000 <= AIService.int_of_digits (fun _ => None) y ->
           lit "2024-03-05"
           = Spec.yyyy_mm_dd (AIService.int_of_digits (fun _ => None) y)
               (AIService.int_of_digits (fun _ => None) m)
               (AIService.int_of_digits (fun _ => None) d)).
Proof.
  split; [reflexivity|].
  exact (proj2 (proj2 (validate_date_format_shape (fun _ => None)))
           (AIService.PyStr (lit "Lima, 2024-3-5.")) (lit "2024-03-05")
           eq_refl).
Defined.

(** C8 as stated fails: strings that are not of the form [YYYY-MM-DD] yield
    a date, because the pattern is searched anywhere in the string and takes
    months and days of one digit. *)
Lemma validate_date_format_counterexample :
  (Spec.is_yyyy_mm_dd (fun _ => None) (lit "2024-3-5") = false
   /\ AIService._validate_date_format (fun _ => None)
        (AIService.PyStr (lit "2024-3-5")) = Some (lit "2024-03-05"))
  /\ (Spec.is_yyyy_mm_dd (fun _ => None) (lit "Lima, 2024-03-15.") = false
      /\ AIService._validate_date_format (fun _ => None)
           (AIService.PyStr (lit "Lima, 2024-03-15.")) = Some (lit "2024-03-15"))
  /\ ~ (forall s : pystr,
          Spec.is_yyyy_mm_dd (fun _ => None) s = false ->
          AIService._validate_date_format (fun _ => None) (AIService.PyStr s)
          = None).
Proof.
  split; [split; reflexivity|]. split; [split; reflexivity|].
  intros H. specialize (H (lit "2024-3-5") eq_refl). discriminate H.
Qed.

(** ** The retry policy *)

Lemma failing_job_trace (k : nat) (msg : pystr) :
  let failed := Some {| Tasks.status := Tasks.error;
                        Tasks.error_message := Some msg |} in
  Tasks.failing_job (4 + k) 0 msg
  = [(failed, Tasks.Rescheduled 60); (failed, Tasks.Rescheduled 300);
     (failed, Tasks.Rescheduled 1500); (failed, Tasks.GivenUp)].
Proof. reflexivity. Qed.

(** C5: the delays that a job failing at every execution goes through are
    60 s, 300 s and 1500 s ([60 * 5 ** retries] for [retries] = 0, 1, 2), not
    60 s, 300 s and 900 s; the retry asked for at [retries = 3] is refused,
    and each failed execution leaves the row with [status = error] and the
    message of the exception. *)
Theorem failing_job_retry_delays (k : nat) (msg : pystr) :
  Tasks.countdowns (Tasks.failing_job (4 + k) 0 msg) = [60; 300; 1500]
  /\ Tasks.countdowns (Tasks.failing_job (4 + k) 0 msg) <> [60; 300; 900]
  /\ Tasks.retry_delay 2 = 1500
  /\ length (Tasks.failing_job (4 + k) 0 msg) = 4%nat
  /\ Tasks.on_failure
       (Some {| Tasks.status := Tasks.processing;
                Tasks.error_message := None |}) msg 3
     = (Some {| Tasks.status := Tasks.error;
                Tasks.error_message := Some msg |}, Tasks.GivenUp).
Proof.
  rewrite failing_job_trace.
  split; [reflexivity|]. split; [discriminate|]. done.
Qed.

(** ** Search *)

Section SearchFacts.

Import Search Invariants.

Lemma In_take {A} (x : A) n l : In x (take n l) -> In x l.
Proof.
  revert n. induction l as [|y l IH]; intros [|n]; cbn; try done.
  intros [->|H]; [by left|right; by apply (IH n)].
Qed.

Lemma In_drop {A} (x : A) n l : In x (drop n l) -> In x l.
Proof.
  revert n. induction l as [|y l IH]; intros [|n]; cbn; try done.
  intros H. right. by apply (IH n).
Qed.

Lemma In_py_slice {A} (x : A) l a b : In x (py_slice l a b) -> In x l.
Proof. unfold py_slice. intros H. by apply In_take, In_drop in H. Qed.

Lemma StronglySorted_take {A} (R : A -> A -> Prop) n l :
  StronglySorted R l -> StronglySorted R (take n l).
Proof.
  intros H. revert n. induction H as [|x l H IH Hx]; intros [|n]; cbn;
    try constructor.
  - apply IH.
  - rewrite Forall_forall in Hx |- *. intros y Hy. apply Hx.
    apply list_elem_of_In. apply list_elem_of_In in Hy. by apply In_take in Hy.
Qed.

Lemma StronglySorted_drop {A} (R : A -> A -> Prop) n l :
  StronglySorted R l -> StronglySorted R (drop n l).
Proof.
  intros H. revert n. induction H as [|x l H IH Hx]; intros [|n]; cbn.
  - constructor.
  - constructor.
  - by constructor.
  - apply IH.
Qed.

Lemma StronglySorted_map {A B} (f : A -> B) (R : B -> B -> Prop) l :
  StronglySorted (fun a b => R (f a) (f b)) l -> StronglySorted R (map f l).
Proof.
  induction 1 as [|x l H IH Hx]; cbn; constructor; [done|].
  rewrite Forall_forall in Hx. apply Forall_forall. intros y Hy.
  apply list_elem_of_In, in_map_iff in Hy as (z & <- & Hz).
  apply Hx. by apply list_elem_of_In.
Qed.

(** *** The stable sort *)

Section Sorting.

Context {A : Type} (key : A -> Qc).

Let R (a b : A) : Prop := (key a ≤ key b)%Qc.

Lemma In_insert_by_key x y l :
  In y (insert_by_key key x l) <-> y = x \/ In y l.
Proof.
  induction l as [|z l IH]; cbn; [intuition congruence|].
  case_bool_decide; cbn; [intuition congruence|].
  rewrite IH. intuition congruence.
Qed.

Lemma insert_by_key_sorted x l :
  StronglySorted R l -> StronglySorted R (insert_by_key key x l).
Proof.
  induction 1 as [|z l H IH Hz]; cbn; [repeat constructor|].
  case_bool_decide as Hle.
  - constructor; [by constructor|]. constructor; [exact Hle|].
    eapply Forall_impl; [exact Hz|]. intros w Hw. unfold R in *.
    by eapply Qcle_trans.
  - constructor; [exact IH|]. apply Forall_forall. intros w Hw.
    apply list_elem_of_In, In_insert_by_key in Hw as [->|Hw].
    + unfold R. apply Qclt_le_weak. by apply Qcnot_le_lt.
    + rewrite Forall_forall in Hz. apply Hz. by apply list_elem_of_In.
Qed.

Lemma sorted_by_key_sorted l : StronglySorted R (sorted_by_key key l).
Proof.
  induction l as [|x l IH]; cbn; [constructor|]. by apply insert_by_key_sorted.
Qed.

Lemma In_sorted_by_key y l : In y (sorted_by_key key l) <-> In y l.
Proof.
  induction l as [|x l IH]; cbn; [done|].
  rewrite In_insert_by_key, IH. intuition congruence.
Qed.

End Sorting.

(** *** The map of distances *)

Lemma build_similitud_map_lookup (rows : list row) (m : gmap Z Qc) i d :
  foldl (fun m r => <[r.1 := r.2]> m) m rows !! i = Some d ->
  In (i, d) rows \/ m !! i = Some d.
Proof.
  revert m. induction rows as [|[j e] rows IH]; intros m; cbn; [by right|].
  intros H. apply IH in H as [H|H]; [by left; right|].
  rewrite lookup_insert in H. case_decide as Hij; cbn in *.
  - injection H as <-. subst j. by left; left.
  - by right.
Qed.

Lemma build_similitud_map_is_Some (rows : list row) (m : gmap Z Qc) i :
  In i (map fst rows) \/ is_Some (m !! i) ->
  is_Some (foldl (fun m r => <[r.1 := r.2]> m) m rows !! i).
Proof.
  revert m. induction rows as [|[j e] rows IH]; intros m; cbn.
  { by intros [[]|H]. }
  intros [[->|H]|H]; apply IH.
  - right. rewrite lookup_insert_eq. done.
  - by left.
  - right. rewrite lookup_insert_is_Some. destruct (decide (j = i)); auto.
Qed.

Lemma similitud_of_row (rows : list row) i :
  In i (map fst rows) ->
  In (i, similitud_of (build_similitud_map rows) i) rows.
Proof.
  intros Hi. unfold similitud_of, build_similitud_map.
  destruct (build_similitud_map_is_Some rows ∅ i (or_introl Hi)) as [d Hd].
  rewrite Hd. cbn.
  apply build_similitud_map_lookup in Hd as [Hd|Hd]; [done|].
  by rewrite lookup_empty in Hd.
Qed.

Lemma min_distance_le (rows : list row) i d :
  In (i, d) rows ->
  exists m, Spec.min_distance rows i = Some m /\ (m ≤ d)%Qc.
Proof.
  induction rows as [|[j e] rows IH]; [done|]. cbn.
  intros [[= -> ->]|H].
  - rewrite bool_decide_eq_true_2 by done.
    destruct (Spec.min_distance rows i) as [m|]; [|by eexists].
    eexists. split; [done|]. case_bool_decide; [apply Qcle_refl|].
    apply Qclt_le_weak. by apply Qcnot_le_lt.
  - destruct (IH H) as (m & -> & Hm). case_bool_decide; [|by eexists].
    eexists. split; [done|]. case_bool_decide; [|done].
    by eapply Qcle_trans.
Qed.

(** *** The endpoint *)

Lemma search_from_rows_empty documentos request rows :
  ids_within_threshold rows = [] ->
  search_from_rows documentos request rows = Ok200 (empty_response request).
Proof.
  unfold ids_within_threshold, search_from_rows.
  destruct (map fst rows) as [|i ids]; [done|]. by intros ->.
Qed.

Lemma search_from_rows_page documentos request rows resp :
  search_from_rows documentos request rows = Ok200 resp ->
  resp = empty_response request
  \/ exists a b,
       results resp
       = map (fun d => {| documento := d;
                          relevance_score :=
                            similitud_of (build_similitud_map rows) (id d) |})
           (py_slice
              (sorted_by_key
                 (fun d => similitud_of (build_similitud_map rows) (id d))
                 (List.filter
                    (fun d =>
                       bool_decide (id d ∈ ids_within_threshold rows)
                       && is_completed (status d)
                       && passes_filters (filters request) d)
                    documentos))
              a b).
Proof.
  unfold ids_within_threshold, search_from_rows.
  destruct (map fst rows) as [|i ids]; [intros [= <-]; by left|].
  destruct (List.filter _ (i :: ids)) as [|j js]; [intros [= <-]; by left|].
  destruct (page_size request =? 0); [discriminate|].
  destruct (forallb _ _); [|discriminate].
  intros [= <-]. right. cbn [results]. by eexists _, _.
Qed.

Lemma search_from_rows_sound documentos request rows resp :
  search_from_rows documentos request rows = Ok200 resp ->
  (forall r, In r (results resp) ->
     In (documento r) documentos
     /\ status (documento r) = completed
     /\ In (id (documento r), relevance_score r) rows
     /\ (relevance_score r ≤ SIMILARITY_THRESHOLD)%Qc)
  /\ StronglySorted Qcle (map relevance_score (results resp)).
Proof.
  intros H. apply search_from_rows_page in H as [->|(a & b & ->)].
  { split; [intros r []|constructor]. }
  split.
  - intros r Hr. apply in_map_iff in Hr as (d & <- & Hd). cbn.
    apply In_py_slice, In_sorted_by_key, filter_In in Hd as [Hd Hf].
    apply andb_true_iff in Hf as [Hf _]. apply andb_true_iff in Hf as [Hid Hst].
    apply bool_decide_eq_true_1, list_elem_of_In, filter_In in Hid as [Hid Hle].
    apply bool_decide_eq_true_1 in Hle.
    split; [done|]. split; [by destruct (status d)|].
    split; [by apply similitud_of_row|done].
  - rewrite map_map. cbn.
    apply (StronglySorted_map
             (fun d => similitud_of (build_similitud_map rows) (id d)) Qcle).
    unfold py_slice. apply StronglySorted_take, StronglySorted_drop.
    apply (sorted_by_key_sorted
             (fun d => similitud_of (build_similitud_map rows) (id d))).
Qed.

Lemma ids_within_threshold_nil rows :
  (forall r, In r rows -> (SIMILARITY_THRESHOLD < r.2)%Qc) ->
  ids_within_threshold rows = [].
Proof.
  intros Hall. unfold ids_within_threshold.
  assert (Hids : forall i, In i (map fst rows) ->
            bool_decide (similitud_of (build_similitud_map rows) i
                         ≤ SIMILARITY_THRESHOLD)%Qc = false).
  { intros i Hi. apply bool_decide_eq_false_2.
    apply similitud_of_row, Hall in Hi. cbn in Hi. by apply Qclt_not_le. }
  induction (map fst rows) as [|i ids IH]; [done|]. cbn.
  rewrite Hids by (by left). apply IH. intros j Hj. apply Hids. by right.
Qed.

Section VectorQueryFacts.

Context {vector : Type} (cosine_distance : vector -> vector -> Qc).

Lemma vector_query_fragment fragmentos documentos q i d :
  In (i, d) (vector_query vector cosine_distance fragmentos documentos q) ->
  exists f, In f fragmentos
    /\ documento_id vector f = i
    /\ cosine_distance (embedding vector f) q = d.
Proof.
  unfold vector_query, order_by_similitud. intros H.
  apply In_take, In_sorted_by_key, list_elem_of_In, elem_of_remove_dups,
    list_elem_of_In, in_flat_map in H as (f & Hf & H).
  apply in_map_iff in H as (_ & [= <- <-] & _). by exists f.
Qed.

End VectorQueryFacts.

End SearchFacts.

(** What holds of the threshold and of the order, in terms of the distance
    that the endpoint reports: a document is returned only if one of its
    retrieved rows lies within the threshold 1.0, so every document whose
    least distance exceeds 1.0 is discarded; when every fragment is farther
    than 1.0 the answer is the empty result set with [total = 0]; the
    documents returned are in ascending order of the reported distance; and
    fragments at 0.2, 0.9 and 1.5 of three documents give back the first two
    documents, nearest first. *)
Lemma search_reported_distance_threshold_order {vector : Type}
    (cosine_distance : vector -> vector -> Qc)
    (fragmentos : list (Search.Fragmento vector))
    (documentos : list Search.Documento) (q : vector)
    (request : Search.SearchRequest) :
  let rows := Search.vector_query vector cosine_distance fragmentos documentos q in
  let answer := Search.search_documentos vector cosine_distance fragmentos
                  documentos q request in
  (forall resp, answer = Search.Ok200 resp ->
     (forall r, In r (Search.results resp) ->
        (Search.relevance_score r ≤ Search.SIMILARITY_THRESHOLD)%Qc
        /\ (exists m,
              Spec.min_distance rows (Search.id (Search.documento r)) = Some m
              /\ (m ≤ Search.SIMILARITY_THRESHOLD)%Qc)
        /\ (exists f, In f fragmentos
              /\ Search.documento_id vector f = Search.id (Search.documento r)
              /\ (cosine_distance (Search.embedding vector f) q
                  ≤ Search.SIMILARITY_THRESHOLD)%Qc))
     /\ StronglySorted Qcle (map Search.relevance_score (Search.results resp)))
  /\ ((forall f, In f fragmentos ->
         (Search.SIMILARITY_THRESHOLD
          < cosine_distance (Search.embedding vector f) q)%Qc) ->
      answer = Search.Ok200 (Search.empty_response request)
      /\ Search.results (Search.empty_response request) = []
      /\ Search.total (Search.empty_response request) = 0)
  /\ Search.search_documentos Qc Examples.distance_to_query
       Examples.three_fragments
       [Examples.doc 3; Examples.doc 2; Examples.doc 1] 0%Qc
       Examples.first_page
     = Search.Ok200
         {| Search.results := [Examples.hit 1 1 5; Examples.hit 2 9 10];
            Search.total := 2;
            Search.response_page := 1;
            Search.total_pages := 1 |}.
Proof.
  intros rows answer. split; [|split].
  - intros resp Hresp.
    apply search_from_rows_sound in Hresp as [Hres Hsorted].
    split; [|exact Hsorted].
    intros r Hr. destruct (Hres r Hr) as (_ & _ & Hrow & Hle).
    split; [exact Hle|]. split.
    + destruct (min_distance_le _ _ _ Hrow) as (m & Hm & Hmle).
      exists m. split; [exact Hm|]. by eapply Qcle_trans.
    + apply vector_query_fragment in Hrow as (f & Hf & Hid & Hd).
      exists f. split; [exact Hf|]. split; [exact Hid|]. by rewrite Hd.
  - intros Hfar. split; [|done].
    apply search_from_rows_empty, ids_within_threshold_nil.
    intros [i d] Hrow.
    apply vector_query_fragment in Hrow as (f & Hf & _ & <-). by apply Hfar.
  - vm_compute. reflexivity.
Qed.

(** C4: document 1 has fragments at 0.2 and 1.5 and document 2 one at 0.5.
    The least distance of document 1 is within the threshold, yet only
    document 2 is returned: the threshold is applied to 1.5, the distance of
    the last row of document 1. With fragments at 0.1 and 0.9 for document 1,
    document 2 (0.5) is returned before document 1, whose least distance is
    smaller. With one fragment per document (0.2, 0.9, 1.5) the first two
    documents are returned, nearest first. *)
Theorem search_threshold_uses_last_row_distance :
  (Search.search_documentos Qc Examples.distance_to_query
     Examples.near_and_far_fragments [Examples.doc 1; Examples.doc 2] 0%Qc
     Examples.first_page
   = Search.Ok200
       {| Search.results := [Examples.hit 2 1 2];
          Search.total := 1;
          Search.response_page := 1;
          Search.total_pages := 1 |}
   /\ Spec.min_distance
        (Search.vector_query Qc Examples.distance_to_query
           Examples.near_and_far_fragments [Examples.doc 1; Examples.doc 2]
           0%Qc) 1
      = Some (Q2Qc (Qmake 1 5))
   /\ (Q2Qc (Qmake 1 5) ≤ Search.SIMILARITY_THRESHOLD)%Qc)
  /\ (Search.search_documentos Qc Examples.distance_to_query
        Examples.nearest_and_later_fragments [Examples.doc 1; Examples.doc 2]
        0%Qc Examples.first_page
      = Search.Ok200
          {| Search.results := [Examples.hit 2 1 2; Examples.hit 1 9 10];
             Search.total := 2;
             Search.response_page := 1;
             Search.total_pages := 1 |}
      /\ Spec.min_distance
           (Search.vector_query Qc Examples.distance_to_query
              Examples.nearest_and_later_fragments
              [Examples.doc 1; Examples.doc 2] 0%Qc) 1
         = Some (Q2Qc (Qmake 1 10))
      /\ (Q2Qc (Qmake 1 10) < Q2Qc (Qmake 1 2))%Qc)
  /\ Search.search_documentos Qc Examples.distance_to_query
       Examples.three_fragments
       [Examples.doc 3; Examples.doc 2; Examples.doc 1] 0%Qc
       Examples.first_page
     = Search.Ok200
         {| Search.results := [Examples.hit 1 1 5; Examples.hit 2 9 10];
            Search.total := 2;
            Search.response_page := 1;
            Search.total_pages := 1 |}.
Proof.
  split; [|split].
  - split; [vm_compute; reflexivity|]. split; [vm_compute; reflexivity|].
    by vm_compute.
  - split; [vm_compute; reflexivity|]. split; [vm_compute; reflexivity|].
    by vm_compute.
  - vm_compute. reflexivity.
Qed.

Lemma similitud_of_last_row (rows : list Search.row) (i : Z) (d : Qc) :
  Search.similitud_of (Search.build_similitud_map (rows ++ [(i, d)])) i = d.
Proof.
  unfold Search.similitud_of, Search.build_similitud_map.
  rewrite foldl_app. cbn. by rewrite lookup_insert_eq.
Qed.

(** C1: with two fragments of one document retrieved at distances 0.2 and
    0.9, the score reported for the document is 0.9, the distance of its last
    row in ascending order, while the least distance of its fragments is
    0.2. In general the map of distances holds, for a document, the distance
    of the last of its rows. *)
Theorem search_score_is_last_row_distance :
  Search.search_documentos Qc Examples.distance_to_query
    Examples.two_fragments_one_document [Examples.doc 1] 0%Qc
    Examples.first_page
  = Search.Ok200
      {| Search.results := [Examples.hit 1 9 10];
         Search.total := 1;
         Search.response_page := 1;
         Search.total_pages := 1 |}
  /\ Spec.min_distance
       (Search.vector_query Qc Examples.distance_to_query
          Examples.two_fragments_one_document [Examples.doc 1] 0%Qc) 1
     = Some (Q2Qc (Qmake 1 5))
  /\ Q2Qc (Qmake 9 10) <> Q2Qc (Qmake 1 5)
  /\ forall (rows : list Search.row) (i : Z) (d : Qc),
       Search.similitud_of (Search.build_similitud_map (rows ++ [(i, d)])) i = d.
Proof.
  split; [vm_compute; reflexivity|]. split; [vm_compute; reflexivity|].
  split; [|apply similitud_of_last_row].
  intros H. apply (f_equal this) in H. discriminate H.
Qed.

(** * Further properties of the code *)

(** ** The normaliser: what it keeps and what it returns *)

Module CleanMore.

Import TextService Invariants CleanFacts Pipeline.

(** *** Lengths *)

Lemma collapse_go_length b s : (length (collapse_go b s) <= length s)%nat.
Proof.
  revert b. induction s as [|c r IH]; intros b; [done|]. cbn.
  pose proof (IH true). pose proof (IH false).
  destruct (is_blank c); [destruct b|]; cbn; lia.
Qed.

Lemma nl_extent_bound s m : nl_extent s = Some m -> (1 <= m <= length s)%nat.
Proof.
  revert m. induction s as [|c r IH]; intros m; cbn; [done|].
  destruct (py_isspace c); [|done].
  destruct (nl_extent r) as [k|].
  - intros [= <-]. specialize (IH k eq_refl). lia.
  - destruct (c =? LF)%N; [|done]. intros [= <-]. lia.
Qed.

Lemma squeeze_go_length k s :
  (length (squeeze_go k s) + Nat.min k (length s) <= length s)%nat.
Proof.
  revert k. induction s as [|c r IH]; intros k; [cbn; lia|].
  cbn [squeeze_go]. destruct k as [|k].
  - destruct (c =? LF)%N.
    + destruct (nl_extent r) as [m|] eqn:E.
      * apply nl_extent_bound in E. specialize (IH m). cbn. lia.
      * specialize (IH 0%nat). cbn. lia.
    + specialize (IH 0%nat). cbn. lia.
  - specialize (IH k). cbn. lia.
Qed.

Lemma join_split_lines s : join_lines (split_lines s) = s.
Proof.
  induction s as [|c r IH]; [done|]. cbn [split_lines].
  destruct (split_lines_cons r) as (l & ls & E). rewrite E in IH |- *.
  destruct (N.eqb_spec c LF) as [->|_].
  - change (join_lines ([] :: l :: ls)) with (LF :: join_lines (l :: ls)).
    by rewrite IH.
  - destruct ls as [|l2 ls].
    + cbn in *. by rewrite IH.
    + rewrite join_lines_cons2. rewrite join_lines_cons2 in IH.
      rewrite <- app_comm_cons. by rewrite IH.
Qed.

Lemma strip_length s : (length (strip s) <= length s)%nat.
Proof.
  destruct (strip_infix s) as (a & b & E).
  rewrite E at 2. rewrite !length_app. lia.
Qed.

Lemma join_lines_length l ls :
  length (join_lines (l :: ls))
  = (length l + match ls with [] => 0 | _ => 1 + length (join_lines ls) end)%nat.
Proof. destruct ls; cbn; [lia|]. rewrite length_app. cbn. lia. Qed.

Lemma filter_strip_length ls :
  (length (join_lines (map strip (List.filter nonblank ls)))
   <= length (join_lines ls))%nat.
Proof.
  induction ls as [|l ls IH]; [done|].
  rewrite join_lines_length. cbn [List.filter].
  destruct (nonblank l).
  - cbn [map]. rewrite join_lines_length.
    pose proof (strip_length l).
    destruct (map strip (List.filter nonblank ls)) eqn:E; [lia|].
    destruct ls; [discriminate E|]. lia.
  - destruct ls; [cbn in *; lia|]. lia.
Qed.

Lemma clean_text_length x : (length (clean_text x) <= length x)%nat.
Proof.
  destruct x as [|c r]; [done|]. unfold clean_text.
  set (x := c :: r).
  pose proof (strip_length
    (join_lines (map strip (List.filter nonblank
       (split_lines (squeeze_newlines (collapse_blanks (sub_disallowed x)))))))).
  pose proof (filter_strip_length
    (split_lines (squeeze_newlines (collapse_blanks (sub_disallowed x))))).
  rewrite join_split_lines in *.
  pose proof (squeeze_go_length 0 (collapse_blanks (sub_disallowed x))).
  pose proof (collapse_go_length false (sub_disallowed x)).
  assert (length (sub_disallowed x) = length x) by apply length_map.
  unfold squeeze_newlines, collapse_blanks in *. lia.
Qed.

(** *** The characters that are not whitespace *)

Local Abbreviation keep_ns := (List.filter not_space).

Lemma keep_ns_sub_disallowed x :
  keep_ns (sub_disallowed x) = List.filter visible x.
Proof.
  unfold sub_disallowed.
  induction x as [|c r IH]; [done|]. cbn [map List.filter].
  unfold visible at 1. destruct (allowed c) eqn:Ea; cbn [andb].
  - fold (not_space c). destruct (not_space c); by rewrite IH.
  - change (not_space SP) with false. cbv iota. exact IH.
Qed.

Lemma keep_ns_collapse_go b s : keep_ns (collapse_go b s) = keep_ns s.
Proof.
  revert b. induction s as [|c r IH]; intros b; [done|]. cbn.
  destruct (is_blank c) eqn:E.
  - unfold not_space at 2. rewrite (blank_is_space c E). cbn.
    destruct b; cbn; apply IH.
  - cbn. by rewrite IH.
Qed.

Lemma nl_extent_spaces s m :
  nl_extent s = Some m -> keep_ns (take m s) = [].
Proof.
  revert m. induction s as [|c r IH]; intros m; cbn; [done|].
  destruct (py_isspace c) eqn:E; [|done].
  destruct (nl_extent r) as [k|].
  - intros [= <-]. cbn. unfold not_space at 1. rewrite E. cbn. by apply IH.
  - destruct (c =? LF)%N; [|done]. intros [= <-]. cbn.
    unfold not_space. rewrite E. cbn. by rewrite take_0.
Qed.

Lemma keep_ns_squeeze_go k s :
  keep_ns (take k s) = [] -> keep_ns (squeeze_go k s) = keep_ns s.
Proof.
  revert k. induction s as [|c r IH]; intros k Hk; [done|].
  cbn [squeeze_go]. destruct k as [|k].
  - destruct (N.eqb_spec c LF) as [->|_].
    + destruct (nl_extent r) as [m|] eqn:E; cbn.
      * apply IH. by apply nl_extent_spaces.
      * by apply IH.
    + cbn. destruct (not_space c); [f_equal|]; by apply IH.
  - cbn in Hk |- *. destruct (not_space c); [done|]. by apply IH.
Qed.

Lemma keep_ns_lstrip s : keep_ns (lstrip s) = keep_ns s.
Proof.
  induction s as [|c r IH]; [done|]. cbn.
  destruct (py_isspace c) eqn:E; [|done].
  unfold not_space at 2. rewrite E. exact IH.
Qed.

Lemma keep_ns_reverse s : keep_ns (reverse s) = reverse (keep_ns s).
Proof.
  induction s as [|c r IH]; [done|].
  rewrite reverse_cons, List.filter_app, IH. cbn [List.filter].
  destruct (not_space c); [by rewrite reverse_cons|by rewrite app_nil_r].
Qed.

Lemma keep_ns_strip s : keep_ns (strip s) = keep_ns s.
Proof.
  unfold strip, rstrip.
  rewrite keep_ns_reverse, keep_ns_lstrip, keep_ns_reverse, reverse_involutive.
  apply keep_ns_lstrip.
Qed.

Lemma keep_ns_join_lines ls :
  keep_ns (join_lines ls) = concat (map keep_ns ls).
Proof.
  induction ls as [|l ls IH]; [done|].
  destruct ls as [|l2 ls]; [cbn; by rewrite app_nil_r|].
  rewrite join_lines_cons2, List.filter_app. cbn [List.filter map concat].
  change (not_space LF) with false. cbv iota. by rewrite IH.
Qed.

Lemma keep_ns_filter_strip ls :
  concat (map keep_ns (map strip (List.filter nonblank ls)))
  = concat (map keep_ns ls).
Proof.
  induction ls as [|l ls IH]; [done|]. cbn.
  destruct (nonblank l) eqn:E; cbn.
  - by rewrite keep_ns_strip, IH.
  - rewrite IH, <- (keep_ns_strip l). unfold nonblank in E.
    by destruct (strip l).
Qed.

Lemma clean_text_keeps_visible x :
  keep_ns (clean_text x) = List.filter visible x.
Proof.
  destruct x as [|c r]; [done|]. unfold clean_text.
  rewrite keep_ns_strip, keep_ns_join_lines, keep_ns_filter_strip.
  rewrite <- keep_ns_join_lines, join_split_lines.
  unfold squeeze_newlines, collapse_blanks.
  rewrite keep_ns_squeeze_go by (by rewrite take_0).
  by rewrite keep_ns_collapse_go, keep_ns_sub_disallowed.
Qed.

Lemma clean_text_nil_iff x :
  clean_text x = [] <-> List.filter visible x = [].
Proof.
  rewrite <- clean_text_keeps_visible. split; [by intros ->|].
  destruct (clean_text_is_join x) as (ls & Hls & ->).
  destruct ls as [|l ls]; [done|]. intros H.
  destruct (join_lines_ends (l :: ls) ltac:(done) Hls) as [Hh _].
  destruct (join_lines (l :: ls)) as [|c r]; [done|].
  cbn in Hh, H. unfold not_space in H. by rewrite Hh in H.
Qed.

(** *** The form of the result *)

Lemma tidy_no_double_space s a b : tidy s = true -> s <> a ++ SP :: SP :: b.
Proof.
  intros Ht ->. apply tidy_app_r in Ht. cbn in Ht. discriminate Ht.
Qed.

Lemma tidy_no_tab s : tidy s = true -> Forall (fun c => c <> TAB) s.
Proof.
  induction s as [|c r IH]; [constructor|]. cbn. intros H.
  apply andb_true_iff in H as [H Hr]. apply andb_true_iff in H as [H _].
  constructor; [|by apply IH]. intros ->. done.
Qed.

End CleanMore.

(** X1: [clean_text] only touches whitespace and the characters it does not
    keep: the characters of the result that are not whitespace are, in order,
    the kept characters of the input that are not whitespace. Hence the
    result is empty exactly when the input has no such character. *)
Theorem clean_text_preserves_visible (x : pystr) :
  List.filter Pipeline.not_space (TextService.clean_text x)
    = List.filter Pipeline.visible x
  /\ (TextService.clean_text x = [] <-> List.filter Pipeline.visible x = []).
Proof.
  split; [apply CleanMore.clean_text_keeps_visible|].
  apply CleanMore.clean_text_nil_iff.
Qed.

(** X2: the result of [clean_text] holds only kept characters, no tab, no
    two spaces in a row and no whitespace at either end ([strip] leaves it
    unchanged). *)
Theorem clean_text_result_form (x : pystr) :
  Forall (fun c => TextService.allowed c = true) (TextService.clean_text x)
  /\ Forall (fun c => c <> TAB) (TextService.clean_text x)
  /\ (forall a b, TextService.clean_text x <> a ++ SP :: SP :: b)
  /\ TextService.strip (TextService.clean_text x) = TextService.clean_text x.
Proof.
  destruct (CleanFacts.clean_text_is_join x) as (ls & Hls & ->).
  pose proof (CleanFacts.join_lines_tidy ls Hls) as Ht.
  split; [by apply CleanFacts.join_lines_allowed|].
  split; [by apply CleanMore.tidy_no_tab|].
  split; [intros a b; by apply CleanMore.tidy_no_double_space|].
  destruct ls as [|l ls]; [done|].
  destruct (CleanFacts.join_lines_ends (l :: ls) ltac:(done) Hls).
  by apply CleanFacts.strip_id.
Qed.

(** X3: [clean_text] never returns a text longer than its input. *)
Theorem clean_text_never_longer (x : pystr) :
  (length (TextService.clean_text x) <= length x)%nat.
Proof. apply CleanMore.clean_text_length. Qed.

(** ** The chunker and the pipeline around it *)

Lemma sliding_windows_lengths (text : pystr) (size ov : nat) :
  (0 < ov < size)%nat ->
  forall i c,
    Spec.sliding_windows text size ov !! i = Some c ->
    (1 <= length c <= size)%nat
    /\ ((S i < length (Spec.sliding_windows text size ov))%nat ->
        length c = size).
Proof.
  intros [Hov Hsize] i c Hc.
  assert (Hlen : length (Spec.sliding_windows text size ov)
                 = Spec.window_count (length text) size (size - ov)).
  { unfold Spec.sliding_windows. by rewrite length_map, length_seq. }
  assert (Hi : (i < Spec.window_count (length text) size (size - ov))%nat).
  { rewrite <- Hlen. by eapply lookup_lt_Some. }
  rewrite window_lookup in Hc by done. injection Hc as <-.
  assert (Hn : (0 < length text)%nat).
  { unfold Spec.window_count in Hi.
    destruct (Nat.eqb_spec (length text) 0); lia. }
  destruct (window_count_bounds text size ov Hov Hsize Hn) as (_ & _ & Hbefore).
  rewrite Hlen, length_take, length_drop.
  assert (Hstart : (i * (size - ov) < length text)%nat).
  { destruct i as [|i]; [lia|].
    specialize (Hbefore i ltac:(lia)). cbn. lia. }
  split; [lia|]. intros Hnext. specialize (Hbefore i ltac:(lia)). lia.
Qed.

Lemma sliding_windows_nil (text : pystr) (size ov : nat) :
  Spec.sliding_windows text size ov = [] <-> text = [].
Proof.
  unfold Spec.sliding_windows, Spec.window_count. split.
  - destruct text as [|c r]; [done|]. cbn [length Nat.eqb].
    by destruct (S (length r) <=? size)%nat.
  - by intros ->.
Qed.

(** X4: for [size > overlap >= 1], [chunk_text] returns chunks that are
    never empty and never longer than [size]; every chunk but the last has
    exactly [size] characters; and no chunk is returned only for the empty
    text. *)
Theorem chunk_text_chunk_lengths (text : pystr) (size ov : Z) :
  0 < ov < size ->
  exists chunks,
    TextService.chunk_text TextService.init text (Some size) (Some ov)
      = TextService.Returns chunks
    /\ (forall i c, chunks !! i = Some c ->
          1 <= Z.of_nat (length c) <= size
          /\ ((S i < length chunks)%nat -> Z.of_nat (length c) = size))
    /\ (chunks = [] <-> text = []).
Proof.
  intros [Hov Hsize].
  exists (Spec.sliding_windows text (Z.to_nat size) (Z.to_nat ov)).
  split; [|split].
  - rewrite <- (Z2Nat.id size) at 1 by lia.
    rewrite <- (Z2Nat.id ov) at 1 by lia.
    apply chunk_text_windows; lia.
  - intros i c Hc.
    destruct (sliding_windows_lengths text (Z.to_nat size) (Z.to_nat ov)
                ltac:(lia) i c Hc) as [Hb Hfull].
    split; [lia|]. intros Hi. specialize (Hfull Hi). lia.
  - apply sliding_windows_nil.
Qed.

Lemma chunk_text_chunk_lengths_witness :
  0 < 1 < 4
  /\ exists chunks,
       TextService.chunk_text TextService.init (lit "abcdefghij")
         (Some 4) (Some 1) = TextService.Returns chunks
       /\ (forall i c, chunks !! i = Some c ->
             1 <= Z.of_nat (length c) <= 4
             /\ ((S i < length chunks)%nat -> Z.of_nat (length c) = 4))
       /\ (chunks = [] <-> lit "abcdefghij" = []).
Proof.
  split; [lia|].
  exact (chunk_text_chunk_lengths (lit "abcdefghij") 4 1 ltac:(lia)).
Defined.

Lemma default_windows (text : pystr) :
  TextService.chunk_text TextService.init text None None
  = TextService.Returns (Spec.sliding_windows text 800 100).
Proof. apply (chunk_text_windows text 800 100); lia. Qed.

Lemma explicit_windows (text : pystr) :
  TextService.chunk_text TextService.init text (Some 800) (Some 100)
  = TextService.Returns (Spec.sliding_windows text 800 100).
Proof. apply (chunk_text_windows text 800 100); lia. Qed.

(** X5: [process_text] never raises and is [chunk_text] (with the defaults
    800 and 100) after [clean_text]: its shortcut for short texts changes
    nothing. The fragments are the sliding windows of the cleaned text,
    each of 1 to 800 characters, and removing the overlaps gives the cleaned
    text back. *)
Theorem process_text_is_clean_then_chunk (text : pystr) :
  let cleaned := TextService.clean_text text in
  let fragments := Spec.sliding_windows cleaned 800 100 in
  Pipeline.process_text TextService.init text = TextService.Returns fragments
  /\ Pipeline.process_text TextService.init text
     = TextService.chunk_text TextService.init cleaned None None
  /\ Forall (fun c => (1 <= length c <= 800)%nat) fragments
  /\ Spec.remove_overlaps 100 fragments = cleaned
  /\ (fragments = [] <-> List.filter Pipeline.visible text = []).
Proof.
  intros cleaned fragments.
  assert (Hp : Pipeline.process_text TextService.init text
               = TextService.Returns fragments).
  { unfold Pipeline.process_text. fold cleaned.
    change (TextService.chunk_size TextService.init) with 800.
    destruct (Z.leb_spec (Z.of_nat (length cleaned)) 800) as [Hle|_];
      [|apply default_windows].
    subst fragments. destruct cleaned as [|c r] eqn:E; [done|].
    rewrite (windows_short (c :: r) 800 100); [done|lia|lia|done|lia]. }
  split; [exact Hp|]. split; [by rewrite default_windows|].
  split; [|split].
  - apply Forall_lookup. intros i c Hc.
    by destruct (sliding_windows_lengths cleaned 800 100 ltac:(lia) i c Hc).
  - apply windows_reconstruct; lia.
  - subst fragments cleaned. rewrite sliding_windows_nil.
    apply CleanMore.clean_text_nil_iff.
Qed.

(** X6: in [process_document], the text is rejected ([ValueError]) exactly
    when it has fewer than 10 characters once stripped; otherwise cleaning
    and chunking cannot fail, the chunks are the sliding windows (800, 100)
    of the cleaned text, and there is no chunk at all exactly when the text
    has no kept character that is not whitespace, which the check of the
    length does not exclude. *)
Theorem clean_and_chunk_outcome (raw_text : pystr) :
  (Z.of_nat (length (TextService.strip raw_text)) < 10 ->
   Pipeline.clean_and_chunk raw_text = TextService.RaisesValueError)
  /\ (10 <= Z.of_nat (length (TextService.strip raw_text)) ->
      let cleaned := TextService.clean_text raw_text in
      let chunks := Spec.sliding_windows cleaned 800 100 in
      Pipeline.clean_and_chunk raw_text = TextService.Returns (cleaned, chunks)
      /\ Spec.remove_overlaps 100 chunks = cleaned
      /\ (chunks = [] <-> List.filter Pipeline.visible raw_text = []))
  /\ Pipeline.clean_and_chunk (replicate 12 20320%N)
     = TextService.Returns ([], []).
Proof.
  split; [|split].
  - intros Hshort. unfold Pipeline.clean_and_chunk.
    destruct raw_text as [|c r]; [done|].
    by destruct (Z.ltb_spec (Z.of_nat (length (TextService.strip (c :: r)))) 10);
      [|lia].
  - intros Hlong cleaned chunks. split; [|split].
    + unfold Pipeline.clean_and_chunk.
      destruct raw_text as [|c r]; [cbn in Hlong; lia|].
      destruct (Z.ltb_spec (Z.of_nat (length (TextService.strip (c :: r)))) 10);
        [lia|].
      fold cleaned.
      by rewrite explicit_windows.
    + apply windows_reconstruct; lia.
    + subst chunks cleaned. rewrite sliding_windows_nil.
      apply CleanMore.clean_text_nil_iff.
  - vm_compute. reflexivity.
Qed.

Lemma clean_and_chunk_outcome_witness :
  10 <= Z.of_nat (length (TextService.strip (lit "Oficio 123-UGEL")))
  /\ Pipeline.clean_and_chunk (lit "Oficio 123-UGEL")
     = TextService.Returns (lit "Oficio 123-UGEL", [lit "Oficio 123-UGEL"]).
Proof.
  assert (H : 10 <= Z.of_nat (length (TextService.strip (lit "Oficio 123-UGEL"))))
    by (vm_compute; discriminate).
  split; [exact H|].
  exact (proj1 (proj1 (proj2 (clean_and_chunk_outcome (lit "Oficio 123-UGEL"))) H)).
Defined.

(** ** The validated date, read again *)

(** X7: a date that [_validate_date_format] returns is what
    [strftime('%Y-%m-%d')] writes for a real calendar date. When the year is
    1000 or later, it is written exactly [YYYY-MM-DD] and is accepted
    unchanged when validated again. When the year is below 1000, the year
    is written without its leading zeros: the value returned is not of the
    form [YYYY-MM-DD], and validating it again gives [None]. *)
Theorem validate_date_format_read_again (nd_value : N -> option Z)
    (v : AIService.pyval) (out : pystr) :
  AIService._validate_date_format nd_value v = Some out ->
  exists y m d,
    AIService.real_date y m d = true
    /\ out = AIService.strftime_ymd y m d
    /\ (1000 <= y ->
        Spec.is_yyyy_mm_dd nd_value out = true
        /\ AIService._validate_date_format nd_value (AIService.PyStr out)
           = Some out)
    /\ (y < 1000 ->
        Spec.is_yyyy_mm_dd nd_value out = false
        /\ AIService._validate_date_format nd_value (AIService.PyStr out)
           = None).
Proof.
  intros H.
  destruct (validate_date_format_inv nd_value v out H)
    as (s & pre & y & m & d & post & _ & _ & _ & _ & _ & _ & Hreal & ->).
  eexists _, _, _. split; [exact Hreal|]. split; [reflexivity|]. split.
  - intros Hy. rewrite (strftime_ymd_padded _ _ _ Hy). split.
    + apply yyyy_mm_dd_is_yyyy_mm_dd.
    + by apply validate_yyyy_mm_dd.
  - intros Hy. split.
    + by apply short_year_not_yyyy_mm_dd.
    + by apply validate_short_year.
Qed.

Lemma validate_date_format_read_again_witness :
  AIService._validate_date_format (fun _ => None)
    (AIService.PyStr (lit "0999-01-01")) = Some (lit "999-01-01")
  /\ exists y m d,
       AIService.real_date y m d = true
       /\ lit "999-01-01" = AIService.strftime_ymd y m d
       /\ (1000 <= y ->
           Spec.is_yyyy_mm_dd (fun _ => None) (lit "999-01-01") = true
           /\ AIService._validate_date_format (fun _ => None)
                (AIService.PyStr (lit "999-01-01"))
              = Some (lit "999-01-01"))
       /\ (y < 1000 ->
           Spec.is_yyyy_mm_dd (fun _ => None) (lit "999-01-01") = false
           /\ AIService._validate_date_format (fun _ => None)
                (AIService.PyStr (lit "999-01-01"))
              = None).
Proof.
  assert (H : AIService._validate_date_format (fun _ => None)
                (AIService.PyStr (lit "0999-01-01"))
              = Some (lit "999-01-01")) by reflexivity.
  split; [exact H|].
  exact (validate_date_format_read_again (fun _ => None) _ _ H).
Defined.

(** ** The validation of the metadata *)

Module MetadataFacts.

Import TextService Invariants CleanFacts Metadata.

Lemma varios_allowed : VARIOS ∈ ALLOWED_CATEGORIES.
Proof. apply (bool_decide_unpack _). vm_compute. exact I. Qed.

Lemma validate_category_allowed v : validate_category v ∈ ALLOWED_CATEGORIES.
Proof.
  destruct v as [|[|c s]| |]; try apply varios_allowed. cbn.
  case_bool_decide; [done|apply varios_allowed].
Qed.

Lemma lstrip_nil_iff s :
  lstrip s = [] <-> Forall (fun c => py_isspace c = true) s.
Proof.
  induction s as [|c r IH]; [split; [constructor|done]|]. cbn.
  destruct (py_isspace c) eqn:E.
  - rewrite IH. split; [by constructor|].
    intros H. by apply Forall_cons in H as [_ H].
  - split; [done|]. intros H. apply Forall_cons in H as [H _]. congruence.
Qed.

Lemma strip_nil_iff s :
  strip s = [] <-> Forall (fun c => py_isspace c = true) s.
Proof.
  unfold strip, rstrip. split.
  - intros H. apply reverse_nil_inv, lstrip_nil_iff in H.
    apply lstrip_nil_iff.
    destruct (lstrip s) as [|c r] eqn:E; [done|].
    assert (Hh : head_ok (lstrip s) = true) by (apply lstrip_head_ok; by rewrite E).
    rewrite E in Hh. cbn in Hh.
    apply Forall_reverse, Forall_cons in H as [Hc _]. by rewrite Hc in Hh.
  - intros H. apply lstrip_nil_iff in H. by rewrite H.
Qed.

Lemma lstrip_take_strip n s : lstrip (take n (strip s)) = take n (strip s).
Proof.
  destruct n as [|n]; [done|].
  destruct (strip s) as [|c r] eqn:E; [done|].
  destruct (strip_ends s) as [Hh _]; [by rewrite E|].
  rewrite E in Hh. cbn in Hh |- *. apply negb_true_iff in Hh. by rewrite Hh.
Qed.

Lemma sanitize_text_field_props n value t :
  sanitize_text_field n value = Some t ->
  (length t <= n)%nat /\ lstrip t = t.
Proof.
  destruct value as [|[|c s]| |]; try discriminate. cbn [sanitize_text_field].
  intros [= <-]. split; [rewrite length_take; lia|apply lstrip_take_strip].
Qed.

Lemma clean_entity_props entity e :
  clean_entity entity = Some e ->
  (2 <= length e <= 100)%nat /\ lstrip e = e
  /\ exists s, entity = JStr s /\ e = take 100 (strip s).
Proof.
  destruct entity as [|s| |]; try discriminate. cbn [clean_entity].
  destruct (strip s) as [|c r] eqn:E; [discriminate|]. rewrite <- E.
  destruct (Nat.leb_spec 2 (length (take 100 (strip s)))); [|discriminate].
  intros [= <-]. split; [rewrite length_take in *; lia|].
  split; [apply lstrip_take_strip|by exists s].
Qed.

End MetadataFacts.

(** X8: the category that [validate_category] returns is always one of the
    eight allowed ones: an allowed string is returned unchanged and
    everything else becomes ["Varios"]; so the category of the validated
    metadata always passes the validator of the [DocumentoMetadata]
    schema. *)
Theorem validate_category_closed (nd_value : N -> option Z)
    (metadata : gmap string Metadata.jval) (v : Metadata.jval) :
  Metadata.validate_category v ∈ Metadata.ALLOWED_CATEGORIES
  /\ (forall c, c ∈ Metadata.ALLOWED_CATEGORIES ->
        Metadata.validate_category (Metadata.JStr c) = c)
  /\ (Metadata.validate_category v = Metadata.VARIOS
      \/ exists c, v = Metadata.JStr c /\ c ∈ Metadata.ALLOWED_CATEGORIES
                   /\ Metadata.validate_category v = c)
  /\ Metadata.validate_tipo_documento
       (Some (Metadata.tipo_documento
                (Metadata._validate_and_sanitize_metadata nd_value metadata)))
     = Some (Some (Metadata.tipo_documento
                     (Metadata._validate_and_sanitize_metadata nd_value
                        metadata))).
Proof.
  split; [apply MetadataFacts.validate_category_allowed|]. split; [|split].
  - intros c Hc. destruct c as [|a c].
    + exfalso. revert Hc. apply (bool_decide_eq_false_1 _). by vm_compute.
    + cbn. by rewrite bool_decide_eq_true_2.
  - destruct v as [|[|a s]| |]; try by left.
    cbn. case_bool_decide; [|by left]. right. by exists (a :: s).
  - cbn. by rewrite bool_decide_eq_true_2
      by apply MetadataFacts.validate_category_allowed.
Qed.

(** X9: when [_validate_entities_list] returns a list, it has between 1 and
    10 entries, each of 2 to 100 characters and without leading whitespace,
    and each is the stripped text, cut at 100 characters, of a string of the
    input list; a value that is not a list, or an empty list, gives
    [None]. *)
Theorem validate_entities_list_bounds (entities : Metadata.jval)
    (out : list pystr) :
  Metadata._validate_entities_list entities = Some out ->
  (1 <= length out <= 10)%nat
  /\ Forall (fun e => (2 <= length e <= 100)%nat /\ TextService.lstrip e = e) out
  /\ exists l, entities = Metadata.JList l
       /\ Forall (fun e => exists s, Metadata.JStr s ∈ l
                                     /\ e = take 100 (TextService.strip s)) out.
Proof.
  destruct entities as [| |[|x l]|]; try discriminate.
  cbn [Metadata._validate_entities_list].
  destruct (omap Metadata.clean_entity (x :: l)) as [|e es] eqn:E; [discriminate|].
  intros [= <-].
  assert (Hall : Forall (fun e => (2 <= length e <= 100)%nat
                          /\ TextService.lstrip e = e
                          /\ exists s, Metadata.JStr s ∈ x :: l
                               /\ e = take 100 (TextService.strip s))
                   (take 10 (e :: es))).
  { apply Forall_take. rewrite <- E. apply Forall_forall. intros y Hy.
    apply list_elem_of_omap in Hy as (z & Hz & Hy).
    apply MetadataFacts.clean_entity_props in Hy as (H1 & H2 & s & -> & ->).
    split; [done|]. split; [done|]. by exists s. }
  split; [cbn [take length]; rewrite length_take; lia|].
  split.
  - eapply Forall_impl; [exact Hall|]. by intros y (? & ? & _).
  - exists (x :: l). split; [done|].
    eapply Forall_impl; [exact Hall|]. by intros y (_ & _ & ?).
Qed.

Lemma validate_entities_list_bounds_witness :
  Metadata._validate_entities_list
    (Metadata.JList [Metadata.JStr (lit "  UGEL Ilo "); Metadata.JOther;
                     Metadata.JStr (lit " x "); Metadata.JStr (lit "Ana")])
  = Some [lit "UGEL Ilo"; lit "Ana"]
  /\ (1 <= length [lit "UGEL Ilo"; lit "Ana"] <= 10)%nat.
Proof.
  assert (H : Metadata._validate_entities_list
                (Metadata.JList [Metadata.JStr (lit "  UGEL Ilo ");
                                 Metadata.JOther; Metadata.JStr (lit " x ");
                                 Metadata.JStr (lit "Ana")])
              = Some [lit "UGEL Ilo"; lit "Ana"]) by reflexivity.
  split; [exact H|].
  exact (proj1 (validate_entities_list_bounds _ _ H)).
Defined.

(** X10: in the validated metadata, [tema_principal] has at most 200
    characters and [resumen_corto] at most 500, neither starts with
    whitespace, and each is absent exactly when the value received is not a
    non-empty string; a non-empty string made of whitespace only is thus
    stored as the empty string, not as absent. *)
Theorem sanitized_text_fields (nd_value : N -> option Z)
    (metadata : gmap string Metadata.jval) :
  let v := Metadata._validate_and_sanitize_metadata nd_value metadata in
  (forall t, Metadata.tema_principal v = Some t ->
     (length t <= 200)%nat /\ TextService.lstrip t = t)
  /\ (forall t, Metadata.resumen_corto v = Some t ->
        (length t <= 500)%nat /\ TextService.lstrip t = t)
  /\ (Metadata.tema_principal v = None <->
      forall c s, Metadata.get metadata "tema_principal"
                  <> Metadata.JStr (c :: s))
  /\ (Metadata.resumen_corto v = None <->
      forall c s, Metadata.get metadata "resumen_corto"
                  <> Metadata.JStr (c :: s))
  /\ (forall s, s <> [] ->
        Forall (fun c => TextService.py_isspace c = true) s ->
        Metadata.get metadata "tema_principal" = Metadata.JStr s ->
        Metadata.tema_principal v = Some []).
Proof.
  intros v. subst v. cbn [Metadata._validate_and_sanitize_metadata
    Metadata.tema_principal Metadata.resumen_corto].
  split; [intros t; apply MetadataFacts.sanitize_text_field_props|].
  split; [intros t; apply MetadataFacts.sanitize_text_field_props|].
  assert (Hnone : forall n value,
            Metadata.sanitize_text_field n value = None
            <-> forall c s, value <> Metadata.JStr (c :: s)).
  { intros n value. destruct value as [|[|c s]| |]; cbn; split; try done.
    intros H. by destruct (H c s). }
  split; [apply Hnone|]. split; [apply Hnone|].
  intros s Hne Hws ->. destruct s as [|c s]; [done|].
  cbn [Metadata.sanitize_text_field].
  apply MetadataFacts.strip_nil_iff in Hws. rewrite Hws. by rewrite take_nil.
Qed.

Lemma sanitized_text_fields_witness :
  Metadata.tema_principal
    (Metadata._validate_and_sanitize_metadata (fun _ => None)
       {[ "tema_principal" := Metadata.JStr (lit "   ") ]})
  = Some [].
Proof.
  apply (proj2 (proj2 (proj2 (proj2
           (sanitized_text_fields (fun _ => None)
              {[ "tema_principal" := Metadata.JStr (lit "   ") ]}))))
         (lit "   ")).
  - discriminate.
  - repeat constructor.
  - reflexivity.
Defined.

(** ** The retry loop *)

(** X11: whatever the provider does, the retry loop of [extract_metadata],
    [generate_embedding] and [generate_query_embedding] makes between one
    and three calls and sleeps once between two calls, 2 s after an ordinary
    error and 2 s then 4 s after rate limits, never more than 6 s in all; it
    returns the answer of the first call that succeeds, all earlier calls
    having failed, and otherwise raises the exception of the third call. *)
Theorem with_retries_outcome {A : Type} (call : nat -> Retry.attempt A) :
  let '(sleeps, calls, e) := Retry.with_retries call in
  (1 <= calls <= 3)%nat
  /\ length sleeps = (calls - 1)%nat
  /\ (forall i w, sleeps !! i = Some w ->
        match call i with
        | Retry.ResourceExhausted => w = 2 * 2 ^ Z.of_nat i
        | Retry.OtherError => w = 2
        | Retry.Answer _ => False
        end)
  /\ foldr Z.add 0 sleeps <= 6
  /\ match e with
     | Retry.Returned a => call (calls - 1)%nat = Retry.Answer a
     | Retry.RaisedResourceExhausted =>
         calls = 3%nat /\ call 2%nat = Retry.ResourceExhausted
     | Retry.RaisedOther => calls = 3%nat /\ call 2%nat = Retry.OtherError
     | Retry.RaisedAllRetriesFailed => False
     end.
Proof.
  unfold Retry.with_retries, Retry.max_retries. cbn [Retry.loop].
  destruct (call 0%nat) as [a0| |] eqn:E0; cbn;
    [repeat split; try lia; try done; intros [|i] w; done | |].
  all: destruct (call 1%nat) as [a1| |] eqn:E1; cbn.
  all: try (repeat split; try lia; try done;
            intros [|[|i]] w; cbn; intros [= <-]; by rewrite ?E0, ?E1).
  all: destruct (call 2%nat) as [a2| |] eqn:E2; cbn.
  all: repeat split; try lia; try done;
         intros [|[|[|i]]] w; cbn; try done; intros [= <-];
         by rewrite ?E0, ?E1, ?E2.
Qed.

(** ** More on the search endpoint *)

Section SearchMore.

Import Search Invariants SearchViews.

Lemma py_slice_length {A} (l : list A) (a b : Z) :
  0 <= a <= b ->
  Z.of_nat (length (py_slice l a b))
  = Z.max 0 (Z.min (b - a) (Z.of_nat (length l) - a)).
Proof.
  intros H. unfold py_slice, py_index.
  destruct (Z.ltb_spec a 0); [lia|]. destruct (Z.ltb_spec b 0); [lia|].
  rewrite length_take, length_drop. lia.
Qed.

Lemma py_slice_sublist {A} (l : list A) (a b : Z) :
  py_slice l a b `sublist_of` l.
Proof.
  unfold py_slice. etransitivity; [apply sublist_take|apply sublist_drop].
Qed.

Lemma List_filter_sublist {A} (f : A -> bool) (l : list A) :
  List.filter f l `sublist_of` l.
Proof.
  induction l as [|x l IH]; cbn; [constructor|].
  destruct (f x); by constructor.
Qed.

Lemma map_sublist {A B} (f : A -> B) (l k : list A) :
  l `sublist_of` k -> map f l `sublist_of` map f k.
Proof. induction 1; cbn; by constructor. Qed.



(** The endpoint, case by case. *)
Lemma search_from_rows_unfold documentos request rows :
  search_from_rows documentos request rows
  = match ids_within_threshold rows with
    | [] => Ok200 (empty_response request)
    | _ =>
        let ordenados := documentos_ordenados documentos request rows in
        if page_size request =? 0 then Error500
        else
          let search_results :=
            map (to_result rows)
              (py_slice ordenados ((page request - 1) * page_size request)
                 ((page request - 1) * page_size request + page_size request)) in
          if forallb (fun r => valid_score (relevance_score r)) search_results
          then
            Ok200
              {| results := search_results;
                 total := Z.of_nat (length ordenados);
                 response_page := page request;
                 total_pages :=
                   ceil_div (Z.of_nat (length ordenados)) (page_size request) |}
          else Error500
    end.
Proof.
  unfold search_from_rows, documentos_ordenados, ids_within_threshold.
  destruct (map fst rows) as [|i ids]; [done|].
  by destruct (List.filter _ (i :: ids)).
Qed.

Lemma documentos_ordenados_elem documentos request rows d :
  d ∈ documentos_ordenados documentos request rows ->
  d ∈ documentos
  /\ id d ∈ ids_within_threshold rows
  /\ status d = completed
  /\ passes_filters (filters request) d = true.
Proof.
  unfold documentos_ordenados. intros Hd.
  apply list_elem_of_In, In_sorted_by_key, filter_In in Hd as [Hd Hf].
  apply andb_true_iff in Hf as [Hf Hp]. apply andb_true_iff in Hf as [Hid Hst].
  apply bool_decide_eq_true_1 in Hid.
  split; [by apply list_elem_of_In|]. split; [done|].
  split; [by destruct (status d)|done].
Qed.


Lemma ids_within_threshold_row rows i :
  i ∈ ids_within_threshold rows ->
  In (i, similitud_of (build_similitud_map rows) i) rows
  /\ (similitud_of (build_similitud_map rows) i ≤ SIMILARITY_THRESHOLD)%Qc.
Proof.
  unfold ids_within_threshold. intros Hi.
  apply list_elem_of_In, filter_In in Hi as [Hi Hle].
  apply bool_decide_eq_true_1 in Hle. split; [by apply similitud_of_row|done].
Qed.




End SearchMore.



(** X13: for a request that passed the schema ([page >= 1],
    [page_size >= 1]), the response repeats the page asked for; the page
    holds [min(page_size, total - (page - 1) * page_size)] results, none
    when that is negative; [total_pages] is the least number of pages of
    [page_size] results that hold [total] results; and the page is empty
    exactly when it lies beyond [total_pages]. *)
Theorem search_page_arithmetic {vector : Type}
    (cosine_distance : vector -> vector -> Qc)
    (fragmentos : list (Search.Fragmento vector))
    (documentos : list Search.Documento) (q : vector)
    (request : Search.SearchRequest) (resp : Search.SearchResponse) :
  1 <= Search.page request ->
  1 <= Search.page_size request ->
  Search.search_documentos vector cosine_distance fragmentos documentos q
    request = Search.Ok200 resp ->
  Search.response_page resp = Search.page request
  /\ 0 <= Search.total resp
  /\ Z.of_nat (length (Search.results resp))
     = Z.max 0 (Z.min (Search.page_size request)
                  (Search.total resp
                   - (Search.page request - 1) * Search.page_size request))
  /\ (Search.total_pages resp - 1) * Search.page_size request
     < Search.total resp
     <= Search.total_pages resp * Search.page_size request
  /\ (Search.results resp = [] <-> Search.total_pages resp < Search.page request).
Proof.
  intros Hpage Hsize. unfold Search.search_documentos.
  rewrite search_from_rows_unfold.
  set (rows := Search.vector_query vector cosine_distance fragmentos
                 documentos q).
  assert (Harith : forall n len tp : Z,
            0 <= n ->
            len = Z.max 0 (Z.min (Search.page_size request)
                             (n - (Search.page request - 1)
                                  * Search.page_size request)) ->
            tp = Search.ceil_div n (Search.page_size request) ->
            (tp - 1) * Search.page_size request < n
              <= tp * Search.page_size request
            /\ (len = 0 <-> tp < Search.page request)).
  { intros n len tp Hn -> ->. unfold Search.ceil_div.
    set (ps := Search.page_size request) in *.
    set (p := Search.page request) in *.
    assert (Hdiv : (- (- n / ps) - 1) * ps < n <= - (- n / ps) * ps).
    { pose proof (Z.div_mod (- n) ps ltac:(lia)).
      pose proof (Z.mod_pos_bound (- n) ps ltac:(lia)). nia. }
    split; [lia|]. split; intros H; nia. }
  destruct (Invariants.ids_within_threshold rows) as [|i ids].
  { intros [= <-]. cbn. split; [done|]. split; [done|].
    split; [nia|]. split; [nia|]. split; [lia|done]. }
  cbv zeta. destruct (Z.eqb_spec (Search.page_size request) 0); [lia|].
  destruct (forallb _ _); [|discriminate]. intros [= <-].
  cbn [Search.results Search.total Search.response_page Search.total_pages].
  set (ordenados := SearchViews.documentos_ordenados documentos request rows).
  assert (Hlen : Z.of_nat (length (map (SearchViews.to_result rows)
                    (py_slice ordenados
                       ((Search.page request - 1) * Search.page_size request)
                       ((Search.page request - 1) * Search.page_size request
                        + Search.page_size request))))
                 = Z.max 0 (Z.min (Search.page_size request)
                              (Z.of_nat (length ordenados)
                               - (Search.page request - 1)
                                 * Search.page_size request))).
  { rewrite length_map, py_slice_length by nia. f_equal. f_equal. lia. }
  destruct (Harith (Z.of_nat (length ordenados)) _ _ ltac:(lia) Hlen eq_refl)
    as [Htp Hempty].
  split; [done|]. split; [lia|]. split; [exact Hlen|]. split; [exact Htp|].
  rewrite <- Hempty. split; [by intros ->|].
  intros H0. apply length_zero_iff_nil. lia.
Qed.

Lemma search_page_arithmetic_witness :
  1 <= Search.page SearchViews.oficios_2024
  /\ 1 <= Search.page_size SearchViews.oficios_2024
  /\ Z.of_nat 1 = Z.max 0 (Z.min 10 (1 - (1 - 1) * 10))
  /\ (1 - 1) * 10 < 1 <= 1 * 10.
Proof.
  assert (Hrun : Search.search_documentos Qc Examples.distance_to_query
                   SearchViews.sample_fragmentos SearchViews.sample_documentos
                   0%Qc SearchViews.oficios_2024
                 = Search.Ok200
                     {| Search.results :=
                          [{| Search.documento := SearchViews.oficio 1 2024 3 15;
                              Search.relevance_score := Q2Qc (9 # 10) |}];
                        Search.total := 1;
                        Search.response_page := 1;
                        Search.total_pages := 1 |}).
  { vm_compute. reflexivity. }
  assert (Hp : 1 <= Search.page SearchViews.oficios_2024) by (cbn; lia).
  assert (Hs : 1 <= Search.page_size SearchViews.oficios_2024) by (cbn; lia).
  split; [exact Hp|]. split; [exact Hs|].
  destruct (search_page_arithmetic _ _ _ _ _ _ Hp Hs Hrun)
    as (_ & _ & Hlen & Htp & _).
  split; [exact Hlen|exact Htp].
Defined.

(** X14: when no fragment is at a negative distance from the query and the
    page size is at least 1, the part of the endpoint after the vector
    query always answers 200: every score it reports lies between 0 and the
    threshold 1, so the validation of [SearchResult] (0 to 2) cannot fail
    and the fallback 999 is never reported. *)
Theorem search_always_answers {vector : Type}
    (cosine_distance : vector -> vector -> Qc)
    (fragmentos : list (Search.Fragmento vector))
    (documentos : list Search.Documento) (q : vector)
    (request : Search.SearchRequest) :
  1 <= Search.page_size request ->
  (forall f, In f fragmentos ->
     (0 ≤ cosine_distance (Search.embedding vector f) q)%Qc) ->
  exists resp,
    Search.search_documentos vector cosine_distance fragmentos documentos q
      request = Search.Ok200 resp
    /\ Forall (fun r => (0 ≤ Search.relevance_score r)%Qc
                        /\ (Search.relevance_score r
                            ≤ Search.SIMILARITY_THRESHOLD)%Qc
                        /\ Search.relevance_score r <> Search.NO_SIMILARITY)
         (Search.results resp).
Proof.
  intros Hsize Hpos. unfold Search.search_documentos.
  rewrite search_from_rows_unfold.
  set (rows := Search.vector_query vector cosine_distance fragmentos
                 documentos q).
  destruct (Invariants.ids_within_threshold rows) as [|i ids].
  { eexists. split; [done|]. constructor. }
  cbv zeta. destruct (Z.eqb_spec (Search.page_size request) 0); [lia|].
  set (page_docs := py_slice _ _ _).
  assert (Hall : Forall (fun r => (0 ≤ Search.relevance_score r)%Qc
                          /\ (Search.relevance_score r
                              ≤ Search.SIMILARITY_THRESHOLD)%Qc
                          /\ Search.relevance_score r <> Search.NO_SIMILARITY)
                   (map (SearchViews.to_result rows) page_docs)).
  { apply Forall_forall. intros r Hr.
    apply list_elem_of_In, in_map_iff in Hr as (d & <- & Hd).
    apply list_elem_of_In in Hd.
    apply (fun H => elem_of_sublist _ _ _ H (py_slice_sublist _ _ _)) in Hd.
    apply documentos_ordenados_elem in Hd as (_ & Hid & _).
    apply ids_within_threshold_row in Hid as [Hrow Hle].
    cbn [SearchViews.to_result Search.relevance_score].
    apply vector_query_fragment in Hrow as (f & Hf & _ & Hd).
    split; [rewrite <- Hd; by apply Hpos|]. split; [exact Hle|].
    intros E. rewrite E in Hle. revert Hle. by vm_compute. }
  assert (Hvalid : forallb (fun r => Search.valid_score (Search.relevance_score r))
                     (map (SearchViews.to_result rows) page_docs) = true).
  { apply forallb_forall. intros r Hr.
    apply list_elem_of_In in Hr.
    rewrite Forall_forall in Hall. destruct (Hall r Hr) as (H0 & H1 & _).
    unfold Search.valid_score.
    rewrite !bool_decide_eq_true_2; [done| |done].
    eapply Qcle_trans; [exact H1|]. by vm_compute. }
  rewrite Hvalid. eexists. split; [done|]. exact Hall.
Qed.

Lemma search_always_answers_witness :
  exists resp,
    Search.search_documentos Qc Examples.distance_to_query
      SearchViews.sample_fragmentos SearchViews.sample_documentos 0%Qc
      SearchViews.oficios_2024 = Search.Ok200 resp
    /\ Forall (fun r => (0 ≤ Search.relevance_score r)%Qc
                        /\ (Search.relevance_score r
                            ≤ Search.SIMILARITY_THRESHOLD)%Qc
                        /\ Search.relevance_score r <> Search.NO_SIMILARITY)
         (Search.results resp).
Proof.
  apply (search_always_answers Examples.distance_to_query
           SearchViews.sample_fragmentos SearchViews.sample_documentos 0%Qc
           SearchViews.oficios_2024).
  - cbn. lia.
  - intros f Hf. cbn in Hf.
    destruct Hf as [<-|[<-|[<-|[<-|[]]]]]; by vm_compute.
Defined.

(** ** The audit history *)

Module AuditFacts.

Import Audit.

Lemma insert_desc_Permutation e l : insert_desc e l ≡ₚ e :: l.
Proof.
  induction l as [|x l IH]; cbn; [done|].
  destruct (timestamp x <=? timestamp e); [done|].
  rewrite IH. apply perm_swap.
Qed.

Lemma order_by_timestamp_desc_Permutation l :
  order_by_timestamp_desc l ≡ₚ l.
Proof.
  induction l as [|x l IH]; cbn; [done|].
  rewrite insert_desc_Permutation. by constructor.
Qed.

Lemma insert_desc_sorted e l :
  StronglySorted (fun a b => timestamp b <= timestamp a) l ->
  StronglySorted (fun a b => timestamp b <= timestamp a) (insert_desc e l).
Proof.
  induction 1 as [|x l Hl IH Hx]; cbn; [repeat constructor|].
  destruct (Z.leb_spec (timestamp x) (timestamp e)).
  - constructor; [by constructor|]. constructor; [done|].
    eapply Forall_impl; [exact Hx|]. cbn. intros. lia.
  - constructor; [done|].
    rewrite insert_desc_Permutation. constructor; [lia|done].
Qed.

Lemma order_by_timestamp_desc_sorted l :
  StronglySorted (fun a b => timestamp b <= timestamp a)
    (order_by_timestamp_desc l).
Proof.
  induction l as [|x l IH]; cbn; [constructor|]. by apply insert_desc_sorted.
Qed.

Lemma offset_limit_sublist {A} (offset limit : Z) (l : list A) :
  offset_limit offset limit l `sublist_of` l.
Proof.
  unfold offset_limit. etransitivity; [apply sublist_take|apply sublist_drop].
Qed.

Lemma sublist_StronglySorted {A} (R : A -> A -> Prop) (l k : list A) :
  l `sublist_of` k -> StronglySorted R k -> StronglySorted R l.
Proof.
  induction 1 as [|x l k Hs IH|x l k Hs IH]; intros Hk; [done| |].
  - apply StronglySorted_inv in Hk as [Hk Hx].
    constructor; [by apply IH|].
    rewrite Forall_forall in Hx |- *. intros y Hy. apply Hx.
    by eapply elem_of_sublist.
  - apply StronglySorted_inv in Hk as [Hk _]. by apply IH.
Qed.

(** The arithmetic of a page, for a page number and a page size that are
    at least 1. *)
Lemma paginate_arithmetic (query : list AuditLog) (p ps : Z) :
  1 <= p -> 1 <= ps ->
  let r := paginate query p ps in
  page r = p
  /\ total r = Z.of_nat (length query)
  /\ Z.of_nat (length (entries r))
     = Z.max 0 (Z.min ps (total r - (p - 1) * ps))
  /\ (total_pages r - 1) * ps < total r <= total_pages r * ps
  /\ (entries r = [] <-> total_pages r < p).
Proof.
  intros Hp Hps r. subst r. unfold paginate, offset_limit.
  cbn [page total entries total_pages].
  set (n := Z.of_nat (length query)).
  assert (Hn : 0 <= n) by (subst n; lia).
  assert (Hlen : Z.of_nat (length (take (Z.to_nat ps)
                                     (drop (Z.to_nat ((p - 1) * ps)) query)))
                 = Z.max 0 (Z.min ps (n - (p - 1) * ps))).
  { rewrite length_take, length_drop. subst n. nia. }
  assert (Htp : ((n + ps - 1) / ps - 1) * ps < n <= (n + ps - 1) / ps * ps).
  { pose proof (Z.div_mod (n + ps - 1) ps ltac:(lia)).
    pose proof (Z.mod_pos_bound (n + ps - 1) ps ltac:(lia)). nia. }
  split; [done|]. split; [done|]. split; [exact Hlen|]. split; [exact Htp|].
  rewrite <- length_zero_iff_nil. split; intros H; nia.
Qed.

Lemma paginate_entries (query : list AuditLog) (p ps : Z) :
  entries (paginate query p ps) `sublist_of` query.
Proof. apply offset_limit_sublist. Qed.

(** A filter and its complement split the table. *)
Lemma filter_negb_Permutation {A} (f : A -> bool) (l : list A) :
  l ≡ₚ List.filter f l ++ List.filter (fun x => negb (f x)) l.
Proof.
  induction l as [|x l IH]; cbn [List.filter]; [done|].
  destruct (f x); cbn [negb app].
  - by constructor.
  - rewrite <- Permutation_middle. by constructor.
Qed.

(** What the filters of [get_all_audit_history] ask of an entry. *)
Lemma keeps_iff (upper : pystr -> pystr)
    (action_filter user_filter : option pystr) (date_from date_to : option Z)
    (e : AuditLog) :
  keeps upper action_filter user_filter date_from date_to e = true
  <-> (forall a k, action_filter = Some a -> a <> [] ->
         action_of_string (upper a) = Some k -> action e = k)
      /\ (forall u, user_filter = Some u -> u <> [] -> user_id e = Some u)
      /\ (forall t, date_from = Some t -> t <= timestamp e)
      /\ (forall t, date_to = Some t -> timestamp e <= t).
Proof.
  unfold keeps. rewrite !andb_true_iff. split.
  - intros [[[Hact Huser] Hfrom] Hto]. split; [|split; [|split]].
    + intros a k -> Hne Ek. destruct a as [|c a]; [done|]. rewrite Ek in Hact.
      by destruct (action e), k.
    + intros u -> Hne. destruct u as [|c u]; [done|].
      by apply bool_decide_eq_true_1 in Huser.
    + intros t ->. lia.
    + intros t ->. lia.
  - intros (Hact & Huser & Hfrom & Hto). repeat split.
    + destruct action_filter as [[|c a]|]; [done| |done].
      destruct (action_of_string (upper (c :: a))) as [k|] eqn:Ek; [|done].
      rewrite (Hact (c :: a) k eq_refl ltac:(done) Ek). by destruct k.
    + destruct user_filter as [[|c u]|]; [done| |done].
      apply bool_decide_eq_true_2. by apply Huser.
    + destruct date_from as [t|]; [|done]. apply Z.leb_le. by apply Hfrom.
    + destruct date_to as [t|]; [|done]. apply Z.leb_le. by apply Hto.
Qed.

(** Pages of [k] elements, one after the other, give the list back. *)
Lemma pages_concat {A} (k m : nat) (l : list A) :
  (0 < k)%nat -> (length l <= m * k)%nat ->
  concat (map (fun i => take k (drop (i * k) l)) (seq 0 m)) = l.
Proof.
  intros Hk. revert l. induction m as [|m IH]; intros l Hl.
  - destruct l; [done|cbn in Hl; lia].
  - cbn [seq map concat]. rewrite <- seq_shift, map_map.
    transitivity (take k l ++ drop k l); [|apply take_drop].
    apply (f_equal2 app); [done|].
    etransitivity; [|apply (IH (drop k l)); rewrite length_drop; lia].
    f_equal. apply map_ext. intros i. by rewrite drop_drop.
Qed.

End AuditFacts.

(** X15: [get_document_history] answers for every page and page size, which
    it first brings to [page >= 1] and [1 <= page_size <= 100]: it returns
    only entries of the document asked for, taken from the log, newest
    first; [total] counts all the entries of the document; the page holds
    [min(page_size, total - (page - 1) * page_size)] entries, never more
    than 100; and [total_pages] is the least number of such pages that hold
    [total] entries. *)
Theorem get_document_history_page (audit_log : list Audit.AuditLog)
    (doc_id page page_size : Z) :
  let r := Audit.get_document_history audit_log doc_id page page_size in
  let ps := Z.min 100 (Z.max 1 page_size) in
  Audit.page r = Z.max 1 page
  /\ Forall (fun e => e ∈ audit_log /\ Audit.documento_id e = doc_id)
       (Audit.entries r)
  /\ StronglySorted (fun a b => Audit.timestamp b <= Audit.timestamp a)
       (Audit.entries r)
  /\ Audit.total r
     = Z.of_nat (length (List.filter
                           (fun e => Audit.documento_id e =? doc_id)
                           audit_log))
  /\ Z.of_nat (length (Audit.entries r))
     = Z.max 0 (Z.min ps (Audit.total r - (Audit.page r - 1) * ps))
  /\ (length (Audit.entries r) <= 100)%nat
  /\ (Audit.total_pages r - 1) * ps < Audit.total r
     <= Audit.total_pages r * ps
  /\ (Audit.entries r = [] <-> Audit.total_pages r < Audit.page r).
Proof.
  intros r ps. subst r. unfold Audit.get_document_history. fold ps.
  set (query := Audit.order_by_timestamp_desc _).
  destruct (AuditFacts.paginate_arithmetic query (Z.max 1 page) ps
              ltac:(lia) ltac:(lia)) as (Hp & Ht & Hlen & Htp & Hnil).
  pose proof (AuditFacts.paginate_entries query (Z.max 1 page) ps) as Hsub.
  pose proof (AuditFacts.order_by_timestamp_desc_Permutation
                (List.filter (fun e => Audit.documento_id e =? doc_id)
                   audit_log)) as Hperm.
  fold query in Hperm.
  split; [exact Hp|]. split; [|split; [|split; [|split; [|split; [|split]]]]].
  - apply Forall_forall. intros e He.
    apply (fun H => elem_of_sublist _ _ _ H Hsub) in He.
    rewrite Hperm in He. apply list_elem_of_In, filter_In in He as [He Hid].
    split; [by apply list_elem_of_In|lia].
  - eapply AuditFacts.sublist_StronglySorted; [exact Hsub|].
    apply AuditFacts.order_by_timestamp_desc_sorted.
  - rewrite Ht. by rewrite Hperm.
  - rewrite Hlen, Hp. done.
  - subst ps. lia.
  - exact Htp.
  - rewrite Hp. exact Hnil.
Qed.

(** X16: [get_all_audit_history] pages in the same way. An entry matches
    the filters given when it has the action named (in any case of letters,
    when the name is one of CREATE, UPDATE and DELETE), the user, and a time
    within the two bounds; a filter that is absent or empty asks nothing.
    The entries of the log that match, ordered newest first, are the query:
    [total] is their number, the page returned is the slice of [page_size]
    entries of the query that starts at [(page - 1) * page_size], and
    [total_pages] is the least number of such pages that hold [total]
    entries; no entry of the log that does not match is counted or
    returned. A name of action that is not valid is ignored: the answer is
    the one without filter on the action. *)
Theorem get_all_audit_history_page (upper : pystr -> pystr)
    (audit_log : list Audit.AuditLog) (page page_size : Z)
    (action_filter user_filter : option pystr) (date_from date_to : option Z) :
  let r := Audit.get_all_audit_history upper audit_log page page_size
             action_filter user_filter date_from date_to in
  let ps := Z.min 100 (Z.max 1 page_size) in
  let matches (e : Audit.AuditLog) :=
    (forall a k, action_filter = Some a -> a <> [] ->
       Audit.action_of_string (upper a) = Some k ->
       Audit.action e = k)
    /\ (forall u, user_filter = Some u -> u <> [] ->
          Audit.user_id e = Some u)
    /\ (forall t, date_from = Some t -> t <= Audit.timestamp e)
    /\ (forall t, date_to = Some t -> Audit.timestamp e <= t) in
  Audit.page r = Z.max 1 page
  /\ Forall (fun e => e ∈ audit_log /\ matches e) (Audit.entries r)
  /\ StronglySorted (fun a b => Audit.timestamp b <= Audit.timestamp a)
       (Audit.entries r)
  /\ (exists query rest : list Audit.AuditLog,
        audit_log ≡ₚ query ++ rest
        /\ Forall matches query
        /\ Forall (fun e => ~ matches e) rest
        /\ StronglySorted (fun a b => Audit.timestamp b <= Audit.timestamp a)
             query
        /\ Audit.total r = Z.of_nat (length query)
        /\ Audit.entries r
           = take (Z.to_nat ps)
               (drop (Z.to_nat ((Z.max 1 page - 1) * ps)) query))
  /\ Z.of_nat (length (Audit.entries r))
     = Z.max 0 (Z.min ps (Audit.total r - (Audit.page r - 1) * ps))
  /\ (length (Audit.entries r) <= 100)%nat
  /\ (Audit.total_pages r - 1) * ps < Audit.total r
     <= Audit.total_pages r * ps
  /\ (Audit.entries r = [] <-> Audit.total_pages r < Audit.page r)
  /\ (forall a, action_filter = Some a ->
        Audit.action_of_string (upper a) = None ->
        r = Audit.get_all_audit_history upper audit_log page page_size
              None user_filter date_from date_to).
Proof.
  intros r ps matches. subst r. unfold Audit.get_all_audit_history. fold ps.
  set (f := Audit.keeps upper action_filter user_filter date_from date_to).
  set (query := Audit.order_by_timestamp_desc (List.filter f audit_log)).
  assert (Hf : forall e, f e = true <-> matches e)
    by (intros e; apply AuditFacts.keeps_iff).
  destruct (AuditFacts.paginate_arithmetic query (Z.max 1 page) ps
              ltac:(lia) ltac:(lia)) as (Hp & Ht & Hlen & Htp & Hnil).
  pose proof (AuditFacts.paginate_entries query (Z.max 1 page) ps) as Hsub.
  pose proof (AuditFacts.order_by_timestamp_desc_Permutation
                (List.filter f audit_log)) as Hperm.
  fold query in Hperm.
  split; [exact Hp|].
  split; [|split; [|split; [|split; [|split; [|split; [|split]]]]]].
  - apply Forall_forall. intros e He.
    apply (fun H => elem_of_sublist _ _ _ H Hsub) in He.
    rewrite Hperm in He. apply list_elem_of_In, filter_In in He as [He Hk].
    split; [by apply list_elem_of_In|by apply Hf].
  - eapply AuditFacts.sublist_StronglySorted; [exact Hsub|].
    apply AuditFacts.order_by_timestamp_desc_sorted.
  - exists query, (List.filter (fun e => negb (f e)) audit_log).
    split; [|split; [|split; [|split; [|split]]]].
    + rewrite Hperm. apply AuditFacts.filter_negb_Permutation.
    + apply Forall_forall. intros e He. rewrite Hperm in He.
      apply list_elem_of_In, filter_In in He as [_ Hk]. by apply Hf.
    + apply Forall_forall. intros e He.
      apply list_elem_of_In, filter_In in He as [_ Hk].
      intros Hm. apply Hf in Hm. rewrite Hm in Hk. discriminate Hk.
    + apply AuditFacts.order_by_timestamp_desc_sorted.
    + exact Ht.
    + reflexivity.
  - rewrite Hlen, Hp. done.
  - assert (Z.of_nat (length (Audit.entries
                                (Audit.paginate query (Z.max 1 page) ps)))
            <= 100); [|lia].
    rewrite Hlen. subst ps. lia.
  - exact Htp.
  - rewrite Hp. exact Hnil.
  - intros a -> Ea. subst query. do 2 f_equal.
    apply filter_ext. intros e. subst f. unfold Audit.keeps.
    destruct a as [|c a]; [done|]. by rewrite Ea.
Qed.

(** X17: paging through the history of a document with one page size,
    from page 1 to [total_pages], gives every entry of the document exactly
    once, newest first. *)
Theorem get_document_history_pages_cover (audit_log : list Audit.AuditLog)
    (doc_id page_size : Z) :
  let pages :=
    Z.to_nat (Audit.total_pages
                (Audit.get_document_history audit_log doc_id 1 page_size)) in
  let all :=
    concat (map (fun p => Audit.entries
                            (Audit.get_document_history audit_log doc_id
                               (Z.of_nat p) page_size))
              (seq 1 pages)) in
  all ≡ₚ List.filter (fun e => Audit.documento_id e =? doc_id) audit_log
  /\ StronglySorted (fun a b => Audit.timestamp b <= Audit.timestamp a) all.
Proof.
  intros pages all.
  set (ps := Z.min 100 (Z.max 1 page_size)).
  set (query := Audit.order_by_timestamp_desc
                  (List.filter (fun e => Audit.documento_id e =? doc_id)
                     audit_log)).
  assert (Hps : 1 <= ps <= 100) by (subst ps; lia).
  assert (Hall : all = query).
  { subst all. rewrite <- seq_shift, map_map.
    rewrite <- (AuditFacts.pages_concat (Z.to_nat ps) pages query);
      [|lia|].
    - f_equal. apply map_ext. intros i.
      unfold Audit.get_document_history, Audit.paginate, Audit.offset_limit.
      cbn [Audit.entries]. fold ps. fold query. do 2 f_equal.
      replace (Z.max 1 (Z.of_nat (S i)) - 1) with (Z.of_nat i) by lia.
      rewrite Z2Nat.inj_mul by lia. by rewrite Nat2Z.id.
    - destruct (AuditFacts.paginate_arithmetic query 1 ps ltac:(lia) ltac:(lia))
        as (_ & Ht & _ & Htp & _).
      subst pages. unfold Audit.get_document_history.
      change (Z.max 1 1) with 1. fold ps. fold query. nia. }
  rewrite Hall. split.
  - apply AuditFacts.order_by_timestamp_desc_Permutation.
  - apply AuditFacts.order_by_timestamp_desc_sorted.
Qed.

(** ** The database *)

Module StoreFacts.

Import Store.

Lemma elem_of_List_filter {A} (f : A -> bool) (l : list A) (x : A) :
  x ∈ List.filter f l <-> x ∈ l /\ f x = true.
Proof. by rewrite !list_elem_of_In, filter_In. Qed.

Lemma elem_of_map {A B} (f : A -> B) (l : list A) (y : B) :
  y ∈ map f l <-> exists x, y = f x /\ x ∈ l.
Proof. exact (list_elem_of_fmap f l y). Qed.

Lemma find_by_id_None (docs : list Documento) (doc_id : Z) :
  list_find (fun d => id d = doc_id) docs = None <-> doc_id ∉ map id docs.
Proof.
  rewrite list_find_None, Forall_forall, elem_of_map. split.
  - intros H (d & -> & Hd). by apply (H d).
  - intros H d Hd E. apply H. by exists d.
Qed.

Lemma find_by_id_Some (docs : list Documento) (doc_id : Z) i d :
  list_find (fun d => id d = doc_id) docs = Some (i, d) ->
  docs !! i = Some d /\ id d = doc_id /\ doc_id ∈ map id docs.
Proof.
  intros (Hi & Hid & _)%list_find_Some. split; [done|]. split; [done|].
  apply elem_of_map. exists d. split; [done|]. by eapply list_elem_of_lookup_2.
Qed.

Lemma elem_of_insert_inv {A} (l : list A) (i : nat) (x y : A) :
  y ∈ <[i:=x]> l -> y = x \/ y ∈ l.
Proof.
  intros (j & Hj)%list_elem_of_lookup.
  apply list_lookup_insert_Some in Hj as [(_ & -> & _)|[_ Hj]]; [by left|].
  right. by eapply list_elem_of_lookup_2.
Qed.

Lemma elem_of_insert_other {A} (l : list A) (i j : nat) (x y : A) :
  l !! j = Some y -> i <> j -> y ∈ <[i:=x]> l.
Proof.
  intros Hj Hne. apply list_elem_of_lookup. exists j.
  by rewrite list_lookup_insert_ne.
Qed.

Lemma map_id_insert (docs : list Documento) i d d' :
  docs !! i = Some d -> id d' = id d ->
  map id (<[i:=d']> docs) = map id docs.
Proof.
  intros Hi Hid. change (id <$> <[i:=d']> docs = id <$> docs).
  rewrite list_fmap_insert, Hid. apply list_insert_id.
  by rewrite list_lookup_fmap, Hi.
Qed.

Lemma add_fragments_refs generated doc_id idx chunks f :
  f ∈ (add_fragments generated doc_id idx chunks).1 -> documento_id f = doc_id.
Proof.
  revert idx. induction chunks as [|c r IH]; intros idx; cbn; [by intros ?%elem_of_nil|].
  destruct (generated idx); [|by intros ?%elem_of_nil].
  destruct (add_fragments generated doc_id (S idx) r) as [added ok] eqn:E.
  cbn. intros [->|Hf]%elem_of_cons; [done|].
  apply (IH (S idx)). by rewrite E.
Qed.


Lemma validate_tipo_documento_allowed v v' :
  validate_tipo_documento v = Some v' ->
  v' = None \/ exists c, v' = Some c /\ c ∈ Metadata.ALLOWED_CATEGORIES.
Proof.
  destruct v as [[|a c]|]; cbn; try (intros [= <-]; by left).
  case_bool_decide; [|done]. intros [= <-]. right. by eexists.
Qed.

Lemma metadata_validate_tipo_documento_allowed v v' :
  Metadata.validate_tipo_documento v = Some v' ->
  v' = None \/ exists c, v' = Some c /\ c ∈ Metadata.ALLOWED_CATEGORIES.
Proof.
  destruct v as [c|]; cbn; [|intros [= <-]; by left].
  case_bool_decide; [|done]. intros [= <-]. right. by eexists.
Qed.

Lemma validate_update_tipo body update_data :
  validate_update body = Some update_data ->
  set_tipo_documento update_data = None
  \/ set_tipo_documento update_data = Some None
  \/ exists c, set_tipo_documento update_data = Some (Some c)
               /\ c ∈ Metadata.ALLOWED_CATEGORIES.
Proof.
  unfold validate_update.
  destruct (set_tipo_documento body) as [v|]; cbn.
  - destruct (validate_tipo_documento v) as [v'|] eqn:E; cbn; [|done].
    intros [= <-]. cbn.
    apply validate_tipo_documento_allowed in E as [->|(c & -> & Hc)];
      [by right; left|]. right. right. by exists c.
  - intros [= <-]. by left.
Qed.

Lemma consistent_empty : consistent empty.
Proof.
  split; cbn.
  - constructor.
  - by intros f ?%elem_of_nil.
  - by intros e ?%elem_of_nil.
  - by intros d ?%elem_of_nil.
  - done.
  - by intros e ?%elem_of_nil.
Qed.

Lemma map_filter_comm {A B} (f : A -> B) (p : B -> bool) (l : list A) :
  map f (List.filter (fun x => p (f x)) l) = List.filter p (map f l).
Proof.
  induction l as [|x l IH]; [done|]. cbn.
  destruct (p (f x)); cbn; by rewrite IH.
Qed.

Lemma filter_filter_comm {A} (p q : A -> bool) (l : list A) :
  List.filter p (List.filter q l) = List.filter q (List.filter p l).
Proof.
  induction l as [|x l IH]; [done|]. cbn.
  destruct (p x) eqn:Ep, (q x) eqn:Eq; cbn; rewrite ?Ep, ?Eq, IH; done.
Qed.

Lemma completed_ids_insert (docs : list Documento) i d d' :
  docs !! i = Some d -> id d' = id d -> status d' = status d ->
  map id (List.filter (fun d => Search.is_completed (status d))
            (<[i:=d']> docs))
  = map id (List.filter (fun d => Search.is_completed (status d)) docs).
Proof.
  revert i. induction docs as [|x docs IH]; intros i Hi Hid Hst; [done|].
  destruct i as [|i]; cbn in Hi.
  - injection Hi as ->. change (<[0%nat:=d']> (d :: docs)) with (d' :: docs).
    cbn [List.filter]. rewrite Hst.
    destruct (Search.is_completed (status d)); cbn [map]; by rewrite ?Hid.
  - change (<[S i:=d']> (x :: docs)) with (x :: <[i:=d']> docs).
    cbn [List.filter].
    destruct (Search.is_completed (status x)); cbn [map]; by rewrite (IH i).
Qed.

Lemma consistent_store s new_id now utcnow file metadata chunks generated msg :
  consistent s -> new_id ∉ map id (documentos s) ->
  consistent (store_document s new_id now utcnow file metadata chunks
                generated msg).2.
Proof.
  intros [Hnd Hfr Hau Htipo Hcr Hsys] Hfresh. unfold store_document.
  destruct (Metadata.validate_tipo_documento _) as [tipo|] eqn:Et; [|done].
  pose proof (add_fragments_refs generated new_id 0 chunks) as Hadded.
  destruct (add_fragments generated new_id 0 chunks) as [added ok].
  cbn [fst] in Hadded.
  apply metadata_validate_tipo_documento_allowed in Et.
  assert (Hids : forall d : Documento, id d = new_id ->
            NoDup (map id (documentos s ++ [d]))).
  { intros d Hd. rewrite map_app. apply NoDup_app. split; [done|].
    split; [|cbn; apply NoDup_singleton].
    cbn. intros i Hi ->%list_elem_of_singleton. apply Hfresh. by rewrite <- Hd. }
  assert (Hrefs : forall (d : Documento) f, id d = new_id ->
            f ∈ fragmentos s ++ added ->
            documento_id f ∈ map id (documentos s ++ [d])).
  { intros d f Hd [Hf|Hf]%elem_of_app; rewrite map_app, elem_of_app.
    - left. by apply Hfr.
    - right. cbn. rewrite (Hadded f Hf), Hd. apply list_elem_of_singleton. done. }
  destruct ok; split; cbn [snd documentos fragmentos audit_log].
  - by apply Hids.
  - intros f Hf. by apply Hrefs.
  - intros e [He|Hone%list_elem_of_singleton]%elem_of_app.
    + destruct (Hau e He) as (Hact & d & Hd & Hid & Hst).
      split; [done|]. exists d. rewrite elem_of_app. by split; [left|].
    + subst e. split; [done|]. eexists. rewrite elem_of_app.
      split; [right; by apply list_elem_of_singleton|]. done.
  - intros d [Hd|Hone%list_elem_of_singleton]%elem_of_app; [by apply Htipo|].
    subst d. exact Et.
  - rewrite !List.filter_app, !map_app, Hcr. done.
  - intros e [He|Hone%list_elem_of_singleton]%elem_of_app; [by apply Hsys|].
    by subst e.
  - by apply Hids.
  - intros f Hf. by apply Hrefs.
  - intros e He. destruct (Hau e He) as (Hact & d & Hd & Hid & Hst).
    split; [done|]. exists d. rewrite elem_of_app. by split; [left|].
  - intros d [Hd|Hone%list_elem_of_singleton]%elem_of_app; [by apply Htipo|].
    subst d. exact Et.
  - rewrite List.filter_app, map_app, Hcr. cbn. by rewrite app_nil_r.
  - exact Hsys.
Qed.

Lemma consistent_update s doc_id body now :
  consistent s -> consistent (update_documento s doc_id body now).2.
Proof.
  intros [Hnd Hfr Hau Htipo Hcr Hsys]. unfold update_documento.
  destruct (validate_update body) as [update_data|] eqn:Ev; [|done].
  destruct (list_find _ (documentos s)) as [[i documento]|] eqn:Ef; [|done].
  apply list_find_Some in Ef as (Hi & [Hid Hst] & _).
  assert (Hmap : map id (<[i:=apply_update update_data documento now]>
                           (documentos s)) = map id (documentos s))
    by (by eapply map_id_insert).
  assert (Hkeep : forall d, d ∈ documentos s ->
            exists d', d' ∈ <[i:=apply_update update_data documento now]>
                              (documentos s)
                       /\ id d' = id d /\ status d' = status d).
  { intros d (j & Hj)%list_elem_of_lookup.
    destruct (decide (i = j)) as [<-|Hne].
    - rewrite Hi in Hj. injection Hj as <-.
      exists (apply_update update_data documento now). split; [|done].
      apply list_elem_of_insert. by eapply lookup_lt_Some.
    - exists d. split; [by eapply elem_of_insert_other|done]. }
  split; cbn [snd documentos fragmentos audit_log].
  - by rewrite Hmap.
  - intros f Hf. rewrite Hmap. by apply Hfr.
  - intros e [He|Hone%list_elem_of_singleton]%elem_of_app.
    + destruct (Hau e He) as (Hact & d & Hd & Hde & Hs).
      split; [done|]. destruct (Hkeep d Hd) as (d' & Hd' & Hid' & Hst').
      exists d'. split; [done|]. split; congruence.
    + subst e. split; [done|]. cbn.
      destruct (Hkeep documento) as (d' & Hd' & Hid' & Hst');
        [by eapply list_elem_of_lookup_2|].
      exists d'. split; [done|]. split; [done|]. rewrite Hst'.
      by destruct (status documento).
  - intros d [->|Hd]%elem_of_insert_inv; [|by apply Htipo].
    cbn [apply_update tipo_documento].
    destruct (validate_update_tipo _ _ Ev) as [->|[->|(c & -> & Hc)]]; cbn.
    + apply Htipo. by eapply list_elem_of_lookup_2.
    + by left.
    + right. by exists c.
  - rewrite List.filter_app, map_app. cbn. rewrite app_nil_r, Hcr.
    symmetry. by eapply completed_ids_insert.
  - intros e [He|Hone%list_elem_of_singleton]%elem_of_app; [by apply Hsys|].
    by subst e.
Qed.

Lemma consistent_delete_cascade s doc_id :
  NoDup (map id (documentos s)) ->
  (forall f, f ∈ fragmentos s -> documento_id f ∈ map id (documentos s)) ->
  (forall e, e ∈ audit_log s -> Audit.documento_id e <> doc_id ->
     Audit.action e <> Audit.DELETE
     /\ exists d, d ∈ documentos s /\ id d = Audit.documento_id e
                  /\ status d = Search.completed) ->
  (forall d, d ∈ documentos s ->
     tipo_documento d = None
     \/ exists c, tipo_documento d = Some c /\ c ∈ Metadata.ALLOWED_CATEGORIES) ->
  map Audit.documento_id
    (List.filter (fun e => Audit.action_eqb (Audit.action e) Audit.CREATE)
       (audit_log s))
  = map id (List.filter (fun d => Search.is_completed (status d))
              (documentos s)) ->
  (forall e, e ∈ audit_log s -> Audit.documento_id e <> doc_id ->
     Audit.user_id e = Some Audit.SYSTEM) ->
  consistent (delete_cascade s doc_id).
Proof.
  intros Hnd Hfr Hau Htipo Hcr Hsys.
  assert (Hin : forall i, i ∈ map id (documentos s) -> i <> doc_id ->
            i ∈ map id (List.filter (fun d => negb (id d =? doc_id))
                          (documentos s))).
  { intros i (d & -> & Hd)%elem_of_map Hne. apply elem_of_map. exists d.
    split; [done|]. apply elem_of_List_filter. split; [done|].
    apply negb_true_iff, Z.eqb_neq. done. }
  split; cbn [delete_cascade documentos fragmentos audit_log].
  - eapply sublist_NoDup; [exact Hnd|]. apply map_sublist, List_filter_sublist.
  - intros f [Hf Hne]%elem_of_List_filter.
    apply negb_true_iff, Z.eqb_neq in Hne. by apply Hin; [apply Hfr|].
  - intros e [He Hne]%elem_of_List_filter.
    apply negb_true_iff, Z.eqb_neq in Hne.
    destruct (Hau e He Hne) as (Hact & d & Hd & Hid & Hst).
    split; [done|]. exists d. split; [|done].
    apply elem_of_List_filter. split; [done|].
    apply negb_true_iff, Z.eqb_neq. congruence.
  - intros d [Hd _]%elem_of_List_filter. by apply Htipo.
  - rewrite (filter_filter_comm _
               (fun e => negb (Audit.documento_id e =? doc_id))).
    rewrite (filter_filter_comm _ (fun d => negb (id d =? doc_id))).
    rewrite (map_filter_comm Audit.documento_id (fun i => negb (i =? doc_id))).
    rewrite (map_filter_comm id (fun i => negb (i =? doc_id))).
    by rewrite Hcr.
  - intros e [He Hne]%elem_of_List_filter.
    apply negb_true_iff, Z.eqb_neq in Hne. by apply Hsys.
Qed.

Lemma consistent_delete s doc_id confirm now :
  consistent s -> consistent (delete_documento s doc_id confirm now).2.
Proof.
  intros Hs. unfold delete_documento. destruct confirm; [|done]. cbn [negb].
  destruct (list_find _ (documentos s)) as [[i documento]|] eqn:Ef; [|done].
  destruct Hs as [Hnd Hfr Hau Htipo Hcr Hsys]. cbn [snd].
  apply consistent_delete_cascade; cbn [documentos fragmentos audit_log];
    try done.
  - intros e [He|Hone%list_elem_of_singleton]%elem_of_app Hne; [by apply Hau|].
    subst e. by cbn in Hne.
  - rewrite List.filter_app, map_app. cbn. by rewrite app_nil_r.
  - intros e [He|Hone%list_elem_of_singleton]%elem_of_app Hne; [by apply Hsys|].
    by subst e.
Qed.

Lemma consistent_step s s' : consistent s -> step s s' -> consistent s'.
Proof.
  intros Hs Hstep. destruct Hstep.
  - by apply consistent_store.
  - by apply consistent_update.
  - by apply consistent_delete.
Qed.

End StoreFacts.

(** X18: the endpoint of the history of a document answers 404 exactly
    when no row has the identifier (whatever the page asked for), 400
    exactly when the document exists and [page < 1] or [page_size] is not
    between 1 and 100, and otherwise the history of the service, whose own
    bounds on the page and its size then change nothing: the page number is
    the one asked for and the page holds at most [page_size] entries. *)
Theorem get_document_audit_history_guards (s : Store.db)
    (doc_id page page_size : Z) :
  match Store.get_document_audit_history s doc_id page page_size with
  | Store.Error code =>
      (code = 404 /\ doc_id ∉ map Store.id (Store.documentos s))
      \/ (code = 400 /\ doc_id ∈ map Store.id (Store.documentos s)
          /\ (page < 1 \/ page_size < 1 \/ 100 < page_size))
  | Store.Ok200 r =>
      doc_id ∈ map Store.id (Store.documentos s)
      /\ 1 <= page /\ 1 <= page_size <= 100
      /\ r = Audit.get_document_history (Store.audit_log s) doc_id page
               page_size
      /\ r = Audit.paginate
               (Audit.order_by_timestamp_desc
                  (List.filter (fun e => Audit.documento_id e =? doc_id)
                     (Store.audit_log s)))
               page page_size
      /\ Audit.page r = page
      /\ Z.of_nat (length (Audit.entries r)) <= page_size
  end.
Proof.
  unfold Store.get_document_audit_history.
  destruct (list_find _ (Store.documentos s)) as [[i documento]|] eqn:Ef.
  - apply StoreFacts.find_by_id_Some in Ef as (_ & Hid & Hin).
    destruct (Z.ltb_spec page 1); [right; by auto|].
    destruct (Z.ltb_spec page_size 1); [right; by auto|].
    destruct (Z.ltb_spec 100 page_size); [right; by auto|].
    cbn [orb]. rewrite Hid.
    assert (E : Audit.get_document_history (Store.audit_log s) doc_id page
                  page_size
                = Audit.paginate
                    (Audit.order_by_timestamp_desc
                       (List.filter (fun e => Audit.documento_id e =? doc_id)
                          (Store.audit_log s)))
                    page page_size).
    { unfold Audit.get_document_history.
      by rewrite (Z.max_r 1 page), (Z.max_r 1 page_size), (Z.min_r 100) by lia. }
    split; [done|]. split; [lia|]. split; [lia|]. split; [done|].
    split; [exact E|]. rewrite E.
    destruct (AuditFacts.paginate_arithmetic
                (Audit.order_by_timestamp_desc
                   (List.filter (fun e => Audit.documento_id e =? doc_id)
                      (Store.audit_log s)))
                page page_size ltac:(lia) ltac:(lia)) as (Hp & _ & Hlen & _).
    split; [exact Hp|]. rewrite Hlen. lia.
  - left. split; [done|]. by apply StoreFacts.find_by_id_None.
Qed.

(** X19: [delete_documento] answers 400 when [confirm] is false, also for a
    document that does not exist, and 404 when it is true and no row has
    the identifier; both leave the database as it was. Otherwise the row is
    deleted whatever its status, and with it all its fragments and all its
    audit entries: the audit log afterwards holds exactly the former
    entries of the other documents, so the DELETE entry that the endpoint
    has just written is not kept, and the history of the document answers
    404. *)
Theorem delete_documento_effect (s : Store.db) (doc_id : Z) (confirm : bool)
    (now : Z) :
  let r := Store.delete_documento s doc_id confirm now in
  match r.1 with
  | Store.Error code =>
      r.2 = s
      /\ (if confirm
          then code = 404 /\ doc_id ∉ map Store.id (Store.documentos s)
          else code = 400)
  | Store.Ok200 i =>
      i = doc_id /\ confirm = true
      /\ doc_id ∈ map Store.id (Store.documentos s)
      /\ (forall d, d ∈ Store.documentos r.2
            <-> d ∈ Store.documentos s /\ Store.id d <> doc_id)
      /\ (forall f, f ∈ Store.fragmentos r.2
            <-> f ∈ Store.fragmentos s /\ Store.documento_id f <> doc_id)
      /\ (forall e, e ∈ Store.audit_log r.2
            <-> e ∈ Store.audit_log s /\ Audit.documento_id e <> doc_id)
      /\ (forall page page_size,
            Store.get_document_audit_history r.2 doc_id page page_size
            = Store.Error 404)
  end.
Proof.
  intros r. subst r. unfold Store.delete_documento.
  destruct confirm; cbn [negb fst snd]; [|done].
  destruct (list_find _ (Store.documentos s)) as [[i documento]|] eqn:Ef;
    cbn [fst snd].
  - apply StoreFacts.find_by_id_Some in Ef as (_ & Hid & Hin). rewrite Hid.
    assert (Hne : forall x : Z, negb (x =? doc_id) = true <-> x <> doc_id).
    { intros x. by rewrite negb_true_iff, Z.eqb_neq. }
    assert (Hdocs : forall d,
              d ∈ Store.documentos (Store.delete_cascade
                     {| Store.documentos := Store.documentos s;
                        Store.fragmentos := Store.fragmentos s;
                        Store.audit_log :=
                          Store.audit_log s
                          ++ [Audit.log_delete doc_id
                                (Store.delete_info documento)
                                (Some Audit.SYSTEM) now] |} doc_id)
              <-> d ∈ Store.documentos s /\ Store.id d <> doc_id).
    { intros d. cbn. by rewrite StoreFacts.elem_of_List_filter, Hne. }
    split; [done|]. split; [done|]. split; [done|]. split; [exact Hdocs|].
    split; [|split].
    + intros f. cbn. by rewrite StoreFacts.elem_of_List_filter, Hne.
    + intros e. cbn.
      rewrite StoreFacts.elem_of_List_filter, Hne, elem_of_app,
        list_elem_of_singleton.
      split; [|by intros [? ?]; auto].
      intros [[He| ->] Hd]; [done|]. by cbn in Hd.
    + intros page page_size. unfold Store.get_document_audit_history.
      destruct (list_find _ _) as [[j d]|] eqn:Ef'; [|done].
      apply StoreFacts.find_by_id_Some in Ef' as (Hj & Hd & _).
      apply list_elem_of_lookup_2, Hdocs in Hj as [_ Hj]. done.
  - split; [done|]. split; [done|]. by apply StoreFacts.find_by_id_None.
Qed.


(** X21: in every state that the three operations reach from the empty
    database (the worker storing a document under a new identifier, an
    update, a deletion), the identifiers of the documents are distinct,
    every fragment belongs to a document of the table, every audit entry
    belongs to a completed document of the table and is never a DELETE
    entry, and every category stored is NULL or one of the allowed ones, so
    the CHECK constraint on the category cannot fail. *)
Theorem reachable_consistent (s : Store.db) :
  Store.reachable s ->
  NoDup (map Store.id (Store.documentos s))
  /\ (forall f, f ∈ Store.fragmentos s ->
        Store.documento_id f ∈ map Store.id (Store.documentos s))
  /\ (forall e, e ∈ Store.audit_log s ->
        Audit.action e <> Audit.DELETE
        /\ exists d, d ∈ Store.documentos s
                     /\ Store.id d = Audit.documento_id e
                     /\ Store.status d = Search.completed)
  /\ (forall d, d ∈ Store.documentos s ->
        Store.tipo_documento d = None
        \/ exists c, Store.tipo_documento d = Some c
                     /\ c ∈ Metadata.ALLOWED_CATEGORIES).
Proof.
  intros Hs.
  assert (Hc : Store.consistent s).
  { apply (rtc_ind_r (R:=Store.step) Store.consistent Store.empty);
      [apply StoreFacts.consistent_empty| |exact Hs].
    intros y z _ Hstep IH. by eapply StoreFacts.consistent_step. }
  by destruct Hc.
Qed.

Lemma List_filter_all {A} (f : A -> bool) (l : list A) :
  (forall x, x ∈ l -> f x = true) -> List.filter f l = l.
Proof.
  induction l as [|x l IH]; intros H; [done|]. cbn.
  rewrite (H x) by apply list_elem_of_here. f_equal. apply IH.
  intros y Hy. apply H. by apply list_elem_of_further.
Qed.

Lemma List_filter_none {A} (f : A -> bool) (l : list A) :
  (forall x, x ∈ l -> f x = false) -> List.filter f l = [].
Proof.
  induction l as [|x l IH]; intros H; [done|]. cbn.
  rewrite (H x) by apply list_elem_of_here. apply IH.
  intros y Hy. apply H. by apply list_elem_of_further.
Qed.




Lemma reachable_consistent_witness :
  Store.reachable Store.after_delete
  /\ map (fun d => (Store.id d, Store.status d, Store.tipo_documento d))
       (Store.documentos Store.after_delete)
     = [(1, Search.completed, Some (lit "Informe"));
        (2, Search.error, Some (lit "Oficio"))]
  /\ map (fun f => (Store.documento_id f, Store.posicion f))
       (Store.fragmentos Store.after_delete)
     = [(1, 0); (1, 1); (2, 0)]
  /\ map (fun e => (Audit.documento_id e, Audit.action e))
       (Store.audit_log Store.after_delete)
     = [(1, Audit.CREATE); (1, Audit.UPDATE)]
  /\ (NoDup (map Store.id (Store.documentos Store.after_delete))
      /\ (forall f, f ∈ Store.fragmentos Store.after_delete ->
            Store.documento_id f
            ∈ map Store.id (Store.documentos Store.after_delete))
      /\ (forall e, e ∈ Store.audit_log Store.after_delete ->
            Audit.action e <> Audit.DELETE
            /\ exists d, d ∈ Store.documentos Store.after_delete
                         /\ Store.id d = Audit.documento_id e
                         /\ Store.status d = Search.completed)
      /\ (forall d, d ∈ Store.documentos Store.after_delete ->
            Store.tipo_documento d = None
            \/ exists c, Store.tipo_documento d = Some c
                         /\ c ∈ Metadata.ALLOWED_CATEGORIES)).
Proof.
  assert (Hreach : Store.reachable Store.after_delete).
  { unfold Store.reachable.
    eapply rtc_l;
      [apply (Store.step_store Store.empty 1 100 101 Store.sample_file
                Store.sample_metadata Store.sample_chunks (fun _ => true) []);
       cbn; apply not_elem_of_nil|].
    eapply rtc_l;
      [apply (Store.step_store Store.after_store 2 110 111 Store.sample_file
                Store.sample_metadata Store.sample_chunks
                (fun i => bool_decide (i = 0%nat)) (lit "timeout"));
       apply (bool_decide_unpack _); vm_compute; exact I|].
    eapply rtc_l;
      [apply (Store.step_store Store.after_failure 3 120 121 Store.sample_file
                Store.sample_metadata Store.sample_chunks (fun _ => true) []);
       apply (bool_decide_unpack _); vm_compute; exact I|].
    eapply rtc_l;
      [apply (Store.step_update Store.after_second_store 1
                Store.sample_update 130)|].
    eapply rtc_l; [apply (Store.step_delete Store.after_update 3 true 200)|].
    apply rtc_refl. }
  split; [exact Hreach|].
  split; [vm_compute; reflexivity|].
  split; [vm_compute; reflexivity|].
  split; [vm_compute; reflexivity|].
  exact (reachable_consistent _ Hreach).
Defined.

(** ** The text of the prompt *)

Module PromptFacts.

Import TextService Invariants CleanFacts CleanMore Prompt.

Lemma py_slice_prefix (s : pystr) (n : Z) :
  0 <= n -> py_slice s 0 n = take (Z.to_nat n) s.
Proof.
  intros Hn. rewrite <- (Z2Nat.id n) at 1 by done.
  apply (first_chars_take s (Z.to_nat n)).
Qed.

(** *** Lengths *)

Lemma kept_strip_length ls :
  (length (join_lines (map strip (List.filter kept_line ls)))
   <= length (join_lines ls))%nat.
Proof.
  induction ls as [|l ls IH]; [done|].
  rewrite join_lines_length. cbn [List.filter].
  destruct (kept_line l).
  - cbn [map]. rewrite join_lines_length.
    pose proof (strip_length l).
    destruct (map strip (List.filter kept_line ls)) eqn:E; [lia|].
    destruct ls; [discriminate E|]. lia.
  - destruct ls; [cbn in *; lia|]. lia.
Qed.

Lemma sanitize_length text :
  (length (_sanitize_text_for_llm text) <= length text)%nat.
Proof.
  destruct text as [|c r]; [done|]. unfold _sanitize_text_for_llm.
  set (x := c :: r).
  pose proof (strip_length
    (join_lines (map strip (List.filter kept_line
       (split_lines (squeeze_newlines (collapse_blanks (sub_control x)))))))).
  pose proof (kept_strip_length
    (split_lines (squeeze_newlines (collapse_blanks (sub_control x))))).
  rewrite join_split_lines in *.
  pose proof (squeeze_go_length 0 (collapse_blanks (sub_control x))).
  pose proof (collapse_go_length false (sub_control x)).
  assert (length (sub_control x) = length x) by apply length_map.
  unfold squeeze_newlines, collapse_blanks in *. lia.
Qed.

(** *** What holds of every character *)

Section Characters.

Variable P : N -> Prop.
Hypothesis P_SP : P SP.
Hypothesis P_LF : P LF.

Lemma collapse_go_Forall b s : Forall P s -> Forall P (collapse_go b s).
Proof.
  intros H. revert b. induction H as [|c r Hc _ IH]; intros b; [constructor|].
  cbn. destruct (is_blank c); [destruct b|]; try constructor; auto.
Qed.

Lemma squeeze_go_Forall k s : Forall P s -> Forall P (squeeze_go k s).
Proof.
  intros H. revert k. induction H as [|c r Hc _ IH]; intros k; [constructor|].
  cbn. destruct k as [|k]; [|apply IH].
  destruct (c =? LF)%N; [destruct (nl_extent r)|]; repeat constructor; auto.
Qed.

Lemma split_lines_Forall s : Forall P s -> Forall (Forall P) (split_lines s).
Proof.
  induction 1 as [|c r Hc _ IH]; [repeat constructor|]. cbn.
  destruct (c =? LF)%N; [by constructor|].
  destruct (split_lines r) as [|l ls]; [repeat constructor; auto|].
  apply Forall_cons in IH as [Hl Hls]. constructor; [by constructor|done].
Qed.

Lemma strip_Forall s : Forall P s -> Forall P (strip s).
Proof.
  destruct (strip_infix s) as (a & b & E). rewrite E at 1.
  intros H. by apply Forall_app in H as [_ [H _]%Forall_app].
Qed.

Lemma join_lines_Forall ls : Forall (Forall P) ls -> Forall P (join_lines ls).
Proof.
  induction 1 as [|l ls Hl Hls IH]; [constructor|].
  destruct ls as [|l2 ls]; [done|]. rewrite join_lines_cons2.
  apply Forall_app. split; [done|]. by constructor.
Qed.

Lemma kept_lines_Forall ls :
  Forall (Forall P) ls ->
  Forall (Forall P) (map strip (List.filter kept_line ls)).
Proof.
  induction 1 as [|l ls Hl Hls IH]; [constructor|]. cbn.
  destruct (kept_line l); [|done]. cbn. constructor; [|done].
  by apply strip_Forall.
Qed.

End Characters.

Lemma sub_control_plain text :
  Forall (fun c => control c = false) (sub_control text).
Proof.
  unfold sub_control. induction text as [|c r IH]; [constructor|]. cbn.
  constructor; [|exact IH]. by destruct (control c) eqn:E.
Qed.

Lemma sanitize_plain text :
  Forall (fun c => control c = false /\ c <> TAB) (_sanitize_text_for_llm text).
Proof.
  destruct text as [|c r]; [constructor|]. unfold _sanitize_text_for_llm.
  set (x := c :: r).
  assert (Hc : Forall (fun c => control c = false /\ c <> TAB)
                 (collapse_blanks (sub_control x))).
  { apply Forall_and. split.
    - apply collapse_go_Forall; [done|apply sub_control_plain].
    - apply tidy_no_tab, collapse_go_tidy. }
  apply strip_Forall, join_lines_Forall; [done|].
  apply kept_lines_Forall, split_lines_Forall, squeeze_go_Forall; done.
Qed.

(** *** The lines *)

Lemma split_lines_no_lf s : Forall no_lf (split_lines s).
Proof.
  induction s as [|c r IH]; [repeat constructor|]. cbn.
  destruct (N.eqb_spec c LF) as [->|Hne]; [constructor; [constructor|done]|].
  destruct (split_lines r) as [|l ls]; [repeat constructor; done|].
  apply Forall_cons in IH as [Hl Hls]. constructor; [by constructor|done].
Qed.

Lemma kept_lines_trimmed ls :
  Forall no_lf ls ->
  Forall (fun l => trimmed l /\ (1 <= length l < 500)%nat)
    (map strip (List.filter kept_line ls)).
Proof.
  induction 1 as [|l ls Hl Hls IH]; [constructor|]. cbn.
  destruct (kept_line l) eqn:E; [|done]. cbn. constructor; [|done].
  unfold kept_line in E. apply andb_true_iff in E as [En Elen].
  apply Nat.ltb_lt in Elen.
  pose proof (nonblank_strip l En) as Hne.
  destruct (strip_ends l Hne) as [H1 H2].
  pose proof (strip_length l).
  split; [split; [done|split; [done|]]|].
  - by apply (strip_Forall (fun c => c <> LF)).
  - destruct (strip l); [done|]. cbn in *. lia.
Qed.

Lemma join_lines_trimmed_ends ls :
  ls <> [] -> Forall trimmed ls ->
  head_ok (join_lines ls) = true /\ head_ok (reverse (join_lines ls)) = true.
Proof.
  intros Hne H. induction H as [|l ls Hl Hls IH]; [done|clear Hne].
  destruct Hl as (H1 & H2 & _).
  destruct ls as [|l2 ls]; [by split|].
  rewrite join_lines_cons2. split.
  - by apply head_ok_app.
  - rewrite reverse_app, reverse_cons, <- app_assoc.
    apply head_ok_app, IH. done.
Qed.

Lemma strip_trimmed l : trimmed l -> strip l = l.
Proof. intros (H1 & H2 & _). by apply strip_id. Qed.

(** The result is made of the lines kept. *)
Lemma sanitize_lines text :
  exists ls,
    Forall (fun l => trimmed l /\ (1 <= length l < 500)%nat) ls
    /\ _sanitize_text_for_llm text = join_lines ls
    /\ (ls <> [] -> split_lines (join_lines ls) = ls).
Proof.
  destruct text as [|c r].
  { exists []. by split; [constructor|]. }
  unfold _sanitize_text_for_llm.
  set (s := squeeze_newlines (collapse_blanks (sub_control (c :: r)))).
  pose proof (kept_lines_trimmed (split_lines s) (split_lines_no_lf s)) as H.
  set (ls := map strip (List.filter kept_line (split_lines s))) in *.
  assert (Htr : Forall trimmed ls).
  { eapply Forall_impl; [exact H|]. by intros l [? _]. }
  exists ls. split; [exact H|]. split.
  - destruct ls as [|l ls']; [done|].
    destruct (join_lines_trimmed_ends (l :: ls') ltac:(done) Htr).
    by apply strip_id.
  - intros Hne. apply split_join_lines; [done|].
    eapply Forall_impl; [exact Htr|]. by intros l (_ & _ & ?).
Qed.

(** *** On a text that [clean_text] returned *)

Lemma allowed_not_control c : allowed c = true -> control c = false.
Proof.
  unfold allowed, control, LF, CR, TAB. intros H.
  repeat (apply orb_true_iff in H as [H|H]).
  all: repeat match goal with
       | H : (_ && _)%bool = true |- _ => apply andb_true_iff in H as [? ?]
       | H : (_ <=? _)%N = true |- _ => apply N.leb_le in H
       | H : (_ =? _)%N = true |- _ => apply N.eqb_eq in H
       end.
  all: repeat (apply orb_false_iff; split).
  all: try apply andb_false_iff.
  all: rewrite ?N.leb_gt, ?N.eqb_neq; lia.
Qed.

Lemma sub_control_id s : all_allowed s -> sub_control s = s.
Proof.
  unfold sub_control. induction 1 as [|c r Hc _ IH]; [done|].
  cbn. rewrite (allowed_not_control c Hc). by f_equal.
Qed.

Lemma kept_good ls :
  Forall good_line ls ->
  map strip (List.filter kept_line ls)
  = List.filter (fun l => (length l <? 500)%nat) ls
  /\ Forall good_line (List.filter (fun l => (length l <? 500)%nat) ls).
Proof.
  induction 1 as [|l ls Hl Hls [IH1 IH2]]; [by split|]. cbn [List.filter].
  unfold kept_line at 1. rewrite (nonblank_of_good l Hl). cbn [andb].
  destruct (length l <? 500)%nat; [|by split].
  cbn [map]. rewrite IH1. split; [|by constructor].
  f_equal. apply strip_id; apply Hl.
Qed.

Lemma sanitize_good ls :
  Forall good_line ls ->
  _sanitize_text_for_llm (join_lines ls)
  = join_lines (List.filter (fun l => (length l <? 500)%nat) ls).
Proof.
  intros Hls. destruct ls as [|l0 ls0]; [done|].
  set (ls := l0 :: ls0) in *.
  destruct (join_lines_ends ls ltac:(done) Hls) as [Hhead _].
  unfold _sanitize_text_for_llm.
  destruct (join_lines ls) as [|c r] eqn:E; [done|]. rewrite <- E.
  rewrite sub_control_id by (by apply join_lines_allowed).
  unfold collapse_blanks.
  rewrite collapse_go_id; [|by apply join_lines_tidy|done].
  rewrite squeeze_join_lines by done.
  rewrite split_join_lines; [|done|].
  2:{ eapply Forall_impl; [exact Hls|]. by intros l []. }
  destruct (kept_good ls Hls) as [-> Hgood]. revert Hgood.
  generalize (List.filter (fun l : list N => (length l <? 500)%nat) ls).
  intros [|l1 ls1] Hgood; [done|].
  destruct (join_lines_ends (l1 :: ls1) ltac:(done) Hgood).
  by apply strip_id.
Qed.

End PromptFacts.

(** X23: the text that [_sanitize_text_for_llm] returns is never longer
    than its input, so the text put into the prompt by [extract_metadata]
    has at most 4000 characters; it holds no control character of the class
    replaced and no tab, and no whitespace at either end; and unless it is
    empty, each of its lines has between 1 and 499 characters and no
    whitespace at either end. *)
Theorem sanitize_text_for_llm_result (text : pystr) :
  let out := Prompt._sanitize_text_for_llm text in
  (length out <= length text)%nat
  /\ (length (Prompt.text_truncated text) <= 4000)%nat
  /\ Forall (fun c => Prompt.control c = false /\ c <> TAB) out
  /\ TextService.strip out = out
  /\ (out <> [] ->
      Forall (fun l => (1 <= length l <= 499)%nat /\ TextService.strip l = l)
        (TextService.split_lines out)).
Proof.
  intros out. subst out.
  split; [apply PromptFacts.sanitize_length|]. split.
  { unfold Prompt.text_truncated.
    pose proof (PromptFacts.sanitize_length (py_slice text 0 4000)).
    rewrite PromptFacts.py_slice_prefix in * by lia.
    rewrite length_take in *. lia. }
  split; [apply PromptFacts.sanitize_plain|].
  destruct (PromptFacts.sanitize_lines text) as (ls & Hls & -> & Hsplit).
  assert (Htr : Forall Prompt.trimmed ls).
  { eapply Forall_impl; [exact Hls|]. by intros l [? _]. }
  split.
  - destruct ls as [|l ls']; [done|].
    destruct (PromptFacts.join_lines_trimmed_ends (l :: ls') ltac:(done) Htr).
    by apply CleanFacts.strip_id.
  - intros Hne. rewrite Hsplit by (by intros ->).
    eapply Forall_impl; [exact Hls|]. intros l [Ht Hlen].
    split; [lia|by apply PromptFacts.strip_trimmed].
Qed.

(** X24: for a text that [clean_text] returned, of at most 4000
    characters, the text put into the prompt is that text without its
    lines of 500 characters or more: it is the cleaned text itself when
    every line is shorter, and it is empty when the cleaned text has 500
    characters or more and no line feed, in which case the model is asked
    about no text at all. *)
Theorem prompt_text_of_cleaned (x : pystr) :
  let cleaned := TextService.clean_text x in
  let sent := Prompt.text_truncated (Prompt.text_for_metadata cleaned) in
  (length cleaned <= 4000)%nat ->
  sent = TextService.join_lines
           (List.filter (fun l => (length l <? 500)%nat)
              (TextService.split_lines cleaned))
  /\ (Forall (fun l => (length l < 500)%nat) (TextService.split_lines cleaned) ->
      sent = cleaned)
  /\ (Forall (fun c => c <> LF) cleaned -> (500 <= length cleaned)%nat ->
      sent = []).
Proof.
  intros cleaned sent Hlen. subst sent.
  unfold Prompt.text_truncated, Prompt.text_for_metadata.
  rewrite !PromptFacts.py_slice_prefix by lia.
  rewrite !take_ge by (rewrite ?take_ge; lia).
  subst cleaned.
  destruct (CleanFacts.clean_text_is_join x) as (ls & Hls & E).
  rewrite E in *. clear E.
  assert (Hmain : Prompt._sanitize_text_for_llm (TextService.join_lines ls)
                  = TextService.join_lines
                      (List.filter (fun l => (length l <? 500)%nat)
                         (TextService.split_lines (TextService.join_lines ls)))).
  { destruct ls as [|l ls']; [done|].
    rewrite PromptFacts.sanitize_good by done.
    rewrite CleanFacts.split_join_lines; [done|done|].
    eapply Forall_impl; [exact Hls|]. by intros l1 []. }
  split; [exact Hmain|]. split.
  - intros Hshort. rewrite Hmain.
    rewrite List_filter_all; [apply CleanMore.join_split_lines|].
    intros l Hl. apply Nat.ltb_lt. rewrite Forall_forall in Hshort. by apply Hshort.
  - intros Hnolf Hlong. rewrite Hmain.
    destruct ls as [|l [|l2 ls']]; [cbn in Hlong; lia| |].
    + rewrite (CleanFacts.split_join_lines [l]); [|done|].
      * change (TextService.join_lines [l]) with l in Hlong.
        cbn [List.filter].
        by destruct (Nat.ltb_spec (length l) 500); [lia|].
      * eapply Forall_impl; [exact Hls|]. by intros l1 [].
    + rewrite CleanFacts.join_lines_cons2 in Hnolf.
      apply Forall_app in Hnolf as [_ Hnolf].
      by apply Forall_cons in Hnolf as [Hnolf _].
Qed.

Lemma prompt_text_of_cleaned_witness :
  (length (TextService.clean_text (replicate 500 97%N)) <= 4000)%nat
  /\ Prompt.text_truncated
       (Prompt.text_for_metadata (TextService.clean_text (replicate 500 97%N)))
     = [].
Proof.
  assert (Hlen : (length (TextService.clean_text (replicate 500 97%N))
                  <= 4000)%nat).
  { apply Nat.leb_le. vm_compute. reflexivity. }
  split; [exact Hlen|].
  apply (proj2 (proj2 (prompt_text_of_cleaned (replicate 500 97%N) Hlen))).
  - apply (bool_decide_unpack _). vm_compute. exact I.
  - apply Nat.leb_le. vm_compute. reflexivity.
Defined.

(** ** From the upload to the text *)

(** X25: an upload is accepted exactly when its content type is one of the
    three allowed and its size is at most 50 MB (52428800 bytes; an empty
    file is accepted), the type being checked first; the temporary file
    ends in [.pdf] exactly for a PDF. For every content type accepted,
    [extract_text] supports the type. For a PDF that opens, the text layer
    is returned as it is when it has at least 50 characters once stripped;
    otherwise it is dropped and the text recognised on the pages is
    returned, each page followed by a line feed, except that a document
    without pages ends in an exception. A text layer of 10 to 49 characters
    is thus never seen by the worker, whose own limit is 10 characters. *)
Theorem accepted_upload_is_extracted (content_type : option pystr)
    (file_size_bytes : Z) (f : Ingest.file) :
  match Ingest.upload_document content_type file_size_bytes with
  | Ingest.Refused code =>
      (code = 400 /\ forall c, content_type = Some c -> c ∉ Ingest.allowed_types)
      \/ (code = 413 /\ 52428800 < file_size_bytes
          /\ exists c, content_type = Some c /\ c ∈ Ingest.allowed_types)
  | Ingest.Accepted ext =>
      exists c,
        content_type = Some c /\ c ∈ Ingest.allowed_types
        /\ file_size_bytes <= 52428800
        /\ (ext = lit ".pdf" <-> c = Ingest.PDF)
        /\ (ext = lit ".pdf" \/ ext = lit ".jpg")
        /\ Ingest.extract_text f c <> Ingest.UnsupportedType
        /\ (c <> Ingest.PDF ->
            Ingest.extract_text f c = Ingest._extract_from_image f)
        /\ (c = Ingest.PDF ->
            forall pages, Ingest.pdf_pages f = Some pages ->
              let layer := concat (map Ingest.get_text pages) in
              (50 <= Z.of_nat (length (TextService.strip layer)) ->
               Ingest.extract_text f c = Ingest.Text layer)
              /\ (Z.of_nat (length (TextService.strip layer)) < 50 ->
                  pages <> [] ->
                  Ingest.extract_text f c
                  = Ingest.Text
                      (concat (map (fun p => Ingest.image_to_string p ++ [LF])
                                 pages)))
              /\ (pages = [] ->
                  Ingest.extract_text f c = Ingest.UnboundPageNum))
  end.
Proof.
  unfold Ingest.upload_document.
  destruct content_type as [c|]; [|left; by split].
  case_bool_decide as Hc; [|left; split; [done|by intros ? [= <-]]].
  change (Ingest.MAX_UPLOAD_SIZE_MB * 1024 * 1024) with 52428800. cbv zeta.
  destruct (Z.ltb_spec 52428800 file_size_bytes) as [Hbig|Hsmall].
  { right. split; [done|]. split; [done|]. by exists c. }
  exists c. split; [done|]. split; [done|]. split; [done|].
  assert (Hext : (if bool_decide (c = Ingest.PDF) then lit ".pdf" else lit ".jpg")
                 = lit ".pdf" <-> c = Ingest.PDF).
  { case_bool_decide; [done|]. split; [discriminate|done]. }
  split; [exact Hext|]. split; [case_bool_decide; by auto|].
  unfold Ingest.extract_text.
  destruct (decide (c = Ingest.PDF)) as [->|Hne].
  - rewrite bool_decide_eq_true_2 by done.
    split.
    { unfold Ingest._extract_from_pdf. destruct (Ingest.pdf_pages f); [|done].
      destruct (_ <=? _); [done|]. unfold Ingest._ocr_pdf_pages.
      by destruct l. }
    split; [done|]. intros _ pages Hpages.
    set (layer := concat (map Ingest.get_text pages)).
    unfold Ingest._extract_from_pdf. rewrite Hpages. fold layer.
    change Ingest.min_text_threshold with 50.
    split; [|split].
    + intros H. by destruct (Z.leb_spec 50 (Z.of_nat (length (TextService.strip layer))));
        [|lia].
    + intros H Hp.
      destruct (Z.leb_spec 50 (Z.of_nat (length (TextService.strip layer))));
        [lia|].
      unfold Ingest._ocr_pdf_pages. by destruct pages.
    + intros ->. done.
  - rewrite bool_decide_eq_false_2 by done.
    assert (Hjpg : c ∈ [Ingest.JPEG; Ingest.JPG]).
    { unfold Ingest.allowed_types in Hc.
      apply elem_of_cons in Hc as [->|Hc]; done. }
    rewrite bool_decide_eq_true_2 by done.
    split; [|split; [done|by intros ->]].
    unfold Ingest._extract_from_image. by destruct (Ingest.image_text f).
Qed.

(** X26: the two limits on the length of the text do not agree: a PDF
    whose text layer has fewer than 50 characters once stripped is judged
    by the text recognised on its pages alone, so when that text has fewer
    than 10 characters once stripped the worker rejects the document, also
    when the text layer has 10 characters or more and would pass the check
    of the worker. *)
Theorem short_text_layer_is_dropped (f : Ingest.file)
    (pages : list Ingest.page) :
  Ingest.pdf_pages f = Some pages ->
  pages <> [] ->
  let layer := concat (map Ingest.get_text pages) in
  let recognised :=
    concat (map (fun p => Ingest.image_to_string p ++ [LF]) pages) in
  Z.of_nat (length (TextService.strip layer)) < 50 ->
  Z.of_nat (length (TextService.strip recognised)) < 10 ->
  Ingest.extract_text f Ingest.PDF = Ingest.Text recognised
  /\ Pipeline.clean_and_chunk recognised = TextService.RaisesValueError
  /\ (10 <= Z.of_nat (length (TextService.strip layer)) ->
      Pipeline.clean_and_chunk layer
      = TextService.Returns
          (TextService.clean_text layer,
           Spec.sliding_windows (TextService.clean_text layer) 800 100)).
Proof.
  intros Hpages Hne layer recognised Hlayer Hrec.
  split; [|split].
  - unfold Ingest.extract_text. rewrite bool_decide_eq_true_2 by done.
    unfold Ingest._extract_from_pdf. rewrite Hpages. fold layer.
    change Ingest.min_text_threshold with 50.
    destruct (Z.leb_spec 50 (Z.of_nat (length (TextService.strip layer))));
      [lia|].
    unfold Ingest._ocr_pdf_pages. by destruct pages.
  - unfold Pipeline.clean_and_chunk. destruct recognised; [done|].
    by destruct (Z.ltb_spec (Z.of_nat (length (TextService.strip (n :: recognised))))
                   10); [|lia].
  - intros Hlong. unfold Pipeline.clean_and_chunk.
    destruct layer as [|c r]; [cbn in Hlong; lia|].
    destruct (Z.ltb_spec (Z.of_nat (length (TextService.strip (c :: r)))) 10);
      [lia|].
    by rewrite explicit_windows.
Qed.

Lemma short_text_layer_is_dropped_witness :
  Ingest.extract_text Ingest.stamped_pdf Ingest.PDF = Ingest.Text [32%N; LF]
  /\ Pipeline.clean_and_chunk [32%N; LF] = TextService.RaisesValueError.
Proof.
  assert (Hpages : Ingest.pdf_pages Ingest.stamped_pdf
                   = Some [Ingest.stamped_page]) by reflexivity.
  assert (Hne : [Ingest.stamped_page] <> []) by discriminate.
  assert (Hlayer : Z.of_nat (length (TextService.strip
                      (concat (map Ingest.get_text [Ingest.stamped_page])))) < 50)
    by (vm_compute; reflexivity).
  assert (Hrec : Z.of_nat (length (TextService.strip
                    (concat (map (fun p => Ingest.image_to_string p ++ [LF])
                               [Ingest.stamped_page])))) < 10)
    by (vm_compute; reflexivity).
  destruct (short_text_layer_is_dropped Ingest.stamped_pdf
              [Ingest.stamped_page] Hpages Hne Hlayer Hrec) as (H1 & H2 & _).
  split; [exact H1|exact H2].
Defined.

Lemma reachable_is_consistent (s : Store.db) :
  Store.reachable s -> Store.consistent s.
Proof.
  intros Hs.
  apply (rtc_ind_r (R:=Store.step) Store.consistent Store.empty);
    [apply StoreFacts.consistent_empty| |exact Hs].
  intros y z _ Hstep IH. by eapply StoreFacts.consistent_step.
Qed.

(** X27: in every reachable state the audit log holds exactly one CREATE
    entry for each completed document of the table, in the order of the
    table, and none for the others; every other entry is an UPDATE entry,
    and every entry is by ["system"]. So the history filtered by the action
    CREATE counts as many entries as there are completed documents, the
    history filtered by the action DELETE is always empty, and so is the
    history filtered by a user other than ["system"]. *)
Theorem reachable_audit_log (s : Store.db) :
  Store.reachable s ->
  let log := Store.audit_log s in
  let completed :=
    List.filter (fun d => Search.is_completed (Store.status d))
      (Store.documentos s) in
  map Audit.documento_id
    (List.filter (fun e => Audit.action_eqb (Audit.action e) Audit.CREATE) log)
  = map Store.id completed
  /\ (forall e, e ∈ log ->
        Audit.action e = Audit.CREATE \/ Audit.action e = Audit.UPDATE)
  /\ (forall e, e ∈ log -> Audit.user_id e = Some (lit "system"))
  /\ (forall (upper : pystr -> pystr) page page_size a,
        a <> [] ->
        Audit.action_of_string (upper a) = Some Audit.CREATE ->
        Audit.total (Audit.get_all_audit_history upper log page page_size
                       (Some a) None None None)
        = Z.of_nat (length completed))
  /\ (forall (upper : pystr -> pystr) page page_size a user_filter
             date_from date_to,
        a <> [] ->
        Audit.action_of_string (upper a) = Some Audit.DELETE ->
        let r := Audit.get_all_audit_history upper log page page_size
                   (Some a) user_filter date_from date_to in
        Audit.entries r = [] /\ Audit.total r = 0 /\ Audit.total_pages r = 0)
  /\ (forall (upper : pystr -> pystr) page page_size action_filter u
             date_from date_to,
        u <> [] -> u <> lit "system" ->
        let r := Audit.get_all_audit_history upper log page page_size
                   action_filter (Some u) date_from date_to in
        Audit.entries r = [] /\ Audit.total r = 0 /\ Audit.total_pages r = 0).
Proof.
  intros Hs log completed.
  destruct (reachable_is_consistent s Hs) as [_ _ Hau _ Hcr Hsys].
  fold log in Hau, Hcr, Hsys. fold completed in Hcr.
  assert (Hempty : forall f page page_size,
            List.filter f log = [] ->
            let r := Audit.paginate
                       (Audit.order_by_timestamp_desc (List.filter f log))
                       (Z.max 1 page) (Z.min 100 (Z.max 1 page_size)) in
            Audit.entries r = [] /\ Audit.total r = 0
            /\ Audit.total_pages r = 0).
  { intros f page page_size Hnone r. subst r. rewrite Hnone.
    cbn [Audit.order_by_timestamp_desc foldr].
    unfold Audit.paginate, Audit.offset_limit.
    cbn [Audit.entries Audit.total Audit.total_pages length].
    split; [by rewrite drop_nil, take_nil|]. split; [done|].
    apply Z.div_small. lia. }
  split; [exact Hcr|]. split.
  { intros e He. destruct (Hau e He) as [Hact _].
    destruct (Audit.action e); [by left|by right|done]. }
  split; [exact Hsys|]. split; [|split].
  - intros upper page page_size a Hne Ha.
    unfold Audit.get_all_audit_history, Audit.paginate. cbn [Audit.total].
    rewrite AuditFacts.order_by_timestamp_desc_Permutation.
    rewrite <- (length_map Store.id completed), <- Hcr, length_map.
    do 2 f_equal. apply filter_ext. intros e. unfold Audit.keeps.
    destruct a as [|c a]; [done|]. rewrite Ha.
    by rewrite !andb_true_r.
  - intros upper page page_size a user_filter date_from date_to Hne Ha.
    apply Hempty. apply List_filter_none. intros e He.
    destruct (Hau e He) as [Hact _].
    unfold Audit.keeps. destruct a as [|c a]; [done|]. rewrite Ha.
    by destruct (Audit.action e).
  - intros upper page page_size action_filter u date_from date_to Hne Hu.
    apply Hempty. apply List_filter_none. intros e He.
    unfold Audit.keeps. destruct u as [|c u]; [done|].
    rewrite (Hsys e He), bool_decide_eq_false_2;
      [|unfold Audit.SYSTEM; congruence].
    by rewrite andb_false_r.
Qed.

Lemma reachable_audit_log_witness :
  Store.reachable Store.after_update
  /\ map (fun d => (Store.id d, Store.status d))
       (Store.documentos Store.after_update)
     = [(1, Search.completed); (2, Search.error); (3, Search.completed)]
  /\ map (fun e => (Audit.documento_id e, Audit.action e))
       (Store.audit_log Store.after_update)
     = [(1, Audit.CREATE); (3, Audit.CREATE); (1, Audit.UPDATE)]
  /\ Audit.total
       (Audit.get_all_audit_history (fun a => a)
          (Store.audit_log Store.after_update) 1 20 (Some (lit "CREATE"))
          None None None)
     = 2
  /\ Audit.total
       (Audit.get_all_audit_history (fun a => a)
          (Store.audit_log Store.after_update) 1 20 (Some (lit "DELETE"))
          None None None)
     = 0.
Proof.
  assert (Hreach : Store.reachable Store.after_update).
  { unfold Store.reachable.
    eapply rtc_l;
      [apply (Store.step_store Store.empty 1 100 101 Store.sample_file
                Store.sample_metadata Store.sample_chunks (fun _ => true) []);
       cbn; apply not_elem_of_nil|].
    eapply rtc_l;
      [apply (Store.step_store Store.after_store 2 110 111 Store.sample_file
                Store.sample_metadata Store.sample_chunks
                (fun i => bool_decide (i = 0%nat)) (lit "timeout"));
       apply (bool_decide_unpack _); vm_compute; exact I|].
    eapply rtc_l;
      [apply (Store.step_store Store.after_failure 3 120 121 Store.sample_file
                Store.sample_metadata Store.sample_chunks (fun _ => true) []);
       apply (bool_decide_unpack _); vm_compute; exact I|].
    eapply rtc_l;
      [apply (Store.step_update Store.after_second_store 1
                Store.sample_update 130)|].
    apply rtc_refl. }
  destruct (reachable_audit_log _ Hreach) as (_ & _ & _ & Hc & Hd & _).
  split; [exact Hreach|].
  split; [vm_compute; reflexivity|].
  split; [vm_compute; reflexivity|].
  split.
  - exact (Hc (fun a => a) 1 20 (lit "CREATE") ltac:(discriminate) eq_refl).
  - exact (proj1 (proj2 (Hd (fun a => a) 1 20 (lit "DELETE") None None None
                           ltac:(discriminate) eq_refl))).
Defined.

(** ** The download *)


